(** * TWS emulator: wire protocol, client and server

    A shallow embedding of [tws_client.py] (class [TWSClient]) and
    [tws_emulator.py] (class [TWSEmulator]), and the properties of the
    streaming protocol that hold of them.

    Conventions of the embedding.
    - Python [str] is [string]; a character is a code point below 256.
      Python [bytes] is a list of bytes; [Utf8] is the codec between the
      two.
    - A method is a computation in the monad [M]: it threads the object it
      is called on, may raise a Python exception, may block forever, and
      records its observable effects (socket writes, closes, prints,
      callback invocations, thread starts) in a log.
    - What the operating system or another library decides is an input:
      the results of successive [recv] calls are a list, the state of a
      socket says whether a write on it fails, and the functions of the
      [json] and [pandas] libraries are the fields of the class [PyLib]. *)

From Stdlib Require Import ZArith QArith String Ascii List Bool Lia DecimalString.
From Stdlib Require Strings.Byte.
From stdpp Require Import base option list gmap strings.

Set Warnings "-register-all".
Local Open Scope Z_scope.

(* ================================================================== *)
(** * Text *)

Module Text.

Definition NL : ascii := "010"%char.
Definition QUOTE : ascii := "034"%char.
Definition BACKSLASH : ascii := "092"%char.

(** The one-character string ['\n'] that terminates a frame. *)
Definition nl : string := String NL EmptyString.

Definition code (c : ascii) : nat := nat_of_ascii c.

(** [str.isspace] on the code points below 256. *)
Definition isspace (c : ascii) : bool :=
  let n := code c in
  ((9 <=? n) && (n <=? 13) || (28 <=? n) && (n <=? 32)
   || (n =? 133) || (n =? 160))%nat.

(** [bool(s.strip())]: some character of [s] is not white space. *)
Fixpoint strip_nonempty (s : string) : bool :=
  match s with
  | EmptyString => false
  | String c s' => negb (isspace c) || strip_nonempty s'
  end.

(** [s.split('\n', 1)] when ['\n' in s] (then [Some (line, rest)]);
    [None] when [s] holds no newline. *)
Fixpoint split_nl (s : string) : option (string * string) :=
  match s with
  | EmptyString => None
  | String c s' =>
      if Ascii.eqb c NL then Some (EmptyString, s')
      else match split_nl s' with
           | Some (line, rest) => Some (String c line, rest)
           | None => None
           end
  end.

(** ['\n' in s] *)
Definition has_nl (s : string) : bool :=
  match split_nl s with Some _ => true | None => false end.

(** [''.join(chunks)] *)
Fixpoint join (chunks : list string) : string :=
  match chunks with
  | [] => EmptyString
  | c :: cs => c +:+ join cs
  end.

Definition nonempty (s : string) : bool :=
  match s with EmptyString => false | _ => true end.

(** [s] starts with [p]: what follows [p]. *)
Fixpoint strip_prefix (p s : string) : option string :=
  match p, s with
  | EmptyString, _ => Some s
  | String a p', String b s' => if Ascii.eqb a b then strip_prefix p' s' else None
  | _, _ => None
  end.

End Text.

(* ================================================================== *)
(** * JSON values *)

(** A Python [float], kept as its literal: the programs only forward
    floats, they never compute with them. *)
Record pyfloat := Float { repr : string }.

(** What [json.loads] returns and [json.dumps] takes. A [dict] keeps the
    insertion order of its keys and has each key once. *)
Inductive json :=
| JNull
| JBool (b : bool)
| JInt (n : Z)
| JFloat (x : pyfloat)
| JStr (s : string)
| JList (xs : list json)
| JDict (kvs : list (string * json)).

Inductive exn :=
| JSONDecodeError
| KeyError (k : string)
| TypeError
| AttributeError
| ValueError
| IndexError
| OSError.

Module Dict.

Fixpoint lookup (k : string) (kvs : list (string * json)) : option json :=
  match kvs with
  | [] => None
  | (k', v) :: rest => if String.eqb k k' then Some v else lookup k rest
  end.

(** [d[k] = v] *)
Fixpoint set (k : string) (v : json) (kvs : list (string * json))
  : list (string * json) :=
  match kvs with
  | [] => [(k, v)]
  | (k', v') :: rest =>
      if String.eqb k k' then (k, v) :: rest else (k', v') :: set k v rest
  end.

End Dict.

(** [msg[k]]: [KeyError] on a dict without the key, [TypeError] on a
    value that is no dict (a list or a string wants integer indices, the
    other values are not subscriptable). *)
Definition subscript (msg : json) (k : string) : exn + json :=
  match msg with
  | JDict kvs =>
      match Dict.lookup k kvs with
      | Some v => inr v
      | None => inl (KeyError k)
      end
  | _ => inl TypeError
  end.

(** [msg.get(k)]: [None] on a dict without the key, [AttributeError] on
    a value that is no dict. *)
Definition dict_get (msg : json) (k : string) : exn + json :=
  match msg with
  | JDict kvs =>
      match Dict.lookup k kvs with
      | Some v => inr v
      | None => inr JNull
      end
  | _ => inl AttributeError
  end.

(** [x == 'literal'] for a JSON value [x]. *)
Definition is_str (x : json) (lit : string) : bool :=
  match x with
  | JStr s => String.eqb s lit
  | _ => false
  end.

(* ================================================================== *)
(** * The libraries the programs call *)

(** One row of the server's data frame, a bar of the Bar Source: what
    [iterrows] yields, with the columns [date], [open], [high], [low]
    and [close]. *)
Module Df.

Record Series (T : Type) := mkSeries {
  date : T;
  open : pyfloat;
  high : pyfloat;
  low : pyfloat;
  close : pyfloat;
}.
Arguments mkSeries {T}.
Arguments date {T}.
Arguments open {T}.
Arguments high {T}.
Arguments low {T}.
Arguments close {T}.

End Df.

(** [json.loads] ([None]: it raises [JSONDecodeError]), [json.dumps],
    [pandas.to_datetime] ([None]: it raises), [Timestamp.isoformat], and
    the two pandas computations of [aggregate_to_seconds]: the mode of
    the differences of successive dates, in seconds ([None]: there is no
    difference), and the resampling to five-second bars. *)
Class PyLib := {
  Timestamp : Type;
  json_loads : string -> option json;
  json_dumps : json -> string;
  to_datetime : json -> option Timestamp;
  isoformat : Timestamp -> string;
  freq_mode : list (Df.Series Timestamp) -> option Q;
  resample : list (Df.Series Timestamp) -> list (Df.Series Timestamp);
}.

(* ================================================================== *)
(** * Effects *)

Module Wire.
Section WithLib.
Context `{PyLib}.

(** The [Bar] object the client builds for its bar callback. *)
Record Bar := mkBar {
  time : Timestamp;
  open_ : json;
  high : json;
  low : json;
  close : json;
}.

(** The [Trade] object of the order-status callback, with its nested
    [Order] and [OrderStatus]. *)
Record Trade := mkTrade {
  orderId : json;
  status : json;
  avgFillPrice : json;
}.

(** What a computation does to the world outside. *)
Inductive event :=
| Print (text : string)
| Sent (fd : nat) (data : string)
| Closed (fd : nat)
| BarCallback (cb : nat) (bar : Bar) (has_new_bar : bool)
| OrderStatusCallback (cb : nat) (trade : Trade)
| ThreadStart (target : string) (fd : nat).

End WithLib.
End Wire.

(** A socket object. [closed]: [close()] was called on it; [broken]:
    the connection is gone, so that a write raises. *)
Record Socket := mkSocket {
  fd : nat;
  closed : bool;
  broken : bool;
}.

Definition sock_close (sk : Socket) : Socket :=
  {| fd := fd sk; closed := true; broken := broken sk |}.

(** A write on the socket raises. *)
Definition write_fails (sk : Socket) : bool := closed sk || broken sk.

(** The result of one [recv(4096).decode('utf-8')]: text (empty when
    the peer has shut down), or an exception of [recv] or of [decode]. *)
Inductive recv_result :=
| Data (text : string)
| RecvError.

(** The UTF-8 codec on the text of the embedding. A code point below
    128 is one byte, a code point from 128 to 255 is two: the lead byte
    0xC2 or 0xC3 and one continuation byte. On bytes below 0xC4 [decode]
    is [bytes.decode('utf-8')]; a byte from 0xC4 on leads a code point
    that the text of the embedding does not have, and no statement is
    about a stream with such a byte. *)
Module Utf8.

Definition ord (b : Byte.byte) : N := Byte.to_N b.

(** The byte is a character of its own. *)
Definition is_single (b : Byte.byte) : bool := (ord b <? 128)%N.

(** The byte leads a character of two bytes (0xC0 and 0xC1 lead none:
    [decode] refuses an encoding that is longer than it has to be). *)
Definition is_lead2 (b : Byte.byte) : bool :=
  (ord b =? 194)%N || (ord b =? 195)%N.

Definition is_continuation (b : Byte.byte) : bool :=
  (128 <=? ord b)%N && (ord b <? 192)%N.

Definition two_bytes (x y : Byte.byte) : ascii :=
  ascii_of_N ((ord x - 192) * 64 + (ord y - 128)).

(** [b.decode('utf-8')]; [None]: it raises [UnicodeDecodeError], on a
    byte that starts no character, on a lead byte that no continuation
    byte follows, and on bytes that end inside a character. *)
Fixpoint decode (b : list Byte.byte) : option string :=
  match b with
  | [] => Some EmptyString
  | x :: rest =>
      if is_single x then String (ascii_of_byte x) <$> decode rest
      else if is_lead2 x then
        match rest with
        | y :: rest' =>
            if is_continuation y then String (two_bytes x y) <$> decode rest'
            else None
        | [] => None
        end
      else None
  end.

Definition encode_char (c : ascii) : list Byte.byte :=
  let n := N_of_ascii c in
  if (n <? 128)%N then [byte_of_ascii c]
  else [byte_of_ascii (ascii_of_N (192 + n / 64));
        byte_of_ascii (ascii_of_N (128 + n mod 64))].

(** [s.encode('utf-8')] *)
Fixpoint encode (s : string) : list Byte.byte :=
  match s with
  | EmptyString => []
  | String c s' => encode_char c ++ encode s'
  end.

End Utf8.

(** [recv(4096).decode('utf-8')] on the bytes that one [recv] returns:
    every read is decoded on its own. *)
Definition received (b : list Byte.byte) : recv_result :=
  match Utf8.decode b with
  | Some text => Data text
  | None => RecvError
  end.

Module Eff.

Inductive blocked_on := OnLock | OnRecv.

(** How a computation ends: it returns, it raises, or it never returns
    because it waits for a lock or for bytes that never come. *)
Inductive outcome (S A : Type) :=
| Ok (a : A) (s : S)
| Exc (e : exn) (s : S)
| Blocked (w : blocked_on) (s : S).
Arguments Ok {S A}.
Arguments Exc {S A}.
Arguments Blocked {S A}.

Definition state_of {S A} (o : outcome S A) : S :=
  match o with Ok _ s | Exc _ s | Blocked _ s => s end.

Section Monad.
Context {E : Type}.

Definition M (S A : Type) : Type := S -> list E * outcome S A.

Definition ret {S A} (a : A) : M S A := fun s => ([], Ok a s).

Definition bind {S A B} (m : M S A) (k : A -> M S B) : M S B :=
  fun s =>
    match m s with
    | (l, Ok a s') => let (l', o) := k a s' in (l ++ l', o)
    | (l, Exc e s') => (l, Exc e s')
    | (l, Blocked w s') => (l, Blocked w s')
    end.

Definition raise {S A} (e : exn) : M S A := fun s => ([], Exc e s).
Definition block {S A} (w : blocked_on) : M S A := fun s => ([], Blocked w s).
Definition get {S} : M S S := fun s => ([], Ok s s).
Definition put {S} (s : S) : M S unit := fun _ => ([], Ok tt s).
Definition emit {S} (e : E) : M S unit := fun s => ([e], Ok tt s).

(** A value or the exception that computing it raises. *)
Definition lift_res {S A} (r : exn + A) : M S A :=
  match r with inl e => raise e | inr a => ret a end.

Definition lift_opt {S A} (e : exn) (r : option A) : M S A :=
  match r with None => raise e | Some a => ret a end.

(** [try: m except ...: h]: [h e] is [None] when no clause matches the
    exception, which then goes on. *)
Definition try_except {S A} (m : M S A) (h : exn -> option (M S A)) : M S A :=
  fun s =>
    match m s with
    | (l, Exc e s') =>
        match h e with
        | Some k => let (l', o) := k s' in (l ++ l', o)
        | None => (l, Exc e s')
        end
    | r => r
    end.

(** Runs a computation on a component of the state. *)
Definition zoom {S T A} (proj : T -> S) (upd : S -> T -> T) (m : M S A) : M T A :=
  fun t =>
    match m (proj t) with
    | (l, Ok a s) => (l, Ok a (upd s t))
    | (l, Exc e s) => (l, Exc e (upd s t))
    | (l, Blocked w s) => (l, Blocked w (upd s t))
    end.

(** [with lock: m] for a [threading.Lock], which is not reentrant: when
    the lock is held, [acquire] waits; the only thread of the model
    that could release it is the one that waits. The lock is released
    when [m] returns or raises. *)
Definition with_lock {S A} (held : S -> bool) (set_held : bool -> S -> S)
    (m : M S A) : M S A :=
  fun s =>
    if held s then ([], Blocked OnLock s)
    else
      match m (set_held true s) with
      | (l, Ok a s') => (l, Ok a (set_held false s'))
      | (l, Exc e s') => (l, Exc e (set_held false s'))
      | (l, Blocked w s') => (l, Blocked w s')
      end.

End Monad.
Arguments M : clear implicits.

End Eff.

Declare Scope eff_scope.
Delimit Scope eff_scope with eff.
Notation "x <- m ;; k" := (Eff.bind m (fun x => k))
  (at level 100, m at next level, right associativity) : eff_scope.
Notation "m ;; k" := (Eff.bind m (fun _ => k))
  (at level 100, right associativity) : eff_scope.

(* ================================================================== *)
(** * [tws_client.py] *)

Module Client.
Import Text Wire Eff.
Local Open Scope eff_scope.

Section WithLib.
Context `{PyLib}.

(** The fields of a [TWSClient]. [lock]: the lock is held.
    [stop_event]: the event is set. [listen_thread]: the descriptor of
    the socket the receive thread was started on. *)
Record TWSClient := mkClient {
  host : string;
  port : Z;
  socket : option Socket;
  connected : bool;
  running : bool;
  bar_callback : option nat;
  order_status_callback : option nat;
  lock : bool;
  stop_event : bool;
  listen_thread : option nat;
}.

Definition set_socket (v : option Socket) (c : TWSClient) : TWSClient :=
  mkClient (host c) (port c) v (connected c) (running c) (bar_callback c)
    (order_status_callback c) (lock c) (stop_event c) (listen_thread c).
Definition set_connected (v : bool) (c : TWSClient) : TWSClient :=
  mkClient (host c) (port c) (socket c) v (running c) (bar_callback c)
    (order_status_callback c) (lock c) (stop_event c) (listen_thread c).
Definition set_running (v : bool) (c : TWSClient) : TWSClient :=
  mkClient (host c) (port c) (socket c) (connected c) v (bar_callback c)
    (order_status_callback c) (lock c) (stop_event c) (listen_thread c).
Definition set_bar_callback (v : option nat) (c : TWSClient) : TWSClient :=
  mkClient (host c) (port c) (socket c) (connected c) (running c) v
    (order_status_callback c) (lock c) (stop_event c) (listen_thread c).
Definition set_order_status_callback_field (v : option nat) (c : TWSClient)
  : TWSClient :=
  mkClient (host c) (port c) (socket c) (connected c) (running c)
    (bar_callback c) v (lock c) (stop_event c) (listen_thread c).
Definition set_lock (v : bool) (c : TWSClient) : TWSClient :=
  mkClient (host c) (port c) (socket c) (connected c) (running c)
    (bar_callback c) (order_status_callback c) v (stop_event c)
    (listen_thread c).
Definition set_stop_event (v : bool) (c : TWSClient) : TWSClient :=
  mkClient (host c) (port c) (socket c) (connected c) (running c)
    (bar_callback c) (order_status_callback c) (lock c) v (listen_thread c).
Definition set_listen_thread (v : option nat) (c : TWSClient) : TWSClient :=
  mkClient (host c) (port c) (socket c) (connected c) (running c)
    (bar_callback c) (order_status_callback c) (lock c) (stop_event c) v.

Definition C (A : Type) : Type := M event TWSClient A.

Definition modify (f : TWSClient -> TWSClient) : C unit :=
  c <- get;; put (f c).

(** [TWSClient(host, port)] *)
Definition __init__ (host : string) (port : Z) : TWSClient :=
  mkClient host port None false false None None false false None.

(** [self.socket.send(data.encode('utf-8'))] *)
Definition socket_send (data : string) : C unit :=
  c <- get;;
  match socket c with
  | None => raise AttributeError
  | Some sk =>
      if write_fails sk then raise OSError else emit (Sent (fd sk) data)
  end.

(** [self.socket.close()] *)
Definition socket_close : C unit :=
  c <- get;;
  match socket c with
  | None => raise AttributeError
  | Some sk => put (set_socket (Some (sock_close sk)) c);; emit (Closed (fd sk))
  end.

(** [self.socket.recv(4096).decode('utf-8')], [r] being what the
    connection delivers. *)
Definition socket_recv (r : recv_result) : C string :=
  c <- get;;
  match socket c with
  | None => raise AttributeError
  | Some sk =>
      if closed sk then raise OSError
      else match r with
           | Data text => ret text
           | RecvError => raise OSError
           end
  end.

(** What [socket.socket(...)] and [connect(...)] do: a socket connected,
    a socket whose [connect] raised, or no socket at all. *)
Inductive connect_result :=
| Established (fd : nat)
| Refused (fd : nat)
| NoSocket.

Definition connect (r : connect_result) : C unit :=
  try_except
    (match r with
     | NoSocket => raise OSError
     | Refused n =>
         modify (set_socket (Some (mkSocket n false false)));;
         raise OSError
     | Established n =>
         modify (set_socket (Some (mkSocket n false false)));;
         modify (set_connected true);;
         modify (set_running true);;
         modify (set_stop_event false);;
         modify (set_listen_thread (Some n));;
         emit (ThreadStart "listen" n);;
         emit (Print "Connected")
     end)
    (fun _ => Some (emit (Print "Connection failed");;
                    modify (set_connected false);;
                    modify (set_running false))).

Definition disconnect_msg : json := JDict [("type", JStr "disconnect")].

Definition disconnect : C unit :=
  with_lock lock set_lock
    (c <- get;;
     if connected c then
       try_except
         (socket_send (json_dumps disconnect_msg +:+ nl))
         (fun _ => Some (emit (Print "Disconnect send error")));;
       socket_close;;
       modify (set_connected false);;
       modify (set_running false);;
       modify (set_stop_event true);;
       emit (Print "Disconnected from emulator")
     else emit (Print "Already disconnected")).

Definition send (msg : json) : C unit :=
  with_lock lock set_lock
    (c <- get;;
     if connected c then
       try_except
         (socket_send (json_dumps msg +:+ nl))
         (fun _ => Some (emit (Print "Send error");; disconnect))
     else ret tt).

Definition req_real_time_bars (bar_size : json) (callback : option nat) : C unit :=
  modify (set_bar_callback callback);;
  send (JDict [("type", JStr "reqRealTimeBars"); ("barSize", bar_size)]);;
  emit (Print "Requested real-time bars").

(** The order object handed to [place_order]: its two attributes and
    its identity [id(order)]. *)
Record Order := mkOrder {
  action : json;
  totalQuantity : json;
  id : Z;
}.

Definition place_order_msg (order : Order) : json :=
  JDict [("type", JStr "placeOrder");
         ("order", JDict [("action", action order);
                          ("quantity", totalQuantity order)])].

Definition place_order (order : Order) : C Z :=
  let msg := place_order_msg order in
  let order_id := id order in
  send msg;;
  let trade := mkTrade (JInt order_id) (JStr "Filled") (JFloat (Float "0.0")) in
  c <- get;;
  match order_status_callback c with
  | Some cb => emit (OrderStatusCallback cb trade)
  | None => ret tt
  end;;
  ret order_id.

Definition set_order_status_callback (callback : option nat) : C unit :=
  modify (set_order_status_callback_field callback);;
  emit (Print "Order status callback set").

(** ** The receive task *)

(** The body of [if line.strip():] after [msg = json.loads(line)]: the
    chain of tests on [msg['type']], which reads and changes nothing but
    [self]. Returns [true] when it leaves the inner loop by [break]. *)
Definition dispatch (msg : json) : C bool :=
  self <- get;;
  ty <- lift_res (subscript msg "type");;
  match is_str ty "barUpdate", bar_callback self with
  | true, Some cb =>
      t <- lift_res (subscript msg "time");;
      ts <- lift_opt ValueError (to_datetime t);;
      o <- lift_res (subscript msg "open");;
      h <- lift_res (subscript msg "high");;
      l <- lift_res (subscript msg "low");;
      c <- lift_res (subscript msg "close");;
      emit (BarCallback cb (mkBar ts o h l c) true);;
      ret false
  | _, _ =>
      match is_str ty "orderStatus", order_status_callback self with
      | true, Some cb =>
          i <- lift_res (subscript msg "orderId");;
          s <- lift_res (subscript msg "status");;
          p <- lift_res (subscript msg "avgFillPrice");;
          emit (OrderStatusCallback cb (mkTrade i s p));;
          ret false
      | _, _ =>
          if is_str ty "endOfData" then
            emit (Print "Received endOfData signal");;
            disconnect;;
            ret true
          else ret false
      end
  end.

(** The receive task's frame: [self] and the local variable [buffer]. *)
Record ListenState := mkListen {
  self : TWSClient;
  buffer : string;
}.

Definition L (A : Type) : Type := M event ListenState A.

Definition on_self {A} (m : C A) : L A :=
  zoom self (fun c st => mkListen c (buffer st)) m.

Definition set_buffer (b : string) : L unit :=
  st <- get;; put (mkListen (self st) b).

(** [while '\n' in buffer: ...]. Every turn takes at least the newline
    off the buffer, so [fuel] above the length of the buffer is never
    used up (see [drain_fuel]). *)
Fixpoint drain (fuel : nat) : L unit :=
  match fuel with
  | O => ret tt
  | S fuel' =>
      st <- get;;
      match split_nl (buffer st) with
      | None => ret tt
      | Some (line, rest) =>
          set_buffer rest;;
          if strip_nonempty line then
            msg <- lift_opt JSONDecodeError (json_loads line);;
            brk <- on_self (dispatch msg);;
            if brk then ret tt else drain fuel'
          else drain fuel'
      end
  end.

(** The body of the [try] of one turn of the outer loop. Returns [true]
    when it leaves the outer loop by [break]. *)
Definition listen_body (r : recv_result) : L bool :=
  data <- on_self (socket_recv r);;
  if nonempty data then
    st <- get;;
    set_buffer (buffer st +:+ data);;
    st <- get;;
    drain (S (String.length (buffer st)));;
    ret false
  else
    emit (Print "Socket closed by emulator");;
    on_self disconnect;;
    ret true.

Definition listen_except (e : exn) : option (L bool) :=
  match e with
  | JSONDecodeError => Some (emit (Print "Client JSON error");; ret false)
  | _ => Some (emit (Print "Client listen error");;
               on_self disconnect;;
               ret true)
  end.

(** [while self.running: try: ... except ...]. When the connection has
    delivered all of [reads], the task waits in [recv]. *)
Fixpoint listen_loop (reads : list recv_result) : L unit :=
  st <- get;;
  if running (self st) then
    match reads with
    | [] => block OnRecv
    | r :: reads' =>
        brk <- try_except (listen_body r) listen_except;;
        if brk then ret tt else listen_loop reads'
    end
  else ret tt.

Definition listen (reads : list recv_result) : C unit :=
  zoom (fun c => mkListen c EmptyString) (fun st _ => self st)
    (listen_loop reads;; emit (Print "Listen thread exiting")).

End WithLib.
End Client.

(* ================================================================== *)
(** * [tws_emulator.py] *)

Module Emulator.
Import Text Wire Eff.
Local Open Scope eff_scope.

Section WithLib.
Context `{PyLib}.

(** An entry of [self.orders]. *)
Record OrderRecord := mkOrderRecord {
  action : json;
  quantity : json;
  fill_price : pyfloat;
}.

(** The fields of a [TWSEmulator]. A client socket is named by its
    descriptor; [sockets] holds the socket objects that [clients] and
    the arguments of the threads refer to. *)
Record TWSEmulator := mkEmulator {
  host : string;
  port : Z;
  data_file : option string;
  data_df : option (list (Df.Series Timestamp));
  clients : list nat;
  orders : gmap Z OrderRecord;
  order_id : Z;
  running : bool;
  server_socket : option Socket;
  sockets : gmap nat Socket;
}.

Definition set_data_df (v : option (list (Df.Series Timestamp))) (s : TWSEmulator) :=
  mkEmulator (host s) (port s) (data_file s) v (clients s) (orders s)
    (order_id s) (running s) (server_socket s) (sockets s).
Definition set_clients (v : list nat) (s : TWSEmulator) :=
  mkEmulator (host s) (port s) (data_file s) (data_df s) v (orders s)
    (order_id s) (running s) (server_socket s) (sockets s).
Definition set_orders (v : gmap Z OrderRecord) (s : TWSEmulator) :=
  mkEmulator (host s) (port s) (data_file s) (data_df s) (clients s) v
    (order_id s) (running s) (server_socket s) (sockets s).
Definition set_order_id (v : Z) (s : TWSEmulator) :=
  mkEmulator (host s) (port s) (data_file s) (data_df s) (clients s) (orders s)
    v (running s) (server_socket s) (sockets s).
Definition set_running (v : bool) (s : TWSEmulator) :=
  mkEmulator (host s) (port s) (data_file s) (data_df s) (clients s) (orders s)
    (order_id s) v (server_socket s) (sockets s).
Definition set_server_socket (v : option Socket) (s : TWSEmulator) :=
  mkEmulator (host s) (port s) (data_file s) (data_df s) (clients s) (orders s)
    (order_id s) (running s) v (sockets s).
Definition set_sockets (v : gmap nat Socket) (s : TWSEmulator) :=
  mkEmulator (host s) (port s) (data_file s) (data_df s) (clients s) (orders s)
    (order_id s) (running s) (server_socket s) v.

Definition E (A : Type) : Type := M event TWSEmulator A.

Definition modify (f : TWSEmulator -> TWSEmulator) : E unit :=
  s <- get;; put (f s).

(** [TWSEmulator(host, port, data_file)] *)
Definition __init__ (host : string) (port : Z) (data_file : option string)
  : TWSEmulator :=
  mkEmulator host port data_file None [] ∅ 0 false None ∅.

(** [client_socket.send(data.encode('utf-8'))] *)
Definition socket_send (client_socket : nat) (data : string) : E unit :=
  s <- get;;
  match sockets s !! client_socket with
  | None => raise OSError
  | Some sk =>
      if write_fails sk then raise OSError else emit (Sent client_socket data)
  end.

(** [client_socket.close()] *)
Definition socket_close (client_socket : nat) : E unit :=
  s <- get;;
  match sockets s !! client_socket with
  | None => ret tt
  | Some sk =>
      put (set_sockets (<[client_socket := sock_close sk]> (sockets s)) s);;
      emit (Closed client_socket)
  end.

(** [client_socket.recv(4096).decode('utf-8')] *)
Definition socket_recv (client_socket : nat) (r : recv_result) : E string :=
  s <- get;;
  match sockets s !! client_socket with
  | None => raise OSError
  | Some sk =>
      if closed sk then raise OSError
      else match r with
           | Data text => ret text
           | RecvError => raise OSError
           end
  end.

(** [l.remove(x)]: the first occurrence goes; [None] when there is
    none ([ValueError]). *)
Fixpoint list_remove (x : nat) (l : list nat) : option (list nat) :=
  match l with
  | [] => None
  | y :: l' =>
      if Nat.eqb x y then Some l'
      else match list_remove x l' with
           | Some r => Some (y :: r)
           | None => None
           end
  end.

(** [self.clients.remove(client_socket)] *)
Definition clients_remove (client_socket : nat) : E unit :=
  s <- get;;
  match list_remove client_socket (clients s) with
  | Some l => put (set_clients l s)
  | None => raise ValueError
  end.

(** [series.iloc[i]]: a negative [i] counts from the end. *)
Definition iloc {A} (l : list A) (i : Z) : option A :=
  let n := Z.of_nat (length l) in
  if 0 <=? i then l !! Z.to_nat i
  else if - n <=? i then l !! Z.to_nat (n + i)
  else None.

Definition Qltb (x y : Q) : bool := negb (Qle_bool y x).

Definition Qabs_diff (x y : Q) : Q :=
  if Qle_bool y x then (x - y)%Q else (y - x)%Q.

Definition aggregate_to_seconds : E (list (Df.Series Timestamp)) :=
  s <- get;;
  df <- lift_opt TypeError (data_df s);;
  let mode := match freq_mode df with Some q => q | None => 60%Q end in
  if Qltb (Qabs_diff mode 5) 2 then ret df
  else if Qltb (Qabs_diff mode 60) 10 then
    let result_df := resample df in
    emit (Print "Resampled to 5s");;
    ret result_df
  else raise ValueError.

Definition send_message (client_socket : nat) (msg : json) : E unit :=
  try_except
    (socket_send client_socket (json_dumps msg +:+ nl))
    (fun _ => Some (emit (Print "Error sending message"))).

Definition bar_msg (row : Df.Series Timestamp) : json :=
  JDict [("type", JStr "barUpdate");
         ("time", JStr (isoformat (Df.date row)));
         ("open", JFloat (Df.open row));
         ("high", JFloat (Df.high row));
         ("low", JFloat (Df.low row));
         ("close", JFloat (Df.close row))].

Definition end_of_data_msg : json := JDict [("type", JStr "endOfData")].

(** [for idx, row in df.iterrows(): ...]. The task gives way to the
    other threads in [time.sleep(0.01)]: [env i] is what they do to the
    emulator during the sleep that follows bar [i]. *)
Fixpoint stream_loop (env : nat -> TWSEmulator -> TWSEmulator)
    (client_socket : nat) (i : nat) (rows : list (Df.Series Timestamp)) : E unit :=
  match rows with
  | [] => ret tt
  | row :: rows' =>
      s <- get;;
      if negb (running s) then ret tt
      else
        emit (Print "Streaming bar");;
        send_message client_socket (bar_msg row);;
        modify (env i);;
        stream_loop env client_socket (S i) rows'
  end.

Definition stream_bars (env : nat -> TWSEmulator -> TWSEmulator)
    (client_socket : nat) : E unit :=
  df <- aggregate_to_seconds;;
  stream_loop env client_socket 0 df;;
  send_message client_socket end_of_data_msg;;
  emit (Print "Finished streaming bars").

Definition status_msg (order_id : Z) (fill_price : pyfloat) : json :=
  JDict [("type", JStr "orderStatus");
         ("orderId", JInt order_id);
         ("status", JStr "Filled");
         ("avgFillPrice", JFloat fill_price)].

Definition handle_order (client_socket : nat) (msg : json) : E unit :=
  modify (fun s => set_order_id (order_id s + 1) s);;
  order <- lift_res (dict_get msg "order");;
  action <- lift_res (dict_get order "action");;
  quantity <- lift_res (dict_get order "quantity");;
  s <- get;;
  df <- lift_opt TypeError (data_df s);;
  fill_price <- lift_opt IndexError
    (iloc (map Df.close df)
          (Z.min (order_id s) (Z.of_nat (length df) - 1)));;
  let status := status_msg (order_id s) fill_price in
  put (set_orders
         (<[order_id s := mkOrderRecord action quantity fill_price]> (orders s))
         s);;
  send_message client_socket status.

(** [handle_order] as the thread of a handler runs it among the other
    threads of the emulator. The emulator has no lock: between two
    statements of the method the other threads may run. [env k] is what
    they do to the emulator after the statement of line 119 ([k] is 0),
    of line 126 (1), of lines 129 to 134 (2) and of line 135 (3). *)
Definition handle_order_among (env : nat -> TWSEmulator -> TWSEmulator)
    (client_socket : nat) (msg : json) : E unit :=
  modify (fun s => set_order_id (order_id s + 1) s);;
  modify (env 0%nat);;
  order <- lift_res (dict_get msg "order");;
  action <- lift_res (dict_get order "action");;
  quantity <- lift_res (dict_get order "quantity");;
  s <- get;;
  df <- lift_opt TypeError (data_df s);;
  fill_price <- lift_opt IndexError
    (iloc (map Df.close df)
          (Z.min (order_id s) (Z.of_nat (length df) - 1)));;
  modify (env 1%nat);;
  s <- get;;
  let status := status_msg (order_id s) fill_price in
  modify (env 2%nat);;
  s <- get;;
  put (set_orders
         (<[order_id s := mkOrderRecord action quantity fill_price]> (orders s))
         s);;
  modify (env 3%nat);;
  send_message client_socket status.

Definition process_message (client_socket : nat) (message : string) : E unit :=
  try_except
    (msg <- lift_opt JSONDecodeError (json_loads message);;
     msg_type <- lift_res (dict_get msg "type");;
     if is_str msg_type "reqRealTimeBars" then
       emit (ThreadStart "stream_bars" client_socket)
     else if is_str msg_type "placeOrder" then
       handle_order client_socket msg
     else if is_str msg_type "disconnect" then
       clients_remove client_socket;;
       socket_close client_socket
     else ret tt)
    (fun e => match e with
              | JSONDecodeError => Some (emit (Print "Invalid message"))
              | _ => None
              end).

(** The body of the [try] of one turn of [handle_client]. Returns
    [true] when it leaves the loop by [break]. *)
Definition handle_client_body (client_socket : nat) (r : recv_result) : E bool :=
  data <- socket_recv client_socket r;;
  if nonempty data then
    process_message client_socket data;;
    ret false
  else
    clients_remove client_socket;;
    socket_close client_socket;;
    ret true.

(** [while self.running: try: ... except Exception: ... break]. When
    the connection has delivered all of [reads], the handler waits in
    [recv]. *)
Fixpoint handle_client (client_socket : nat) (reads : list recv_result) : E unit :=
  s <- get;;
  if running s then
    match reads with
    | [] => block OnRecv
    | r :: reads' =>
        brk <- try_except (handle_client_body client_socket r)
                 (fun _ => Some (emit (Print "Error handling client");; ret true));;
        if brk then ret tt else handle_client client_socket reads'
    end
  else ret tt.

(** [for client in self.clients: client.close()] *)
Fixpoint close_all (cs : list nat) : E unit :=
  match cs with
  | [] => ret tt
  | c :: cs' => socket_close c;; close_all cs'
  end.

Definition stop : E unit :=
  modify (set_running false);;
  s <- get;;
  match server_socket s with
  | Some sk =>
      put (set_server_socket (Some (sock_close sk)) s);;
      emit (Closed (fd sk))
  | None => ret tt
  end;;
  s <- get;;
  close_all (clients s);;
  emit (Print "TWS Emulator stopped").

End WithLib.
End Emulator.

(* ================================================================== *)
(** * A reference library

    An instance of [PyLib] on which the programs can be run: the JSON
    text that [json.dumps] writes with its default settings, and the
    decoding of JSON text by [json.loads] (objects, arrays, strings with
    their escapes below code point 256, numbers, the literals). The
    general theorems hold of every instance; this one evaluates the
    programs on concrete connections. *)

Module Ref.
Import Text.

Definition isc (c d : ascii) : bool := Ascii.eqb c d.

Definition is_ws (c : ascii) : bool :=
  let n := code c in ((n =? 32) || (n =? 9) || (n =? 10) || (n =? 13))%nat.

Fixpoint skip_ws (s : string) : string :=
  match s with
  | String c s' => if is_ws c then skip_ws s' else s
  | EmptyString => s
  end.

Definition is_digit (c : ascii) : bool :=
  let n := code c in ((48 <=? n) && (n <=? 57))%nat.

Fixpoint span_digits (s : string) : string * string :=
  match s with
  | String c s' =>
      if is_digit c then let (ds, r) := span_digits s' in (String c ds, r)
      else (EmptyString, s)
  | EmptyString => (EmptyString, s)
  end.

Fixpoint digits_to_Z (acc : Z) (s : string) : Z :=
  match s with
  | String c s' => digits_to_Z (10 * acc + Z.of_nat (code c - 48)) s'
  | EmptyString => acc
  end.

Definition hex_val (c : ascii) : option nat :=
  let n := code c in
  if ((48 <=? n) && (n <=? 57))%nat then Some (n - 48)%nat
  else if ((97 <=? n) && (n <=? 102))%nat then Some (n - 87)%nat
  else if ((65 <=? n) && (n <=? 70))%nat then Some (n - 55)%nat
  else None.

Definition hex4 (a b c d : ascii) : option nat :=
  match hex_val a, hex_val b, hex_val c, hex_val d with
  | Some x, Some y, Some z, Some w => Some (((x * 16 + y) * 16 + z) * 16 + w)%nat
  | _, _, _, _ => None
  end.

Definition unescape (e : ascii) : option ascii :=
  if isc e QUOTE then Some QUOTE
  else if isc e BACKSLASH then Some BACKSLASH
  else if isc e "/" then Some "/"%char
  else if isc e "b" then Some "008"%char
  else if isc e "f" then Some "012"%char
  else if isc e "n" then Some "010"%char
  else if isc e "r" then Some "013"%char
  else if isc e "t" then Some "009"%char
  else None.

Definition consS (c : ascii) (r : option (string * string)) :=
  match r with
  | Some (str, rest) => Some (String c str, rest)
  | None => None
  end.

(** The text of a string after its opening quote, and what follows the
    closing quote. *)
Fixpoint scan_string (s : string) : option (string * string) :=
  match s with
  | EmptyString => None
  | String c s' =>
      if isc c QUOTE then Some (EmptyString, s')
      else if isc c BACKSLASH then
        match s' with
        | EmptyString => None
        | String e s'' =>
            if isc e "u" then
              match s'' with
              | String h1 (String h2 (String h3 (String h4 s5))) =>
                  match hex4 h1 h2 h3 h4 with
                  | Some n =>
                      if (n <? 256)%nat then consS (ascii_of_nat n) (scan_string s5)
                      else None
                  | None => None
                  end
              | _ => None
              end
            else
              match unescape e with
              | Some ch => consS ch (scan_string s'')
              | None => None
              end
        end
      else if (code c <? 32)%nat then None
      else consS c (scan_string s')
  end.

Definition scan_number (s : string) : option (json * string) :=
  let '(neg, s1) :=
    match s with
    | String c s' => if isc c "-" then (true, s') else (false, s)
    | EmptyString => (false, s)
    end in
  match s1 with
  | String c s2 =>
      if is_digit c then
        let '(int_part, s3) :=
          if isc c "0" then (String c EmptyString, s2)
          else let (ds, r) := span_digits s2 in (String c ds, r) in
        let '(frac, s4) :=
          match s3 with
          | String d r =>
              if isc d "." then
                let (fs, r') := span_digits r in
                if nonempty fs then (String d fs, r') else (EmptyString, s3)
              else (EmptyString, s3)
          | EmptyString => (EmptyString, s3)
          end in
        let '(exp, s5) :=
          match s4 with
          | String e r =>
              if isc e "e" || isc e "E" then
                let '(sg, r1) :=
                  match r with
                  | String g r' =>
                      if isc g "+" || isc g "-" then (String g EmptyString, r')
                      else (EmptyString, r)
                  | EmptyString => (EmptyString, r)
                  end in
                let (es, r2) := span_digits r1 in
                if nonempty es then (String e (sg +:+ es), r2)
                else (EmptyString, s4)
              else (EmptyString, s4)
          | EmptyString => (EmptyString, s4)
          end in
        if nonempty frac || nonempty exp then
          Some (JFloat (Float ((if neg then "-" else EmptyString)
                               +:+ int_part +:+ frac +:+ exp)), s5)
        else
          Some (JInt (if neg then - digits_to_Z 0 int_part
                      else digits_to_Z 0 int_part), s5)
      else None
  | EmptyString => None
  end.

Definition scan_literal (s : string) : option (json * string) :=
  match strip_prefix "null" s with
  | Some r => Some (JNull, r)
  | None =>
  match strip_prefix "true" s with
  | Some r => Some (JBool true, r)
  | None =>
  match strip_prefix "false" s with
  | Some r => Some (JBool false, r)
  | None =>
  match scan_number s with
  | Some x => Some x
  | None =>
  match strip_prefix "NaN" s with
  | Some r => Some (JFloat (Float "NaN"), r)
  | None =>
  match strip_prefix "Infinity" s with
  | Some r => Some (JFloat (Float "Infinity"), r)
  | None =>
  match strip_prefix "-Infinity" s with
  | Some r => Some (JFloat (Float "-Infinity"), r)
  | None => None
  end end end end end end end.

(** One value at the head of the text, and the text after it. [fuel]
    bounds the nesting and the number of members; the length of the
    text is enough, as each call has read a character. *)
Fixpoint parse_value (fuel : nat) (s : string) : option (json * string) :=
  match fuel with
  | O => None
  | S fuel' =>
      match s with
      | EmptyString => None
      | String c s' =>
          if isc c QUOTE then
            match scan_string s' with
            | Some (str, r) => Some (JStr str, r)
            | None => None
            end
          else if isc c "{" then
            match skip_ws s' with
            | EmptyString => None
            | String c1 r1 =>
                if isc c1 "}" then Some (JDict [], r1)
                else match parse_pairs fuel' (String c1 r1) [] with
                     | Some (kvs, r) => Some (JDict kvs, r)
                     | None => None
                     end
            end
          else if isc c "[" then
            match skip_ws s' with
            | EmptyString => None
            | String c1 r1 =>
                if isc c1 "]" then Some (JList [], r1)
                else match parse_items fuel' (String c1 r1) [] with
                     | Some (xs, r) => Some (JList xs, r)
                     | None => None
                     end
            end
          else scan_literal s
      end
  end
with parse_pairs (fuel : nat) (s : string) (acc : list (string * json))
  : option (list (string * json) * string) :=
  match fuel with
  | O => None
  | S fuel' =>
      match s with
      | EmptyString => None
      | String c s' =>
          if isc c QUOTE then
            match scan_string s' with
            | None => None
            | Some (key, r) =>
                match skip_ws r with
                | EmptyString => None
                | String c2 r2 =>
                    if isc c2 ":" then
                      match parse_value fuel' (skip_ws r2) with
                      | None => None
                      | Some (v, r3) =>
                          let acc' := Dict.set key v acc in
                          match skip_ws r3 with
                          | EmptyString => None
                          | String c4 r4 =>
                              if isc c4 "}" then Some (acc', r4)
                              else if isc c4 "," then
                                parse_pairs fuel' (skip_ws r4) acc'
                              else None
                          end
                      end
                    else None
                end
            end
          else None
      end
  end
with parse_items (fuel : nat) (s : string) (acc : list json)
  : option (list json * string) :=
  match fuel with
  | O => None
  | S fuel' =>
      match parse_value fuel' s with
      | None => None
      | Some (v, r) =>
          match skip_ws r with
          | EmptyString => None
          | String c r' =>
              if isc c "]" then Some (acc ++ [v], r')
              else if isc c "," then parse_items fuel' (skip_ws r') (acc ++ [v])
              else None
          end
      end
  end.

(** [json.loads(s)]: one value, white space around it, nothing else. *)
Definition loads (s : string) : option json :=
  match parse_value (S (String.length s)) (skip_ws s) with
  | Some (v, r) =>
      match skip_ws r with
      | EmptyString => Some v
      | String _ _ => None
      end
  | None => None
  end.

Definition hex_digit (n : nat) : ascii :=
  ascii_of_nat (if (n <? 10)%nat then 48 + n else 87 + n).

Definition escape_char (c : ascii) : string :=
  let n := code c in
  let esc (e : ascii) := String BACKSLASH (String e EmptyString) in
  if isc c QUOTE then esc QUOTE
  else if isc c BACKSLASH then esc BACKSLASH
  else if (n =? 10)%nat then esc "n"%char
  else if (n =? 13)%nat then esc "r"%char
  else if (n =? 9)%nat then esc "t"%char
  else if (n =? 8)%nat then esc "b"%char
  else if (n =? 12)%nat then esc "f"%char
  else if ((32 <=? n) && (n <=? 126))%nat then String c EmptyString
  else String BACKSLASH
         ("u00" +:+ String (hex_digit (n / 16)) (String (hex_digit (n mod 16))
                                                   EmptyString)).

Fixpoint escape (s : string) : string :=
  match s with
  | EmptyString => EmptyString
  | String c s' => escape_char c +:+ escape s'
  end.

Definition quoted (s : string) : string :=
  String QUOTE (escape s +:+ String QUOTE EmptyString).

(** [json.dumps(j)] with the default separators. *)
Fixpoint dumps (j : json) : string :=
  match j with
  | JNull => "null"
  | JBool true => "true"
  | JBool false => "false"
  | JInt n => NilZero.string_of_int (Z.to_int n)
  | JFloat x => repr x
  | JStr s => quoted s
  | JList xs =>
      "[" +:+
      (fix items (xs : list json) : string :=
         match xs with
         | [] => EmptyString
         | x :: xs' =>
             match xs' with
             | [] => dumps x
             | _ :: _ => dumps x +:+ ", " +:+ items xs'
             end
         end) xs +:+ "]"
  | JDict kvs =>
      "{" +:+
      (fix members (kvs : list (string * json)) : string :=
         match kvs with
         | [] => EmptyString
         | (k, v) :: kvs' =>
             match kvs' with
             | [] => quoted k +:+ ": " +:+ dumps v
             | _ :: _ => quoted k +:+ ": " +:+ dumps v +:+ ", " +:+ members kvs'
             end
         end) kvs +:+ "}"
  end.

(** A [Timestamp] is kept as its ISO-8601 text, which [to_datetime]
    takes from a JSON string; the frame is taken to be at five seconds
    already, so that [aggregate_to_seconds] returns it as it is. *)
#[export] Instance lib : PyLib := {|
  Timestamp := string;
  json_loads := loads;
  json_dumps := dumps;
  to_datetime := fun j => match j with JStr s => Some s | _ => None end;
  isoformat := fun t => t;
  freq_mode := fun _ => Some 5%Q;
  resample := fun df => df;
|}.

End Ref.

(* ================================================================== *)
(** * Vocabulary of the statements *)

Module Spec.
Import Text Wire Eff Client.

Section WithLib.
Context `{PyLib}.

(** A client in service: connected and running, its lock free, its
    socket open. *)
Definition live (c : TWSClient) : bool :=
  connected c && running c && negb (lock c) &&
  match socket c with
  | Some sk => negb (closed sk)
  | None => false
  end.

(** The client a [disconnect] leaves behind. *)
Definition disconnected (sk : Socket) (c : TWSClient) : TWSClient :=
  set_stop_event true
    (set_running false
       (set_connected false (set_socket (Some (sock_close sk)) c))).

(** What the best-effort notice of [disconnect] does. *)
Definition notice_log (sk : Socket) : list event :=
  if write_fails sk then [Print "Disconnect send error"]
  else [Sent (fd sk) (json_dumps disconnect_msg +:+ nl)].

(** The effects of a [disconnect] that closes the connection. *)
Definition disconnect_log (sk : Socket) : list event :=
  notice_log sk ++ [Closed (fd sk); Print "Disconnected from emulator"].

(** The message is an [endOfData]. *)
Definition is_end (msg : json) : bool :=
  match subscript msg "type" with
  | inr ty => is_str ty "endOfData"
  | inl _ => false
  end.

(** The complete frames of a text, without their newlines, and the
    partial frame after the last newline. *)
Fixpoint lines (s : string) : list string * string :=
  match s with
  | EmptyString => ([], EmptyString)
  | String c s' =>
      let (ls, r) := lines s' in
      if Ascii.eqb c NL then (EmptyString :: ls, r)
      else match ls with
           | [] => ([], String c r)
           | l :: ls' => (String c l :: ls', r)
           end
  end.

(** The receiver skips the line or [json.loads] takes it. *)
Definition decodes (line : string) : bool :=
  negb (strip_nonempty line) ||
  match json_loads line with Some _ => true | None => false end.

(** Every complete frame of the text decodes. *)
Definition frames_decodable (s : string) : bool :=
  forallb decodes (fst (lines s)).

(** The messages of the complete frames of a text, in the order of
    the frames: what a receiver that buffers has to decode from the
    stream, whatever the reads. A blank line is no frame. *)
Definition messages (s : string) : list json :=
  omap (fun line => if strip_nonempty line then json_loads line else None)
    (fst (lines s)).

(** The messages go to [dispatch] one after another, until one of them
    ends the task. Returns [true] when one did. *)
Fixpoint dispatch_all (msgs : list json) : C bool :=
  match msgs with
  | [] => ret false
  | msg :: msgs' =>
      (brk <- dispatch msg;;
       if brk then ret true else dispatch_all msgs')%eff
  end.

(** What the receive task has to do with the messages of the stream
    that it has read so far: dispatch them in order; when one of them
    has ended the task, or when dispatching one has raised and the task
    has disconnected, the task is over; else it waits for more bytes. *)
Definition deliver (msgs : list json) : C unit :=
  (brk <- try_except (dispatch_all msgs)
            (fun _ => Some (emit (Print "Client listen error");;
                            disconnect;;
                            ret true));;
   if brk then emit (Print "Listen thread exiting") else block OnRecv)%eff.

(** The read brings bytes and ends where a character ends: its bytes
    decode on their own. *)
Definition whole_characters (r : list Byte.byte) : bool :=
  match r, Utf8.decode r with
  | _ :: _, Some _ => true
  | _, _ => false
  end.

(** A result with more effects before it. *)
Definition prepend {S A} (l0 : list event) (r : list event * outcome S A)
  : list event * outcome S A :=
  (l0 ++ fst r, snd r).

Definition map_state {S T A} (f : S -> T) (o : outcome S A) : outcome T A :=
  match o with
  | Ok a s => Ok a (f s)
  | Exc e s => Exc e (f s)
  | Blocked w s => Blocked w (f s)
  end.

(** The result without its value. *)
Definition void {S A} (r : list event * outcome S A)
  : list event * outcome S unit :=
  (fst r,
   match snd r with
   | Ok _ s => Ok tt s
   | Exc e s => Exc e s
   | Blocked w s => Blocked w s
   end).

(** What is left of a result of the receive task when its local
    variable goes. *)
Definition forget {A} (r : list event * outcome ListenState A)
  : list event * outcome TWSClient A :=
  (fst r, map_state self (snd r)).

(** The result of a computation on [self], back in the frame whose
    buffer is [b]. *)
Definition retag {A} (b : string) (r : list event * outcome TWSClient A)
  : list event * outcome ListenState A :=
  (fst r, map_state (fun c => mkListen c b) (snd r)).

(** The frame after [d] has arrived. *)
Definition extend (d : string) (st : ListenState) : ListenState :=
  mkListen (self st) (buffer st +:+ d).

(** What the inner loop does on a buffer that goes on with [d], from
    what it does on the buffer alone: when it ran out of frames it goes
    on from the partial frame, and when it stopped it stays stopped. *)
Definition resume (d : string) (r : list event * outcome ListenState unit)
  : list event * outcome ListenState unit :=
  match r with
  | (l, Ok _ st1) =>
      if running (self st1) then
        prepend l (drain (S (String.length (buffer st1 +:+ d))) (extend d st1))
      else (l, Ok tt (extend d st1))
  | (l, Exc e st1) => (l, Exc e (extend d st1))
  | (l, Blocked w st1) => (l, Blocked w (extend d st1))
  end.

(** One turn of the outer loop after its inner loop, and the turns for
    the [reads] that follow. *)
Definition after_drain (reads : list recv_result)
    (r : list event * outcome ListenState unit)
  : list event * outcome ListenState unit :=
  match r with
  | (l, Ok _ st1) => prepend l (listen_loop reads st1)
  | (l, Exc e st1) =>
      match e with
      | JSONDecodeError =>
          prepend (l ++ [Print "Client JSON error"]) (listen_loop reads st1)
      | _ =>
          prepend (l ++ [Print "Client listen error"])
            ((on_self disconnect;; ret tt)%eff st1)
      end
  | (l, Blocked w st1) => (l, Blocked w st1)
  end.

End WithLib.
End Spec.

Module SpecE.
Import Text Wire Eff Emulator.

Section WithLib.
Context `{PyLib}.

(** What [send_message] does: the frame goes out, or the failure of the
    write is printed. *)
Definition reply_log (s : TWSEmulator) (client_socket : nat) (msg : json)
  : list event :=
  match sockets s !! client_socket with
  | Some sk =>
      if write_fails sk then [Print "Error sending message"]
      else [Sent client_socket (json_dumps msg +:+ nl)]
  | None => [Print "Error sending message"]
  end.

(** [x] brought into the range from [lo] to [hi]. *)
Definition clamp (lo hi x : Z) : Z := Z.max lo (Z.min x hi).

(** The order requests in the order in which [handle_order] is entered
    for them, each call on the emulator that the call before it has
    left, each among the other threads: [env i k] is what these do after
    statement [k] of the call for request [i]. For each request, the
    effects of its call and how the call ends. *)
Fixpoint orders_in_turn (env : nat -> nat -> TWSEmulator -> TWSEmulator)
    (i : nat) (reqs : list (nat * json)) (s : TWSEmulator)
  : list (list event * outcome TWSEmulator unit) :=
  match reqs with
  | [] => []
  | (client_socket, msg) :: reqs' =>
      let r := handle_order_among (env i) client_socket msg s in
      r :: orders_in_turn env (S i) reqs' (state_of (snd r))
  end.

(** While a handler is inside [handle_order] the other threads are
    not: they leave the counter, the orders and the data as they are.
    They also leave the sockets [fds] as they are. *)
Definition undisturbed (env : nat -> TWSEmulator -> TWSEmulator)
    (fds : list nat) : Prop :=
  forall k s,
    order_id (env k s) = order_id s /\ orders (env k s) = orders s /\
    data_df (env k s) = data_df s /\
    forall fd, fd ∈ fds -> sockets (env k s) !! fd = sockets s !! fd.

(** The handlers are inside [handle_order] one at a time. *)
Definition one_at_a_time (env : nat -> nat -> TWSEmulator -> TWSEmulator)
    (fds : list nat) : Prop :=
  forall i, undisturbed (env i) fds.

(** [order.get(k)] for an [order] that is a dict. *)
Definition field (k : string) (order : list (string * json)) : json :=
  match Dict.lookup k order with
  | Some v => v
  | None => JNull
  end.

(** The value is one of the six types of the protocol. *)
Definition known_type (ty : json) : bool :=
  is_str ty "barUpdate" || is_str ty "orderStatus" || is_str ty "endOfData"
  || is_str ty "reqRealTimeBars" || is_str ty "placeOrder"
  || is_str ty "disconnect".

(** The text that the log writes to the socket. *)
Fixpoint wire (client_socket : nat) (log : list event) : string :=
  match log with
  | [] => EmptyString
  | Sent n data :: log' =>
      if Nat.eqb n client_socket then data +:+ wire client_socket log'
      else wire client_socket log'
  | _ :: log' => wire client_socket log'
  end.

(** The [Bar] that the client builds from the frame of a row. *)
Definition bar_of (row : Df.Series Timestamp) : Bar :=
  mkBar (Df.date row) (JFloat (Df.open row)) (JFloat (Df.high row))
    (JFloat (Df.low row)) (JFloat (Df.close row)).

(** The frame of the message goes through the wire: [json.dumps] writes
    it on one line that is not blank, and [json.loads] gives the message
    back. *)
Definition travels (msg : json) : Prop :=
  json_loads (json_dumps msg) = Some msg /\
  has_nl (json_dumps msg) = false /\
  strip_nonempty (json_dumps msg) = true.

(** The other threads leave the flag and the socket of the stream as
    they are. *)
Definition keeps (env : nat -> TWSEmulator -> TWSEmulator)
    (client_socket : nat) : Prop :=
  forall i s, running (env i s) = running s /\
              sockets (env i s) !! client_socket = sockets s !! client_socket.

Definition bar_frames (rows : list (Df.Series Timestamp)) : string :=
  join (map (fun row => json_dumps (bar_msg row) +:+ nl) rows).

Definition bar_log (client_socket : nat) (rows : list (Df.Series Timestamp))
  : list event :=
  concat (map (fun row => [Print "Streaming bar";
                           Sent client_socket (json_dumps (bar_msg row) +:+ nl)])
            rows).

End WithLib.
End SpecE.

(* ================================================================== *)
(** * A connection to run the programs on *)

Module Demo.
Import Text.

#[local] Existing Instance Ref.lib.

(** The Bar Source of the scenarios of the specification: three bars
    that close at 100, 101 and 102. *)
Definition bars : list (Df.Series string) :=
  [Df.mkSeries "2024-01-02T09:30:00-05:00"
     (Float "100.0") (Float "100.5") (Float "99.5") (Float "100.0");
   Df.mkSeries "2024-01-02T09:30:05-05:00"
     (Float "100.0") (Float "101.5") (Float "100.0") (Float "101.0");
   Df.mkSeries "2024-01-02T09:30:10-05:00"
     (Float "101.0") (Float "102.5") (Float "101.0") (Float "102.0")].

(** An emulator after [load_data] and [start_server] that has accepted
    one connection, on socket 7. *)
Definition emulator : Emulator.TWSEmulator :=
  Emulator.mkEmulator "127.0.0.1" 7498 (Some "bars.pkl") (Some bars) [7%nat] ∅
    0 true (Some (mkSocket 3 false false)) {[7%nat := mkSocket 7 false false]}.

(** A client after [connect], on socket 5, with callbacks 1 and 2
    registered for bars and for order statuses. *)
Definition client : Client.TWSClient :=
  Client.mkClient "127.0.0.1" 7498 (Some (mkSocket 5 false false)) true true
    (Some 1%nat) (Some 2%nat) false false (Some 5%nat).

(** The same client when the connection is gone. *)
Definition client_broken : Client.TWSClient :=
  Client.set_socket (Some (mkSocket 5 false true)) client.

Definition buy : Client.Order :=
  Client.mkOrder (JStr "BUY") (JInt 10) 140234.

Definition sell : Client.Order :=
  Client.mkOrder (JStr "SELL") (JInt 25) 140610.

(** The order requests of a BUY of 10 and of a SELL of 25, as the
    emulator decodes them. *)
Definition buy_request : json :=
  JDict [("type", JStr "placeOrder");
         ("order", JDict [("action", JStr "BUY"); ("quantity", JInt 10)])].
Definition sell_request : json :=
  JDict [("type", JStr "placeOrder");
         ("order", JDict [("action", JStr "SELL"); ("quantity", JInt 25)])].

(** The emulator when it has accepted a second connection, on socket
    8: each of the two has a handler thread of its own. *)
Definition two_connections : Emulator.TWSEmulator :=
  Emulator.mkEmulator "127.0.0.1" 7498 (Some "bars.pkl") (Some bars)
    [7%nat; 8%nat] ∅ 0 true (Some (mkSocket 3 false false))
    {[7%nat := mkSocket 7 false false; 8%nat := mkSocket 8 false false]}.

(** The other threads while orders are handled: during the call for
    the second request the accepting thread registers one more
    connection, on socket 9. *)
Definition accepting (i k : nat) (s : Emulator.TWSEmulator)
  : Emulator.TWSEmulator :=
  if Nat.eqb i 1 && Nat.eqb k 2
  then Emulator.set_clients (Emulator.clients s ++ [9%nat]) s
  else s.

(** The frame of the order request as [send] writes it. *)
Definition order_frame : string :=
  json_dumps (Client.place_order_msg buy) +:+ nl.

(** The two halves of that frame, as two reads deliver them. *)
Definition order_head : string := String.substring 0 20 order_frame.
Definition order_tail : string :=
  String.substring 20 (String.length order_frame - 20) order_frame.

(** A text between double quotes, as it is. *)
Definition quote (s : string) : string :=
  String QUOTE (s +:+ String QUOTE EmptyString).

(** The frame of an order status from a server that writes its text as
    it is and not in escapes: the status has the letter of code point
    233 twice, which is two bytes on the wire each time. *)
Definition accent : string :=
  "ex" +:+ String "233"%char ("cut" +:+ String "233"%char EmptyString).
Definition accent_frame : string :=
  "{" +:+ quote "type" +:+ ": " +:+ quote "orderStatus" +:+ ", "
  +:+ quote "orderId" +:+ ": 7, " +:+ quote "status" +:+ ": " +:+ quote accent
  +:+ ", " +:+ quote "avgFillPrice" +:+ ": 101.0}" +:+ nl.

(** A stream from the server to the client: that frame, the frame of
    the first bar, and the first thirty characters of a third frame. *)
Definition delivery : string :=
  accent_frame
  +:+ (json_dumps
         (JDict [("type", JStr "barUpdate");
                 ("time", JStr "2024-01-02T09:30:00-05:00");
                 ("open", JFloat (Float "100.0"));
                 ("high", JFloat (Float "100.5"));
                 ("low", JFloat (Float "99.5"));
                 ("close", JFloat (Float "100.0"))]) +:+ nl)
  +:+ String.substring 0 30 (json_dumps (JDict [("type", JStr "endOfData")])).

(** The bytes of the stream, and the stream in three reads that end
    inside frames, after 40 and after 140 bytes. *)
Definition delivery_bytes : list Byte.byte := Utf8.encode delivery.
Definition delivery_reads : list (list Byte.byte) :=
  [take 40 delivery_bytes; take 100 (drop 40 delivery_bytes);
   drop 140 delivery_bytes].

(** A well-formed message without [type], and an order request without
    [order]. *)
Definition no_type_frame : string :=
  json_dumps (JDict [("foo", JInt 1)]) +:+ nl.
Definition no_order_frame : string :=
  json_dumps (JDict [("type", JStr "placeOrder")]) +:+ nl.

(** A well-formed message of a type that the protocol does not have. *)
Definition ping : list (string * json) := [("type", JStr "ping")].

(** The other threads between two bars: [stop] has cleared the flag
    during the sleep after the first bar and has not closed the client
    sockets yet. *)
Definition flag_cleared (i : nat) (s : Emulator.TWSEmulator)
  : Emulator.TWSEmulator :=
  if Nat.eqb i 0 then Emulator.set_running false s else s.

(** [stop] has run to its end during the sleep after the first bar. *)
Definition stopped (i : nat) (s : Emulator.TWSEmulator)
  : Emulator.TWSEmulator :=
  if Nat.eqb i 0 then Eff.state_of (snd (Emulator.stop s)) else s.

(** The other threads leave the emulator alone. *)
Definition quiet (i : nat) (s : Emulator.TWSEmulator) : Emulator.TWSEmulator :=
  s.

(** What the streaming task then writes to socket 7, and that text as
    three reads that end inside frames. *)
Definition stream_text : string :=
  SpecE.wire 7 (fst (Emulator.stream_bars quiet 7 emulator)).
Definition stream_reads : list string :=
  [String.substring 0 50 stream_text;
   String.substring 50 200 stream_text;
   String.substring 250 (String.length stream_text - 250) stream_text].

End Demo.

(* ================================================================== *)
(** * The rest of the two classes *)

(** How a thread that waits for the other threads ends: with the
    outcome of what it did, or still waiting, in the state [s], when
    the other threads have done all that is told of them. *)
Inductive waited (S A : Type) :=
| Done (o : Eff.outcome S A)
| Waiting (s : S).
Arguments Done {S A}.
Arguments Waiting {S A}.

(** [TWSClient.run], the blocking wait of the owner of the client. *)
Module ClientRest.
Import Text Wire Eff Client.
Local Open Scope eff_scope.

Section WithLib.
Context `{PyLib}.

(** [while self.running: self.stop_event.wait(timeout=1.0) ...]. The
    owner gives way to the other threads in [wait]: [waits] is what
    they do to the client during the successive waits. The owner goes
    on waiting when the client still runs after the last of them. *)
Fixpoint wait_loop (waits : list (TWSClient -> TWSClient)) (c : TWSClient)
  : waited TWSClient unit :=
  if running c then
    match waits with
    | [] => Waiting c
    | w :: waits' =>
        let c' := w c in
        if negb (running c') then Done (Ok tt c') else wait_loop waits' c'
    end
  else Done (Ok tt c).

(** What follows the loop. [alive] and [alive_after] are what
    [is_alive()] answers before and after the [join], and [during_join]
    is what the other threads do to the client while the owner waits in
    the [join]. *)
Definition run_end (alive alive_after : bool)
    (during_join : TWSClient -> TWSClient) : C unit :=
  c <- get;;
  match listen_thread c with
  | Some _ =>
      if alive then
        modify during_join;;
        if alive_after then
          emit (Print "Warning: Listen thread did not exit cleanly")
        else ret tt
      else ret tt
  | None => ret tt
  end;;
  emit (Print "Client stopped");;
  with_lock lock set_lock
    (c <- get;; if connected c then disconnect else ret tt).

Definition run (waits : list (TWSClient -> TWSClient))
    (alive alive_after : bool) (during_join : TWSClient -> TWSClient)
    (c : TWSClient) : list event * waited TWSClient unit :=
  if negb (connected c) then
    ([Print "Cannot run: Not connected"], Done (Ok tt c))
  else
    match wait_loop waits c with
    | Done o =>
        let (l, o') := run_end alive alive_after during_join (state_of o) in
        (Print "Client running..." :: l, Done o')
    | Waiting c1 => ([Print "Client running..."], Waiting c1)
    end.

End WithLib.
End ClientRest.

(** [TWSEmulator.start_server] and [TWSEmulator.accept_clients]. *)
Module EmulatorRest.
Import Text Wire Eff Emulator.
Local Open Scope eff_scope.

Section WithLib.
Context `{PyLib}.

(** What [socket.socket(...)], [bind] and [listen] do: a listening
    socket, a socket on which [bind] or [listen] raised, or no socket. *)
Inductive bind_result :=
| Listening (fd : nat)
| BindFailed (fd : nat)
| NoListener.

(** Nothing catches what the socket calls raise. *)
Definition start_server (r : bind_result) : E unit :=
  match r with
  | NoListener => raise OSError
  | BindFailed n =>
      modify (set_server_socket (Some (mkSocket n false false)));;
      raise OSError
  | Listening n =>
      modify (set_server_socket (Some (mkSocket n false false)));;
      emit (Print "TWS Emulator listening");;
      modify (set_running true);;
      emit (ThreadStart "accept_clients" n)
  end.

(** What one [accept()] does: a connection, on a new socket, or an
    exception. *)
Inductive accept_result :=
| Accepted (fd : nat)
| AcceptError.

(** [self.server_socket.accept()] *)
Definition server_accept (a : accept_result) : E nat :=
  s <- get;;
  match server_socket s with
  | None => raise AttributeError
  | Some sk =>
      if closed sk then raise OSError
      else match a with
           | Accepted n =>
               put (set_sockets (<[n := mkSocket n false false]> (sockets s)) s);;
               ret n
           | AcceptError => raise OSError
           end
  end.

(** The body of the [try] of one turn of [accept_clients]. *)
Definition accept_body (a : accept_result) : E unit :=
  client_socket <- server_accept a;;
  emit (Print "Client connected");;
  s <- get;;
  put (set_clients (clients s ++ [client_socket]) s);;
  emit (ThreadStart "handle_client" client_socket).

Definition accept_except (e : exn) : option (E unit) :=
  Some (s <- get;;
        if running s then emit (Print "Error accepting client") else ret tt).

(** [while self.running: try: ... except Exception: ...]. The thread
    gives way to the other threads while it waits in [accept]: [env i]
    is what they do to the emulator during the wait of turn [i]. The
    thread goes on waiting in [accept] when the emulator still runs
    after the last of [accepts]. *)
Fixpoint accept_clients (env : nat -> TWSEmulator -> TWSEmulator) (i : nat)
    (accepts : list accept_result) (s : TWSEmulator)
  : list event * waited TWSEmulator unit :=
  if running s then
    match accepts with
    | [] => ([], Waiting s)
    | a :: accepts' =>
        match try_except (modify (env i);; accept_body a) accept_except s with
        | (l, Ok _ s') =>
            let (l', o) := accept_clients env (S i) accepts' s' in (l ++ l', o)
        | (l, Exc e s') => (l, Done (Exc e s'))
        | (l, Blocked w s') => (l, Done (Blocked w s'))
        end
    end
  else ([], Done (Ok tt s)).

End WithLib.
End EmulatorRest.

(* ================================================================== *)
(** * Vocabulary of the further statements *)

Module SpecX.
Import Text Wire Eff.

Section WithLib.
Context `{PyLib}.

(** At the state [s], every effect of the computation satisfies [Pev];
    the state it returns or raises with is related by [R] to [s], and
    the state it blocks in by [RB]. *)
Definition respects_at {S A : Type} (Pev : event -> Prop)
    (R RB : S -> S -> Prop) (m : M event S A) (s : S) : Prop :=
  Forall Pev (fst (m s)) /\
  match snd (m s) with
  | Ok _ s' | Exc _ s' => R s s'
  | Blocked _ s' => RB s s'
  end.

Definition respects {S A : Type} (Pev : event -> Prop) (R RB : S -> S -> Prop)
    (m : M event S A) : Prop :=
  forall s, respects_at Pev R RB m s.

Definition any_event (ev : event) : Prop := True.
Definition any_state {S : Type} (s s' : S) : Prop := True.

(** The two flags of the client have the same value. *)
Definition flags_agree (c : Client.TWSClient) : Prop :=
  Client.connected c = Client.running c.

Definition keeps_flags (c c' : Client.TWSClient) : Prop :=
  flags_agree c -> flags_agree c'.

Definition same_lock (c c' : Client.TWSClient) : Prop :=
  Client.lock c' = Client.lock c.

(** The flags go on agreeing and the lock is as it was. *)
Definition steady (c c' : Client.TWSClient) : Prop :=
  keeps_flags c c' /\ same_lock c c'.

(** The state a computation ends in, however it ends. *)
Definition final {S A : Type} (r : list event * outcome S A) : S :=
  state_of (snd r).

(** The client that the call returns or raises with has its lock as the
    client [c] had it. *)
Definition lock_kept {A : Type} (c : Client.TWSClient)
    (r : list event * outcome Client.TWSClient A) : Prop :=
  match snd r with
  | Ok _ c' | Exc _ c' => Client.lock c' = Client.lock c
  | Blocked _ _ => True
  end.

(** A relation on clients, on the frames of the receive task. *)
Definition on_frame (R : Client.TWSClient -> Client.TWSClient -> Prop)
    (st st' : Client.ListenState) : Prop :=
  R (Client.self st) (Client.self st').

(** The event is no write and no close. *)
Definition quiet_event (ev : event) : Prop :=
  match ev with
  | Sent _ _ | Closed _ => False
  | _ => True
  end.

(** The event is no socket effect on another socket than
    [client_socket]. *)
Definition on_socket (client_socket : nat) (ev : event) : Prop :=
  match ev with
  | Sent n _ | Closed n | ThreadStart _ n => n = client_socket
  | _ => True
  end.

(** What the handler of [client_socket] leaves as it is: the flag, the
    data, the listening socket, the other sockets and the other entries
    of [clients]; the order counter does not go down. *)
Definition handler_frame (client_socket : nat) (s s' : Emulator.TWSEmulator)
  : Prop :=
  Emulator.running s' = Emulator.running s /\
  Emulator.data_df s' = Emulator.data_df s /\
  Emulator.server_socket s' = Emulator.server_socket s /\
  Emulator.order_id s <= Emulator.order_id s' /\
  (forall n, n <> client_socket ->
             Emulator.sockets s' !! n = Emulator.sockets s !! n) /\
  filter (fun n => n <> client_socket) (Emulator.clients s')
  = filter (fun n => n <> client_socket) (Emulator.clients s).


(** From [s] to [s'] the order counter does not go down, the orders
    with identifiers up to the counter of [s] are as they were, and the
    identifiers that have come into use are above that counter and up
    to the counter of [s']. *)
Definition ledger_grows (s s' : Emulator.TWSEmulator) : Prop :=
  Emulator.order_id s <= Emulator.order_id s' /\
  (forall k, k <= Emulator.order_id s ->
             Emulator.orders s' !! k = Emulator.orders s !! k) /\
  (forall k, Emulator.order_id s < k -> is_Some (Emulator.orders s' !! k) ->
             is_Some (Emulator.orders s !! k) \/ k <= Emulator.order_id s').

(** What a handler does to the emulator. *)
Definition handler_step (client_socket : nat) (s s' : Emulator.TWSEmulator)
  : Prop :=
  handler_frame client_socket s s' /\ ledger_grows s s'.


(** The other threads leave the socket of the stream as it is, and
    clear the flag during the sleep that follows bar [j] and at no other
    time. *)
Definition clears_at (env : nat -> Emulator.TWSEmulator -> Emulator.TWSEmulator)
    (client_socket j : nat) : Prop :=
  forall i s,
    Emulator.sockets (env i s) !! client_socket
      = Emulator.sockets s !! client_socket /\
    Emulator.running (env i s)
      = if Nat.eqb i j then false else Emulator.running s.

(** The descriptors that the [accept] calls return. *)
Fixpoint accepted (accepts : list EmulatorRest.accept_result) : list nat :=
  match accepts with
  | [] => []
  | EmulatorRest.Accepted n :: accepts' => n :: accepted accepts'
  | EmulatorRest.AcceptError :: accepts' => accepted accepts'
  end.

(** What one turn of [accept_clients] prints and starts. *)
Definition accept_log (a : EmulatorRest.accept_result) : list event :=
  match a with
  | EmulatorRest.Accepted n =>
      [Print "Client connected"; ThreadStart "handle_client" n]
  | EmulatorRest.AcceptError => [Print "Error accepting client"]
  end.

(** The other threads leave the flag, the listening socket and
    [clients] as they are. *)
Definition leaves_listener
    (env : nat -> Emulator.TWSEmulator -> Emulator.TWSEmulator) : Prop :=
  forall i s,
    Emulator.running (env i s) = Emulator.running s /\
    Emulator.server_socket (env i s) = Emulator.server_socket s /\
    Emulator.clients (env i s) = Emulator.clients s.

End WithLib.
End SpecX.

(* ================================================================== *)
(** * Further connections to run the programs on *)

Module DemoX.
Import Text.

(** The reference library on data whose usual step is [q] seconds. A
    frame at one minute whose rows start on multiples of five seconds
    is resampled to itself: each row is alone in its bin, and the empty
    bins are dropped. *)
Definition lib_at (q : Q) : PyLib := {|
  Timestamp := string;
  json_loads := Ref.loads;
  json_dumps := Ref.dumps;
  to_datetime := fun j => match j with JStr s => Some s | _ => None end;
  isoformat := fun t => t;
  freq_mode := fun _ => Some q;
  resample := fun df => df;
|}.

(** The emulator of [Demo] on such data. *)
Definition emulator_at (q : Q) : @Emulator.TWSEmulator (lib_at q) :=
  @Emulator.mkEmulator (lib_at q) "127.0.0.1" 7498 (Some "bars.pkl")
    (Some Demo.bars) [7%nat] ∅ 0 true (Some (mkSocket 3 false false))
    {[7%nat := mkSocket 7 false false]}.

(** The other threads of such an emulator leave it alone. *)
Definition quiet_at (q : Q) (i : nat) (s : @Emulator.TWSEmulator (lib_at q))
  : @Emulator.TWSEmulator (lib_at q) := s.

(** What the receive task does to the client while the owner waits in
    [run]: nothing during the first wait, and it disconnects during the
    second. *)
Definition hangs_up : list (Client.TWSClient -> Client.TWSClient) :=
  [fun c => c;
   fun c => Client.set_stop_event true
              (Client.set_running false (Client.set_connected false c))].

(** The receive task does nothing during the [join]. *)
Definition idle (c : Client.TWSClient) : Client.TWSClient := c.

(** A client whose [running] flag alone has been cleared. *)
Definition client_halted : Client.TWSClient :=
  Client.set_running false Demo.client.

(** A request for bars and a request to disconnect, as messages. *)
Definition bars_request : json :=
  JDict [("type", JStr "reqRealTimeBars"); ("barSize", JStr "5 secs")].
Definition order_without_order : json :=
  JDict [("type", JStr "placeOrder")].


(** What three calls of [accept] do: a connection on socket 7, a
    failure, a connection on socket 8. *)
Definition three_accepts : list EmulatorRest.accept_result :=
  [EmulatorRest.Accepted 7; EmulatorRest.AcceptError; EmulatorRest.Accepted 8].

End DemoX.

(* ================================================================== *)
(** * Facts about text *)

Section TextFacts.
Import Text.

Lemma str_app_cons (x : ascii) (a b : string) :
  String x a +:+ b = String x (a +:+ b).
Proof. reflexivity. Qed.

Lemma str_app_empty_l (s : string) : EmptyString +:+ s = s.
Proof. reflexivity. Qed.

Lemma str_app_empty_r (s : string) : s +:+ EmptyString = s.
Proof.
  induction s as [|x s IH]; [reflexivity|]. now rewrite str_app_cons, IH.
Qed.

Lemma str_app_assoc (a b c : string) : (a +:+ b) +:+ c = a +:+ b +:+ c.
Proof.
  induction a as [|x a IH]; [reflexivity|]. now rewrite !str_app_cons, IH.
Qed.

Lemma str_length_app (a b : string) :
  String.length (a +:+ b) = (String.length a + String.length b)%nat.
Proof.
  induction a as [|x a IH]; [reflexivity|]. rewrite str_app_cons. simpl.
  now rewrite IH.
Qed.

Lemma nonempty_app_l (a b : string) :
  nonempty a = true -> nonempty (a +:+ b) = true.
Proof. destruct a; [discriminate | reflexivity]. Qed.

Lemma nonempty_false (a : string) : nonempty a = false -> a = EmptyString.
Proof. destruct a; [reflexivity | discriminate]. Qed.

(** The split of a text that has a newline in its first part, or none
    there and one in its second part, or none at all. *)
Lemma split_nl_app (a b : string) :
  split_nl (a +:+ b) =
  match split_nl a with
  | Some (line, rest) => Some (line, rest +:+ b)
  | None =>
      match split_nl b with
      | Some (line, rest) => Some (a +:+ line, rest)
      | None => None
      end
  end.
Proof.
  induction a as [|x a IH].
  - rewrite str_app_empty_l. simpl.
    destruct (split_nl b) as [[line rest]|]; reflexivity.
  - rewrite str_app_cons. simpl.
    destruct (Ascii.eqb x NL); [reflexivity|].
    rewrite IH. destruct (split_nl a) as [[line rest]|]; [reflexivity|].
    destruct (split_nl b) as [[line rest]|]; reflexivity.
Qed.

Lemma split_nl_length (s line rest : string) :
  split_nl s = Some (line, rest) ->
  (String.length rest < String.length s)%nat.
Proof.
  revert line rest. induction s as [|x s IH]; simpl; intros line rest Hs.
  - discriminate.
  - destruct (Ascii.eqb x NL).
    + injection Hs as _ <-. lia.
    + destruct (split_nl s) as [[l r]|]; [|discriminate].
      injection Hs as _ <-. specialize (IH l r eq_refl). lia.
Qed.

(** A frame: a line without newline, then the newline. *)
Lemma split_nl_frame (line rest : string) :
  has_nl line = false ->
  split_nl (line +:+ nl +:+ rest) = Some (line, rest).
Proof.
  unfold has_nl. intros Hl. rewrite split_nl_app.
  destruct (split_nl line) as [[l r]|]; [discriminate|].
  unfold nl. rewrite str_app_cons, str_app_empty_l. simpl.
  now rewrite str_app_empty_r.
Qed.

Lemma has_nl_app (a b : string) : has_nl (a +:+ b) = has_nl a || has_nl b.
Proof.
  unfold has_nl. rewrite split_nl_app.
  destruct (split_nl a) as [[l r]|]; [reflexivity|].
  destruct (split_nl b) as [[l r]|]; reflexivity.
Qed.

End TextFacts.

(* ================================================================== *)
(** * Facts about the bytes of a text *)

Section Utf8Facts.

Lemma decode_cons_nonempty (x : Byte.byte) (b : list Byte.byte) (d : string) :
  Utf8.decode (x :: b) = Some d -> Text.nonempty d = true.
Proof.
  simpl. destruct (Utf8.is_single x).
  - destruct (Utf8.decode b); [|discriminate]. now intros [= <-].
  - destruct (Utf8.is_lead2 x); [|discriminate].
    destruct b as [|y b]; [discriminate|].
    destruct (Utf8.is_continuation y); [|discriminate].
    destruct (Utf8.decode b); [|discriminate]. now intros [= <-].
Qed.

(** Bytes that decode, followed by bytes that decode: the text of the
    first, followed by the text of the second. *)
Lemma decode_app (a b : list Byte.byte) (x y : string) :
  Utf8.decode a = Some x -> Utf8.decode b = Some y ->
  Utf8.decode (a ++ b) = Some (x +:+ y).
Proof.
  intros Ha Hb. revert a x Ha.
  enough (Hn : forall n a x, (length a <= n)%nat -> Utf8.decode a = Some x ->
                             Utf8.decode (a ++ b) = Some (x +:+ y)).
  { intros a x. apply (Hn (length a)). lia. }
  induction n as [|n IH]; intros a x Hlen Ha.
  - destruct a; [|simpl in Hlen; lia]. injection Ha as <-. exact Hb.
  - destruct a as [|u a]; [injection Ha as <-; exact Hb|].
    simpl in Ha, Hlen |- *. destruct (Utf8.is_single u).
    + destruct (Utf8.decode a) as [x0|] eqn:E; [|discriminate].
      injection Ha as <-. now rewrite (IH a x0) by (lia || assumption).
    + destruct (Utf8.is_lead2 u); [|discriminate].
      destruct a as [|v a]; [discriminate|]. simpl in Hlen |- *.
      destruct (Utf8.is_continuation v); [|discriminate].
      destruct (Utf8.decode a) as [x0|] eqn:E; [|discriminate].
      injection Ha as <-. now rewrite (IH a x0) by (lia || assumption).
Qed.

(** The text is encoded and decoded back. *)
Lemma decode_encode_char (c : ascii) (b : list Byte.byte) :
  Utf8.decode (Utf8.encode_char c ++ b) = String c <$> Utf8.decode b.
Proof. destruct c as [[] [] [] [] [] [] [] []]; reflexivity. Qed.

Lemma decode_encode (s : string) : Utf8.decode (Utf8.encode s) = Some s.
Proof.
  induction s as [|c s IH]; [reflexivity|].
  simpl Utf8.encode. now rewrite decode_encode_char, IH.
Qed.

(** Reads that each end where a character ends bring the text of the
    stream in as many parts that are not empty. *)
Lemma reads_text (reads : list (list Byte.byte)) :
  forallb Spec.whole_characters reads = true ->
  exists chunks,
    map received reads = map Data chunks /\
    forallb Text.nonempty chunks = true /\
    Utf8.decode (concat reads) = Some (Text.join chunks).
Proof.
  induction reads as [|r reads IH]; intros Hr.
  - now exists [].
  - simpl in Hr. apply andb_true_iff in Hr as [Hr Hrs].
    destruct (IH Hrs) as (chunks & Hmap & Hne & Hdec).
    unfold Spec.whole_characters in Hr.
    destruct r as [|x r]; [discriminate|].
    destruct (Utf8.decode (x :: r)) as [d|] eqn:Hd; [|discriminate].
    exists (d :: chunks). split; [|split].
    + simpl map. unfold received at 1. now rewrite Hd, Hmap.
    + simpl. now rewrite (decode_cons_nonempty x r d Hd).
    + change (concat ((x :: r) :: reads)) with ((x :: r) ++ concat reads).
      now apply decode_app.
Qed.

End Utf8Facts.

(* ================================================================== *)
(** * Laws of the monad *)

Section MonadFacts.
Import Eff.
Context {E S : Type}.

Lemma pair_eta {A B} (p : A * B) : (let (a, b) := p in (a, b)) = p.
Proof. now destruct p. Qed.

Lemma bind_ret {A B} (a : A) (k : A -> M E S B) (s : S) :
  bind (ret a) k s = k a s.
Proof. unfold bind, ret. now destruct (k a s). Qed.

Lemma bind_raise {A B} (e : exn) (k : A -> M E S B) (s : S) :
  bind (raise e) k s = ([], Exc e s).
Proof. reflexivity. Qed.

Lemma bind_block {A B} (w : blocked_on) (k : A -> M E S B) (s : S) :
  bind (block w) k s = ([], Blocked w s).
Proof. reflexivity. Qed.

Lemma bind_get {B} (k : S -> M E S B) (s : S) : bind get k s = k s s.
Proof. unfold bind, get. now destruct (k s s). Qed.

Lemma bind_put {B} (s' : S) (k : unit -> M E S B) (s : S) :
  bind (put s') k s = k tt s'.
Proof. unfold bind, put. now destruct (k tt s'). Qed.

Lemma bind_emit {B} (ev : E) (k : unit -> M E S B) (s : S) :
  bind (emit ev) k s = (ev :: fst (k tt s), snd (k tt s)).
Proof. unfold bind, emit. now destruct (k tt s). Qed.

Lemma bind_assoc {A B C} (m : M E S A) (k : A -> M E S B) (k' : B -> M E S C)
    (s : S) :
  bind (bind m k) k' s = bind m (fun a => bind (k a) k') s.
Proof.
  unfold bind. destruct (m s) as [l [a s'|e s'|w s']]; try reflexivity.
  destruct (k a s') as [l1 [b s1|e s1|w s1]]; try reflexivity.
  destruct (k' b s1) as [l2 o2]. now rewrite List.app_assoc.
Qed.

(** The result of [bind] from the result of its first part. *)
Lemma bind_ok {A B} (m : M E S A) (k : A -> M E S B) (s s' : S) (l : list E)
    (a : A) :
  m s = (l, Ok a s') -> bind m k s = (l ++ fst (k a s'), snd (k a s')).
Proof. unfold bind. intros ->. now destruct (k a s'). Qed.

Lemma bind_exc {A B} (m : M E S A) (k : A -> M E S B) (s s' : S) (l : list E)
    (e : exn) :
  m s = (l, Exc e s') -> bind m k s = (l, Exc e s').
Proof. unfold bind. now intros ->. Qed.


Lemma try_except_ok {A} (m : M E S A) (h : exn -> option (M E S A)) (s s' : S)
    (l : list E) (a : A) :
  m s = (l, Ok a s') -> try_except m h s = (l, Ok a s').
Proof. unfold try_except. now intros ->. Qed.

Lemma try_except_exc {A} (m : M E S A) (h : exn -> option (M E S A)) (s s' : S)
    (l : list E) (e : exn) (k : M E S A) :
  m s = (l, Exc e s') -> h e = Some k ->
  try_except m h s = (l ++ fst (k s'), snd (k s')).
Proof. unfold try_except. intros -> ->. now destruct (k s'). Qed.

Lemma try_except_blocked {A} (m : M E S A) (h : exn -> option (M E S A))
    (s s' : S) (l : list E) (w : blocked_on) :
  m s = (l, Blocked w s') -> try_except m h s = (l, Blocked w s').
Proof. unfold try_except. now intros ->. Qed.

End MonadFacts.

(* ================================================================== *)
(** * The client: [disconnect], [send], [place_order] *)

Section ClientFacts.
Import Text Wire Eff Client Spec.
Context `{PyLib}.

Lemma set_lock_release (c : TWSClient) :
  lock c = false -> set_lock false (set_lock true c) = c.
Proof. destruct c; simpl; intros ->; reflexivity. Qed.

Lemma disconnect_connected (c : TWSClient) (sk : Socket) :
  connected c = true -> lock c = false -> socket c = Some sk ->
  disconnect c = (disconnect_log sk, Ok tt (disconnected sk c)).
Proof.
  intros Hc Hl Hs. unfold disconnect, with_lock. rewrite Hl.
  unfold disconnect_log, notice_log, disconnected.
  destruct c as [h p so co ru bc oc lo st lt]; simpl in *; subst.
  unfold bind, get, try_except, socket_send, socket_close, modify, bind, get,
    put, emit, raise; simpl.
  destruct (write_fails sk); simpl; reflexivity.
Qed.


Lemma disconnect_lock_held (c : TWSClient) :
  lock c = true -> disconnect c = ([], Blocked OnLock c).
Proof. intros Hl. unfold disconnect, with_lock. now rewrite Hl. Qed.

(** A [send] whose write raises calls [disconnect] with the lock of
    [send] still held: the call never returns, and nothing is closed or
    cleared. *)
Lemma send_write_fails (c : TWSClient) (sk : Socket) (msg : json) :
  connected c = true -> lock c = false -> socket c = Some sk ->
  write_fails sk = true ->
  send msg c = ([Print "Send error"], Blocked OnLock (set_lock true c)).
Proof.
  intros Hc Hl Hs Hw. unfold send, with_lock. rewrite Hl.
  destruct c as [h p so co ru bc oc lo st lt]; simpl in *; subst.
  unfold bind, get, try_except, socket_send, bind, get, emit, raise; simpl.
  rewrite Hw; simpl. reflexivity.
Qed.

Lemma send_connected (c : TWSClient) (sk : Socket) (msg : json) :
  connected c = true -> lock c = false -> socket c = Some sk ->
  write_fails sk = false ->
  send msg c = ([Sent (fd sk) (json_dumps msg +:+ nl)], Ok tt c).
Proof.
  intros Hc Hl Hs Hw. unfold send, with_lock. rewrite Hl.
  destruct c as [h p so co ru bc oc lo st lt]; simpl in *; subst.
  unfold bind, get, try_except, socket_send, bind, get, emit, raise; simpl.
  rewrite Hw; simpl. reflexivity.
Qed.

Lemma send_not_connected (c : TWSClient) (msg : json) :
  connected c = false -> lock c = false -> send msg c = ([], Ok tt c).
Proof.
  intros Hc Hl. unfold send, with_lock. rewrite Hl.
  unfold bind, get, ret; simpl. rewrite Hc; simpl.
  now rewrite set_lock_release.
Qed.

End ClientFacts.

(* ================================================================== *)
(** * The receive task *)

Section ListenFacts.
Import Text Wire Eff Client Spec.
Context `{PyLib}.

Lemma live_inv (c : TWSClient) :
  live c = true ->
  connected c = true /\ running c = true /\ lock c = false /\
  exists sk, socket c = Some sk /\ closed sk = false.
Proof.
  unfold live. destruct (connected c), (running c), (lock c); try discriminate.
  destruct (socket c) as [sk|]; [|discriminate]. simpl.
  intros Hk. repeat split. exists sk. split; [reflexivity|].
  now destruct (closed sk).
Qed.

Lemma prepend_nil {S A} (r : list event * outcome S A) : prepend [] r = r.
Proof. now destruct r. Qed.

Lemma prepend_prepend {S A} (l1 l2 : list event) (r : list event * outcome S A) :
  prepend l1 (prepend l2 r) = prepend (l1 ++ l2) r.
Proof. unfold prepend. simpl. now rewrite List.app_assoc. Qed.

Lemma bind_ok' {S A B} (m : M event S A) (k : A -> M event S B) (s s' : S)
    (l : list event) (a : A) :
  m s = (l, Ok a s') -> bind m k s = prepend l (k a s').
Proof. apply bind_ok. Qed.

Lemma on_self_run {A} (m : C A) (c : TWSClient) (b : string) :
  on_self m (mkListen c b) = retag b (m c).
Proof.
  unfold on_self, zoom, retag. simpl.
  destruct (m c) as [l [a s|e s|w s]]; reflexivity.
Qed.

Lemma forget_retag {A} (b : string) (r : list event * outcome TWSClient A) :
  forget (retag b r) = r.
Proof. destruct r as [l [a s|e s|w s]]; reflexivity. Qed.

Lemma forget_prepend {A} (l : list event)
    (r : list event * outcome ListenState A) :
  forget (prepend l r) = prepend l (forget r).
Proof. reflexivity. Qed.

(** ** [dispatch] *)

Lemma is_str_end_not_bar (ty : json) :
  is_str ty "endOfData" = true ->
  is_str ty "barUpdate" = false /\ is_str ty "orderStatus" = false.
Proof.
  destruct ty; simpl; try discriminate.
  intros Hs. apply String.eqb_eq in Hs. subst. split; reflexivity.
Qed.

Lemma subscript_exn (msg : json) (k : string) (e : exn) :
  subscript msg k = inl e -> e <> JSONDecodeError.
Proof.
  unfold subscript. destruct msg; try (intros [= <-]; discriminate).
  destruct (Dict.lookup k kvs); intros [= <-]; discriminate.
Qed.

Lemma dispatch_end (msg : json) (c : TWSClient) :
  is_end msg = true ->
  dispatch msg c =
    (emit (Print "Received endOfData signal");;
     disconnect;;
     ret true)%eff c.
Proof.
  unfold is_end, dispatch. intros He. rewrite bind_get.
  destruct (subscript msg "type") as [e|ty]; [discriminate|].
  unfold lift_res. rewrite bind_ret.
  destruct (is_str_end_not_bar ty He) as [-> ->]. now rewrite He.
Qed.

Lemma dispatch_end_live (msg : json) (c : TWSClient) (sk : Socket) :
  is_end msg = true -> connected c = true -> lock c = false ->
  socket c = Some sk ->
  dispatch msg c =
    (Print "Received endOfData signal" :: disconnect_log sk,
     Ok true (disconnected sk c)).
Proof.
  intros He Hc Hl Hs. rewrite dispatch_end by assumption.
  rewrite bind_emit.
  rewrite (bind_ok _ _ _ _ _ _ (disconnect_connected c sk Hc Hl Hs)).
  simpl. now rewrite List.app_nil_r.
Qed.

(** A message that is no [endOfData] leaves the client as it is: a
    callback is invoked, or nothing happens, or building the argument of
    the callback raises. *)
Lemma dispatch_not_end (msg : json) (c : TWSClient) :
  is_end msg = false ->
  (exists l, dispatch msg c = (l, Ok false c)) \/
  (exists e, e <> JSONDecodeError /\ dispatch msg c = ([], Exc e c)).
Proof.
  unfold is_end, dispatch. intros He. rewrite bind_get.
  destruct (subscript msg "type") as [e|ty] eqn:Hty; unfold lift_res.
  { right. exists e. split; [eapply subscript_exn; eauto | apply bind_raise]. }
  rewrite bind_ret.
  destruct (is_str ty "barUpdate"), (bar_callback c) as [cb|];
    try (destruct (is_str ty "orderStatus"),
           (order_status_callback c) as [cb'|]);
    try rewrite He;
    try (left; eexists; reflexivity).
  all: repeat match goal with
         | |- context [subscript ?m ?k] =>
             let E := fresh "E" in
             destruct (subscript m k) eqn:E; unfold lift_res;
             [right; eexists; split;
              [eapply subscript_exn; eauto | apply bind_raise] |];
             rewrite bind_ret
         | |- context [to_datetime ?t] =>
             destruct (to_datetime t); unfold lift_opt;
             [rewrite bind_ret
             | right; eexists; split; [| apply bind_raise]; discriminate]
         end.
  all: left; eexists; rewrite bind_emit; reflexivity.
Qed.

(** ** The inner loop *)

Lemma drain_step (n : nat) (st : ListenState) :
  drain (S n) st =
  match split_nl (buffer st) with
  | None => ([], Ok tt st)
  | Some (line, rest) =>
      let st1 := mkListen (self st) rest in
      if strip_nonempty line then
        match json_loads line with
        | None => ([], Exc JSONDecodeError st1)
        | Some msg =>
            bind (on_self (dispatch msg))
              (fun brk : bool => if brk then ret tt else drain n) st1
        end
      else drain n st1
  end.
Proof.
  simpl. rewrite bind_get.
  destruct (split_nl (buffer st)) as [[line rest]|]; [|reflexivity].
  unfold set_buffer. rewrite bind_assoc, bind_get, bind_put. simpl.
  destruct (strip_nonempty line); [|reflexivity].
  destruct (json_loads line) as [msg|]; unfold lift_opt.
  - now rewrite bind_ret.
  - now rewrite bind_raise.
Qed.

Local Arguments drain : simpl never.
Local Arguments listen_loop : simpl never.

(** The fuel does not matter once it is above the length of the
    buffer. *)
Lemma drain_fuel (n m : nat) (st : ListenState) :
  (String.length (buffer st) < n)%nat -> (String.length (buffer st) < m)%nat ->
  drain n st = drain m st.
Proof.
  revert m st. induction n as [|n IH]; intros m st Hn Hm; [lia|].
  destruct m as [|m]; [lia|]. rewrite !drain_step.
  destruct (split_nl (buffer st)) as [[line rest]|] eqn:Hs; [|reflexivity].
  apply split_nl_length in Hs. simpl.
  assert (Hrec : forall c', drain n (mkListen c' rest) = drain m (mkListen c' rest)).
  { intros c'. apply IH; simpl; lia. }
  destruct (strip_nonempty line); [|apply Hrec].
  destruct (json_loads line) as [msg|]; [|reflexivity].
  unfold bind. rewrite on_self_run. unfold retag.
  destruct (dispatch msg (self st)) as [l [[|] c'|e c'|w c']]; simpl;
    try reflexivity.
  now rewrite Hrec.
Qed.


(** ** Frames *)

Lemma lines_split (s : string) :
  lines s =
  match split_nl s with
  | None => ([], s)
  | Some (line, rest) => (line :: fst (lines rest), snd (lines rest))
  end.
Proof.
  induction s as [|x s IH]; [reflexivity|]. simpl.
  destruct (Ascii.eqb x NL).
  - now destruct (lines s).
  - rewrite IH. now destruct (split_nl s) as [[line rest]|].
Qed.

Lemma lines_app (a b : string) :
  lines (a +:+ b) =
  let (la, ra) := lines a in
  let (lb, rb) := lines (ra +:+ b) in (la ++ lb, rb).
Proof.
  induction a as [|x a IH].
  - simpl. rewrite !str_app_empty_l. now destruct (lines b).
  - rewrite str_app_cons. simpl. rewrite IH.
    destruct (lines a) as [la ra].
    destruct (lines (ra +:+ b)) as [lb rb] eqn:Hb.
    destruct (Ascii.eqb x NL) eqn:Hx.
    + now rewrite Hb.
    + destruct la as [|l la].
      * rewrite str_app_cons. simpl. rewrite Hb, Hx. now destruct lb.
      * now rewrite Hb.
Qed.

Lemma frames_decodable_split (s line rest : string) :
  split_nl s = Some (line, rest) ->
  frames_decodable s = decodes line && frames_decodable rest.
Proof.
  intros Hs. unfold frames_decodable. now rewrite (lines_split s), Hs.
Qed.

(** The frames of the start of a text are frames of the text. *)
Lemma frames_decodable_app (a b : string) :
  frames_decodable (a +:+ b) = true -> frames_decodable a = true.
Proof.
  unfold frames_decodable. rewrite lines_app.
  destruct (lines a) as [la ra]. destruct (lines (ra +:+ b)) as [lb rb].
  simpl. rewrite forallb_app. now intros [? ?]%andb_true_iff.
Qed.

(** ** The inner loop on a buffer that goes on *)

Lemma drain_app (n m : nat) (st : ListenState) (d : string) :
  (String.length (buffer st) < n)%nat ->
  (String.length (buffer st +:+ d) < m)%nat ->
  live (self st) = true ->
  drain m (extend d st) = resume d (drain n st).
Proof.
  revert m st. induction n as [|n IH]; intros m st Hn Hm Hlive; [lia|].
  destruct (live_inv _ Hlive) as (Hc & Hr & Hl & sk & Hs & Hk).
  rewrite (drain_step n st).
  destruct (split_nl (buffer st)) as [[line rest]|] eqn:Hsp.
  - (* a frame in the buffer *)
    destruct m as [|m]; [lia|]. rewrite (drain_step m (extend d st)).
    unfold extend at 1. simpl buffer. rewrite split_nl_app, Hsp.
    pose proof (split_nl_length _ _ _ Hsp) as Hlen. simpl self.
    rewrite str_length_app in Hm.
    assert (Hrec : drain m (mkListen (self st) (rest +:+ d))
                   = resume d (drain n (mkListen (self st) rest))).
    { apply (IH m (mkListen (self st) rest)); simpl;
        [lia | rewrite str_length_app; lia | assumption]. }
    cbv zeta.
    destruct (strip_nonempty line); [|exact Hrec].
    destruct (json_loads line) as [msg|]; [|reflexivity].
    unfold bind. rewrite !on_self_run. unfold retag.
    destruct (is_end msg) eqn:He.
    + rewrite (dispatch_end_live msg _ sk He Hc Hl Hs). simpl. reflexivity.
    + destruct (dispatch_not_end msg (self st) He) as [[l ->]|(e & _ & ->)];
        simpl; [|reflexivity].
      rewrite Hrec.
      destruct (drain n (mkListen (self st) rest)) as [l' [a s'|e s'|w s']];
        simpl; try reflexivity.
      destruct (running (self s')); [|reflexivity].
      unfold prepend. simpl. now rewrite List.app_assoc.
  - (* no frame in the buffer *)
    unfold resume. rewrite Hr, prepend_nil.
    apply drain_fuel; simpl; [assumption | lia].
Qed.

(** The inner loop of a client in service returns with the client as
    it was, or with a client that no longer runs; it raises with the
    client as it was, and a [JSONDecodeError] only on a frame that does
    not decode. *)
Lemma drain_live (n : nat) (st : ListenState) :
  (String.length (buffer st) < n)%nat -> live (self st) = true ->
  match drain n st with
  | (_, Ok _ st1) => self st1 = self st \/ running (self st1) = false
  | (_, Exc e st1) =>
      self st1 = self st /\
      (e = JSONDecodeError -> frames_decodable (buffer st) = false)
  | (_, Blocked _ _) => False
  end.
Proof.
  revert st. induction n as [|n IH]; intros st Hn Hlive; [lia|].
  destruct (live_inv _ Hlive) as (Hc & Hr & Hl & sk & Hs & Hk).
  rewrite drain_step.
  destruct (split_nl (buffer st)) as [[line rest]|] eqn:Hsp; [|now left].
  pose proof (split_nl_length _ _ _ Hsp) as Hlen.
  rewrite (frames_decodable_split _ _ _ Hsp). unfold decodes.
  specialize (IH (mkListen (self st) rest)). simpl in IH.
  specialize (IH ltac:(lia) Hlive). cbv zeta.
  destruct (strip_nonempty line); [|exact IH].
  destruct (json_loads line) as [msg|]; [|now split].
  unfold bind. rewrite on_self_run. unfold retag.
  destruct (is_end msg) eqn:He.
  - rewrite (dispatch_end_live msg _ sk He Hc Hl Hs). simpl. now right.
  - destruct (dispatch_not_end msg (self st) He) as [[l ->]|(e & He' & ->)];
      simpl; [|now split].
    destruct (drain n (mkListen (self st) rest)) as [l' [a s'|e s'|w s']];
      simpl; assumption.
Qed.

(** ** The outer loop *)

Lemma listen_loop_stopped (reads : list recv_result) (st : ListenState) :
  running (self st) = false -> listen_loop reads st = ([], Ok tt st).
Proof.
  intros Hr. destruct reads; unfold listen_loop; rewrite bind_get, Hr;
    reflexivity.
Qed.

Lemma listen_loop_waits (st : ListenState) :
  running (self st) = true -> listen_loop [] st = ([], Blocked OnRecv st).
Proof. intros Hr. unfold listen_loop. now rewrite bind_get, Hr. Qed.

Lemma socket_recv_open (c : TWSClient) (sk : Socket) (d : string) :
  socket c = Some sk -> closed sk = false ->
  socket_recv (Data d) c = ([], Ok d c).
Proof.
  intros Hs Hk. unfold socket_recv. now rewrite bind_get, Hs, Hk.
Qed.

(** One turn on a read that brings text. *)
Lemma listen_loop_data (c : TWSClient) (b d : string)
    (reads : list recv_result) :
  live c = true -> nonempty d = true ->
  listen_loop (Data d :: reads) (mkListen c b) =
  after_drain reads
    (drain (S (String.length (b +:+ d))) (mkListen c (b +:+ d))).
Proof.
  intros Hlive Hd.
  destruct (live_inv _ Hlive) as (Hc & Hr & Hl & sk & Hs & Hk).
  change (listen_loop (Data d :: reads)) with
    (st <- get;;
     if running (self st) then
       brk <- try_except (listen_body (Data d)) listen_except;;
       if brk then ret tt else listen_loop reads
     else ret tt)%eff.
  rewrite bind_get. cbn [self]. rewrite Hr.
  assert (Hbody : listen_body (Data d) (mkListen c b) =
            bind (drain (S (String.length (b +:+ d)))) (fun _ => ret false)
              (mkListen c (b +:+ d))).
  { unfold listen_body.
    erewrite bind_ok'
      by (rewrite on_self_run, (socket_recv_open c sk d Hs Hk); reflexivity).
    rewrite prepend_nil, Hd, bind_get. unfold set_buffer.
    rewrite bind_assoc, bind_get, bind_put, bind_get. reflexivity. }
  unfold bind at 1, try_except. rewrite Hbody. unfold bind at 1.
  destruct (drain _ (mkListen c (b +:+ d))) as [l [a st1|e st1|w st1]];
    unfold after_drain, prepend; simpl.
  - rewrite List.app_nil_r. destruct (listen_loop reads st1); reflexivity.
  - destruct e; simpl;
      try (rewrite bind_emit; unfold bind;
           destruct (on_self disconnect st1) as [l' [a s|e s|w s]];
           simpl; rewrite ?List.app_nil_r, <- ?List.app_assoc; reflexivity).
    destruct (listen_loop reads st1) as [l' o]. simpl.
    now rewrite <- List.app_assoc.
  - reflexivity.
Qed.

Lemma after_drain_prepend (reads : list recv_result) (l : list event)
    (r : list event * outcome ListenState unit) :
  after_drain reads (prepend l r) = prepend l (after_drain reads r).
Proof.
  destruct r as [l' [a s|e s|w s]]; unfold after_drain, prepend; simpl;
    rewrite ?List.app_assoc; try reflexivity.
  destruct e; simpl; rewrite ?List.app_assoc; reflexivity.
Qed.

(** Two reads in a row and the one read of their texts together: the
    same effects and the same client. *)
Lemma listen_merge (c : TWSClient) (b d1 d2 : string)
    (reads : list recv_result) :
  live c = true -> nonempty d1 = true -> nonempty d2 = true ->
  frames_decodable (b +:+ d1) = true ->
  forget (listen_loop (Data d1 :: Data d2 :: reads) (mkListen c b)) =
  forget (listen_loop (Data (d1 +:+ d2) :: reads) (mkListen c b)).
Proof.
  intros Hlive H1 H2 Hdec.
  rewrite !listen_loop_data by auto using nonempty_app_l.
  rewrite <- (str_app_assoc b d1 d2).
  change (mkListen c ((b +:+ d1) +:+ d2))
    with (extend d2 (mkListen c (b +:+ d1))).
  rewrite (drain_app (S (String.length (b +:+ d1))))
    by (simpl; auto; lia).
  pose proof (drain_live (S (String.length (b +:+ d1)))
                (mkListen c (b +:+ d1)) ltac:(simpl; lia) Hlive) as Hres.
  destruct (drain _ (mkListen c (b +:+ d1))) as [l [a st1|e st1|w st1]];
    simpl in Hres; [| |contradiction].
  - unfold resume. destruct (running (self st1)) eqn:Hrun.
    + destruct Hres as [Hself|?]; [|congruence].
      destruct st1 as [c1 b1]. simpl in Hself. subst c1.
      rewrite after_drain_prepend. unfold after_drain at 1.
      now rewrite listen_loop_data by assumption.
    + unfold after_drain.
      rewrite !listen_loop_stopped by assumption. reflexivity.
  - destruct Hres as [Hself Hjson]. unfold resume, after_drain.
    destruct st1 as [c1 b1]. simpl in Hself. subst c1.
    destruct e; try (specialize (Hjson eq_refl); congruence);
      unfold bind, extend; rewrite !on_self_run; simpl;
      destruct (disconnect c) as [l' [a s|e s|w s]]; reflexivity.
Qed.

(** A split of a text in chunks and the text in one read. *)
Lemma listen_chunks (c : TWSClient) (b d : string) (ds : list string)
    (reads : list recv_result) :
  live c = true -> nonempty d = true -> forallb nonempty ds = true ->
  frames_decodable (b +:+ join (d :: ds)) = true ->
  forget (listen_loop (map Data (d :: ds) ++ reads) (mkListen c b)) =
  forget (listen_loop (Data (join (d :: ds)) :: reads) (mkListen c b)).
Proof.
  revert d. induction ds as [|d2 ds IH]; intros d Hlive Hd Hds Hdec.
  - simpl. now rewrite str_app_empty_r.
  - simpl in Hds. apply andb_true_iff in Hds as [Hd2 Hds].
    simpl in Hdec. simpl map. simpl app.
    rewrite listen_merge; auto.
    + specialize (IH (d +:+ d2) Hlive (nonempty_app_l _ _ Hd) Hds).
      simpl in IH. rewrite str_app_assoc in IH. apply IH. exact Hdec.
    + apply (frames_decodable_app _ (d2 +:+ join ds)).
      now rewrite str_app_assoc.
Qed.

Lemma join_empty (cs : list string) :
  forallb nonempty cs = true -> join cs = EmptyString -> cs = [].
Proof.
  destruct cs as [|x cs]; [reflexivity|]. simpl.
  intros [Hx _]%andb_true_iff. destruct x; discriminate.
Qed.

(** [listen] is its loop from an empty buffer, with the local variable
    gone at the end. *)
Lemma listen_forget (reads : list recv_result) (c : TWSClient) :
  listen reads c =
  match forget (listen_loop reads (mkListen c EmptyString)) with
  | (l, Ok _ c') => (l ++ [Print "Listen thread exiting"], Ok tt c')
  | r => r
  end.
Proof.
  unfold listen, zoom, bind, forget.
  destruct (listen_loop reads (mkListen c EmptyString))
    as [l [a st1|e st1|w st1]]; reflexivity.
Qed.

End ListenFacts.

(* ================================================================== *)
(** * The emulator *)

Section EmulatorFacts.
Import Text Wire Eff Emulator SpecE.
Context `{PyLib}.

Lemma modify_run {B} (f : TWSEmulator -> TWSEmulator) (k : unit -> E B)
    (s : TWSEmulator) :
  bind (modify f) k s = k tt (f s).
Proof. unfold modify. now rewrite bind_assoc, bind_get, bind_put. Qed.

(** [send_message] never raises and leaves the emulator as it is. *)
Lemma send_message_run (client_socket : nat) (msg : json) (s : TWSEmulator) :
  send_message client_socket msg s = (reply_log s client_socket msg, Ok tt s).
Proof.
  unfold send_message, try_except, socket_send, reply_log.
  rewrite bind_get.
  destruct (sockets s !! client_socket) as [sk|]; [|reflexivity].
  destruct (write_fails sk); reflexivity.
Qed.

(** [handle_order], case by case. *)
Lemma handle_order_run (client_socket : nat) (msg : json) (s : TWSEmulator) :
  let k := order_id s + 1 in
  let s1 := set_order_id k s in
  handle_order client_socket msg s =
  match dict_get msg "order" with
  | inl e => ([], Exc e s1)
  | inr order =>
  match dict_get order "action" with
  | inl e => ([], Exc e s1)
  | inr action =>
  match dict_get order "quantity" with
  | inl e => ([], Exc e s1)
  | inr quantity =>
  match data_df s with
  | None => ([], Exc TypeError s1)
  | Some df =>
  match iloc (map Df.close df) (Z.min k (Z.of_nat (length df) - 1)) with
  | None => ([], Exc IndexError s1)
  | Some fill_price =>
      (reply_log s client_socket (status_msg k fill_price),
       Ok tt (set_orders
                (<[k := mkOrderRecord action quantity fill_price]> (orders s))
                s1))
  end end end end end.
Proof.
  cbv zeta. unfold handle_order. rewrite modify_run.
  destruct (dict_get msg "order") as [e|order]; unfold lift_res at 1;
    [now rewrite bind_raise | rewrite bind_ret].
  destruct (dict_get order "action") as [e|action]; unfold lift_res at 1;
    [now rewrite bind_raise | rewrite bind_ret].
  destruct (dict_get order "quantity") as [e|quantity]; unfold lift_res at 1;
    [now rewrite bind_raise | rewrite bind_ret].
  rewrite bind_get. simpl data_df.
  destruct (data_df s) as [df|]; unfold lift_opt at 1;
    [rewrite bind_ret | now rewrite bind_raise].
  simpl order_id.
  destruct (iloc _ _) as [p|]; unfold lift_opt at 1;
    [rewrite bind_ret | now rewrite bind_raise].
  rewrite bind_put, send_message_run. reflexivity.
Qed.

(** Every call takes the next identifier, whatever becomes of it. *)
Lemma handle_order_id (client_socket : nat) (msg : json) (s : TWSEmulator) :
  order_id (state_of (snd (handle_order client_socket msg s))) = order_id s + 1.
Proof.
  rewrite handle_order_run. cbv zeta.
  repeat match goal with
         | |- context [match ?x with _ => _ end] => destruct x
         end; reflexivity.
Qed.



(** ** [process_message] and [handle_client] *)

(** A message whose [type] is none of the three requests, or that has
    no [type], does nothing. *)
Lemma process_message_ignored (client_socket : nat) (message : string)
    (msg ty : json) (s : TWSEmulator) :
  json_loads message = Some msg -> dict_get msg "type" = inr ty ->
  is_str ty "reqRealTimeBars" = false -> is_str ty "placeOrder" = false ->
  is_str ty "disconnect" = false ->
  process_message client_socket message s = ([], Ok tt s).
Proof.
  intros Hm Hty H1 H2 H3. unfold process_message, try_except.
  rewrite Hm. unfold lift_opt. rewrite bind_ret, Hty. unfold lift_res.
  now rewrite bind_ret, H1, H2, H3.
Qed.

Lemma emu_socket_recv_open (client_socket : nat) (sk : Socket) (d : string)
    (s : TWSEmulator) :
  sockets s !! client_socket = Some sk -> closed sk = false ->
  socket_recv client_socket (Data d) s = ([], Ok d s).
Proof.
  intros Hs Hk. unfold socket_recv. now rewrite bind_get, Hs, Hk.
Qed.

(** One turn of the handler on a read that brings text: the text goes
    to [process_message] as it is. *)
Lemma handle_client_data (client_socket : nat) (sk : Socket) (d : string)
    (reads : list recv_result) (s : TWSEmulator) :
  running s = true -> sockets s !! client_socket = Some sk ->
  closed sk = false -> nonempty d = true ->
  handle_client client_socket (Data d :: reads) s =
  match process_message client_socket d s with
  | (l, Ok _ s') => (l ++ fst (handle_client client_socket reads s'),
                     snd (handle_client client_socket reads s'))
  | (l, Exc _ s') => (l ++ [Print "Error handling client"], Ok tt s')
  | (l, Blocked w s') => (l, Blocked w s')
  end.
Proof.
  intros Hr Hs Hk Hd.
  change (handle_client client_socket (Data d :: reads)) with
    (s0 <- get;;
     if running s0 then
       brk <- try_except (handle_client_body client_socket (Data d))
                (fun _ => Some (emit (Print "Error handling client");; ret true));;
       if brk then ret tt else handle_client client_socket reads
     else ret tt)%eff.
  rewrite bind_get, Hr.
  assert (Hbody : handle_client_body client_socket (Data d) s =
            bind (process_message client_socket d) (fun _ => ret false) s).
  { unfold handle_client_body.
    rewrite (bind_ok _ _ _ _ _ _ (emu_socket_recv_open _ _ d s Hs Hk)), Hd.
    now destruct (bind _ _ s). }
  unfold bind at 1, try_except. rewrite Hbody. unfold bind at 1.
  destruct (process_message client_socket d s) as [l [a s'|e s'|w s']]; simpl.
  - rewrite List.app_nil_r.
    destruct (handle_client client_socket reads s'); reflexivity.
  - rewrite List.app_nil_r. reflexivity.
  - reflexivity.
Qed.

(** ** [stream_bars] *)

Lemma stream_loop_run (env : nat -> TWSEmulator -> TWSEmulator)
    (client_socket : nat) (sk : Socket) (rows : list (Df.Series Timestamp))
    (i : nat) (s : TWSEmulator) :
  keeps env client_socket -> running s = true ->
  sockets s !! client_socket = Some sk -> write_fails sk = false ->
  exists s',
    stream_loop env client_socket i rows s
      = (bar_log client_socket rows, Ok tt s') /\
    running s' = true /\ sockets s' !! client_socket = Some sk.
Proof.
  intros Henv. revert i s.
  induction rows as [|row rows IH]; intros i s Hr Hs Hw.
  - exists s. now repeat split.
  - destruct (Henv i s) as [Hr' Hs']. rewrite Hr in Hr'. rewrite Hs in Hs'.
    destruct (IH (S i) (env i s) Hr' Hs' Hw) as (s' & Hrun & Hr2 & Hs2).
    exists s'. split; [|now split]. simpl stream_loop.
    rewrite bind_get, Hr. cbn [negb]. rewrite bind_emit.
    rewrite (bind_ok _ _ _ _ _ _ (send_message_run _ _ s)).
    rewrite modify_run, Hrun. unfold reply_log, bar_log. rewrite Hs, Hw.
    reflexivity.
Qed.

Lemma wire_app (client_socket : nat) (l1 l2 : list event) :
  wire client_socket (l1 ++ l2)
  = wire client_socket l1 +:+ wire client_socket l2.
Proof.
  induction l1 as [|ev l1 IH]; [reflexivity|]. simpl.
  destruct ev as [|n data| | | |]; try exact IH.
  destruct (Nat.eqb n client_socket); [|exact IH].
  now rewrite IH, str_app_assoc.
Qed.

Lemma wire_bar_log (client_socket : nat) (rows : list (Df.Series Timestamp)) :
  wire client_socket (bar_log client_socket rows) = bar_frames rows.
Proof.
  induction rows as [|row rows IH]; [reflexivity|].
  unfold bar_log, bar_frames in *. simpl. rewrite Nat.eqb_refl, IH.
  now rewrite str_app_assoc.
Qed.

End EmulatorFacts.

(* ================================================================== *)
(** * The client: closing and sending *)

Section ClientClaims.
Import Text Wire Eff Client Spec.
Context `{PyLib}.


(** C10. [send] on a client that is not connected does nothing: no
    write, no print, no exception, and the client it returns is the
    client it was called on, field for field. *)
Theorem send_not_connected_noop (c : TWSClient) (msg : json) :
  connected c = false -> lock c = false -> send msg c = ([], Ok tt c).
Proof. apply send_not_connected. Qed.

(** [place_order] on a connected client whose write succeeds. *)
Lemma place_order_connected (c : TWSClient) (sk : Socket) (order : Order) :
  connected c = true -> lock c = false -> socket c = Some sk ->
  write_fails sk = false ->
  place_order order c =
    (Sent (fd sk) (json_dumps (place_order_msg order) +:+ nl) ::
     match order_status_callback c with
     | Some cb =>
         [OrderStatusCallback cb
            (mkTrade (JInt (id order)) (JStr "Filled") (JFloat (Float "0.0")))]
     | None => []
     end,
     Ok (id order) c).
Proof.
  intros Hc Hl Hs Hw. unfold place_order.
  rewrite (bind_ok _ _ _ _ _ _ (send_connected c sk _ Hc Hl Hs Hw)).
  rewrite bind_get.
  destruct (order_status_callback c) as [cb|]; reflexivity.
Qed.

(** [place_order] on a client that is not connected: no frame, and the
    identifier all the same. *)
Lemma place_order_not_connected (c : TWSClient) (order : Order) :
  connected c = false -> lock c = false ->
  snd (place_order order c) = Ok (id order) c /\
  Forall (fun ev => match ev with Sent _ _ => False | _ => True end)
    (fst (place_order order c)).
Proof.
  intros Hc Hl. unfold place_order.
  rewrite (bind_ok _ _ _ _ _ _ (send_not_connected c _ Hc Hl)).
  rewrite bind_get.
  destruct (order_status_callback c) as [cb|]; simpl; split;
    repeat constructor.
Qed.

End ClientClaims.

Section ClientScenarios.
Import Text Wire Eff Client Spec Demo.
#[local] Existing Instance Ref.lib.


Lemma send_not_connected_noop_witness :
  send (place_order_msg buy) (__init__ "127.0.0.1" 7498)
  = ([], Ok tt (__init__ "127.0.0.1" 7498)).
Proof.
  exact (send_not_connected_noop (__init__ "127.0.0.1" 7498)
           (place_order_msg buy) eq_refl eq_refl).
Defined.

(** C8. A [send] on a connected client whose write fails does not
    return: the handler of the failure calls [disconnect] while [send]
    holds the lock, and [disconnect] waits for that lock. The socket is
    not closed and [connected] and [running] stay set. *)
Theorem send_failure_waits_for_its_own_lock :
  connected client_broken = true /\ lock client_broken = false /\
  send (place_order_msg buy) client_broken =
    ([Print "Send error"], Blocked OnLock (set_lock true client_broken)) /\
  socket (set_lock true client_broken) = Some (mkSocket 5 false true) /\
  connected (set_lock true client_broken) = true /\
  running (set_lock true client_broken) = true.
Proof. repeat split. Qed.

End ClientScenarios.

(* ================================================================== *)
(** * The emulator: orders *)

Section OrderClaims.
Import Text Wire Eff Emulator SpecE.
Context `{PyLib}.

Lemma iloc_in_range {A} (l : list A) (i : Z) :
  0 <= i < Z.of_nat (length l) -> iloc l i = l !! Z.to_nat i.
Proof.
  intros Hi. unfold iloc. destruct (0 <=? i) eqn:E; [reflexivity|].
  apply Z.leb_gt in E. lia.
Qed.

(** C3. An order request on an emulator whose data is not empty is
    answered by an [orderStatus] frame with status [Filled], whose
    identifier is the order count after this order and whose
    [avgFillPrice] is the close of the bar at the index equal to that
    count, clamped to the indices of the data; that index is never past
    the last bar. *)
Theorem order_filled_at_clamped_index (s : TWSEmulator) (client_socket : nat)
    (sk : Socket) (msg : json) (order : list (string * json))
    (df : list (Df.Series Timestamp)) :
  data_df s = Some df -> (0 < length df)%nat -> 0 <= order_id s ->
  dict_get msg "order" = inr (JDict order) ->
  sockets s !! client_socket = Some sk -> write_fails sk = false ->
  let k := order_id s + 1 in
  let i := clamp 0 (Z.of_nat (length df) - 1) k in
  0 <= i <= Z.of_nat (length df) - 1 /\
  exists row s',
    df !! Z.to_nat i = Some row /\
    handle_order client_socket msg s =
      ([Sent client_socket
          (json_dumps
             (JDict [("type", JStr "orderStatus");
                     ("orderId", JInt k);
                     ("status", JStr "Filled");
                     ("avgFillPrice", JFloat (Df.close row))]) +:+ nl)],
       Ok tt s') /\
    order_id s' = k.
Proof.
  intros Hdf Hlen Hid Hord Hs Hw k i.
  assert (Hi : i = Z.min k (Z.of_nat (length df) - 1)).
  { unfold i, clamp. lia. }
  assert (Hrange : 0 <= i <= Z.of_nat (length df) - 1) by lia.
  split; [exact Hrange|].
  destruct (df !! Z.to_nat i) as [row|] eqn:Hrow.
  2: { apply lookup_ge_None in Hrow. lia. }
  assert (Hget : forall key, exists v, dict_get (JDict order) key = inr v).
  { intros key. unfold dict_get. destruct (Dict.lookup key order); eauto. }
  destruct (Hget "action") as [action Ha].
  destruct (Hget "quantity") as [quantity Hq].
  exists row. eexists. split; [reflexivity|].
  rewrite handle_order_run. cbv zeta. rewrite Hord, Ha, Hq.
  rewrite Hdf. fold k. rewrite <- Hi.
  rewrite iloc_in_range by (rewrite length_map; lia).
  rewrite list_lookup_fmap, Hrow. simpl.
  unfold reply_log. rewrite Hs, Hw. split; reflexivity.
Qed.

(** When the other threads do nothing in between, the thread runs the
    method as it is written. *)
Lemma handle_order_among_alone (client_socket : nat) (msg : json)
    (s : TWSEmulator) :
  handle_order_among (fun _ s' => s') client_socket msg s
  = handle_order client_socket msg s.
Proof.
  unfold handle_order_among, handle_order, lift_res, lift_opt.
  rewrite !modify_run.
  destruct (dict_get msg "order") as [e|order];
    [now rewrite !bind_raise | rewrite !bind_ret].
  destruct (dict_get order "action") as [e|action];
    [now rewrite !bind_raise | rewrite !bind_ret].
  destruct (dict_get order "quantity") as [e|quantity];
    [now rewrite !bind_raise | rewrite !bind_ret].
  rewrite !bind_get.
  destruct (data_df _) as [df|]; [rewrite !bind_ret | now rewrite !bind_raise].
  destruct (iloc _ _) as [p|]; [rewrite !bind_ret | now rewrite !bind_raise].
  rewrite modify_run, bind_get, modify_run, bind_get, !bind_put.
  now rewrite modify_run.
Qed.

(** [handle_order] among threads that are not inside [handle_order]
    themselves, case by case. *)
Lemma handle_order_among_run (env : nat -> TWSEmulator -> TWSEmulator)
    (fds : list nat) (client_socket : nat) (msg : json) (s : TWSEmulator) :
  undisturbed env fds -> client_socket ∈ fds ->
  let k := order_id s + 1 in
  exists s',
    order_id s' = k /\ data_df s' = data_df s /\
    (forall fd, fd ∈ fds -> sockets s' !! fd = sockets s !! fd) /\
    handle_order_among env client_socket msg s =
    match dict_get msg "order" with
    | inl e => ([], Exc e s')
    | inr order =>
    match dict_get order "action" with
    | inl e => ([], Exc e s')
    | inr action =>
    match dict_get order "quantity" with
    | inl e => ([], Exc e s')
    | inr quantity =>
    match data_df s with
    | None => ([], Exc TypeError s')
    | Some df =>
    match iloc (map Df.close df) (Z.min k (Z.of_nat (length df) - 1)) with
    | None => ([], Exc IndexError s')
    | Some fill_price =>
        (reply_log s client_socket (status_msg k fill_price), Ok tt s')
    end end end end end /\
    (forall order action quantity df fill_price,
        dict_get msg "order" = inr order ->
        dict_get order "action" = inr action ->
        dict_get order "quantity" = inr quantity ->
        data_df s = Some df ->
        iloc (map Df.close df) (Z.min k (Z.of_nat (length df) - 1))
          = Some fill_price ->
        orders s' = <[k := mkOrderRecord action quantity fill_price]> (orders s)).
Proof.
  intros Henv Hin k.
  set (s1 := set_order_id k s).
  set (s2 := env 0%nat s1).
  destruct (Henv 0%nat s1) as (I2 & O2 & D2 & K2). fold s2 in I2, O2, D2, K2.
  assert (Hs1 : order_id s1 = k /\ orders s1 = orders s /\
                data_df s1 = data_df s /\ sockets s1 = sockets s)
    by (destruct s; repeat split).
  destruct Hs1 as (I1 & O1 & D1 & K1).
  assert (Hearly : forall e : exn,
            order_id s2 = k /\ data_df s2 = data_df s /\
            (forall fd, fd ∈ fds -> sockets s2 !! fd = sockets s !! fd)).
  { intros _. repeat split; try congruence.
    intros fd Hfd. now rewrite K2, K1. }
  unfold handle_order_among. rewrite !modify_run. fold k. fold s1. fold s2.
  destruct (dict_get msg "order") as [e|order] eqn:Eo; unfold lift_res at 1.
  { exists s2. destruct (Hearly e) as (? & ? & ?). rewrite bind_raise.
    repeat split; try assumption. intros; congruence. }
  rewrite bind_ret.
  destruct (dict_get order "action") as [e|action] eqn:Ea; unfold lift_res at 1.
  { exists s2. destruct (Hearly e) as (? & ? & ?). rewrite bind_raise.
    repeat split; try assumption. intros; congruence. }
  rewrite bind_ret.
  destruct (dict_get order "quantity") as [e|quantity] eqn:Eq;
    unfold lift_res at 1.
  { exists s2. destruct (Hearly e) as (? & ? & ?). rewrite bind_raise.
    repeat split; try assumption. intros; congruence. }
  rewrite bind_ret, bind_get, D2, D1.
  destruct (data_df s) as [df|] eqn:Ed; unfold lift_opt at 1.
  2: { exists s2. destruct (Hearly TypeError) as (? & ? & ?).
       rewrite bind_raise. repeat split; try assumption.
       intros; congruence. }
  rewrite bind_ret, I2, I1.
  destruct (iloc _ _) as [p|] eqn:Ep; unfold lift_opt at 1.
  2: { exists s2. destruct (Hearly IndexError) as (? & ? & ?).
       rewrite bind_raise. repeat split; try assumption.
       intros; congruence. }
  rewrite bind_ret, modify_run, bind_get.
  set (s3 := env 1%nat s2).
  destruct (Henv 1%nat s2) as (I3 & O3 & D3 & K3). fold s3 in I3, O3, D3, K3.
  rewrite modify_run, bind_get.
  set (s4 := env 2%nat s3).
  destruct (Henv 2%nat s3) as (I4 & O4 & D4 & K4). fold s4 in I4, O4, D4, K4.
  rewrite bind_put, modify_run.
  set (s5 := set_orders _ s4).
  assert (Hs5 : order_id s5 = order_id s4 /\ data_df s5 = data_df s4 /\
                sockets s5 = sockets s4 /\
                orders s5 = <[order_id s4 := mkOrderRecord action quantity p]>
                              (orders s4))
    by (unfold s5; destruct s4; repeat split).
  destruct Hs5 as (I5 & D5 & K5 & O5).
  set (s6 := env 3%nat s5).
  destruct (Henv 3%nat s5) as (I6 & O6 & D6 & K6). fold s6 in I6, O6, D6, K6.
  rewrite send_message_run.
  assert (Hk : forall fd, fd ∈ fds -> sockets s6 !! fd = sockets s !! fd).
  { intros fd Hfd. rewrite (K6 fd Hfd), K5, (K4 fd Hfd), (K3 fd Hfd),
      (K2 fd Hfd), K1. reflexivity. }
  exists s6. split; [congruence|]. split; [congruence|]. split; [exact Hk|].
  split.
  - unfold reply_log. rewrite (Hk _ Hin). now rewrite I3, I2, I1.
  - intros ? ? ? ? ? [= <-] Ha' Hq' [= <-] Hp'.
    rewrite Ea in Ha'. rewrite Eq in Hq'. rewrite Ep in Hp'.
    injection Ha' as <-. injection Hq' as <-. injection Hp' as <-.
    rewrite O6, O5, O4, O3, O2, O1. f_equal. congruence.
Qed.

Lemma handle_order_among_state (env : nat -> TWSEmulator -> TWSEmulator)
    (fds : list nat) (client_socket : nat) (msg : json) (s : TWSEmulator) :
  undisturbed env fds -> client_socket ∈ fds ->
  let s' := state_of (snd (handle_order_among env client_socket msg s)) in
  order_id s' = order_id s + 1 /\ data_df s' = data_df s /\
  (forall fd, fd ∈ fds -> sockets s' !! fd = sockets s !! fd).
Proof.
  intros Henv Hin.
  destruct (handle_order_among_run env fds client_socket msg s Henv Hin)
    as (s' & Hid & Hdf & Hsk & Hrun & _).
  cbv zeta. rewrite Hrun.
  repeat match goal with
         | |- context [match ?x with _ => _ end] =>
             lazymatch x with
             | dict_get _ _ => destruct x
             | data_df _ => destruct x
             | iloc _ _ => destruct x
             end
         end; now repeat split.
Qed.

Lemma dict_get_field (order : list (string * json)) (k : string) :
  dict_get (JDict order) k = inr (field k order).
Proof. unfold dict_get, field. now destruct (Dict.lookup k order). Qed.

(** The request at place [i] of requests that are served in turn, on an
    emulator whose counter is at [order_id s]. *)
Lemma orders_in_turn_at (env : nat -> nat -> TWSEmulator -> TWSEmulator)
    (fds : list nat) (df : list (Df.Series Timestamp))
    (reqs : list (nat * json)) :
  one_at_a_time env fds -> (0 < length df)%nat ->
  Forall (fun r => fst r ∈ fds) reqs ->
  forall (j i : nat) (s : TWSEmulator) (client_socket : nat) (msg : json)
         (order : list (string * json)) (sk : Socket),
    data_df s = Some df -> 0 <= order_id s ->
    reqs !! i = Some (client_socket, msg) ->
    dict_get msg "order" = inr (JDict order) ->
    sockets s !! client_socket = Some sk -> write_fails sk = false ->
    let k := order_id s + Z.of_nat i + 1 in
    exists row s',
      df !! Z.to_nat (clamp 0 (Z.of_nat (length df) - 1) k) = Some row /\
      orders_in_turn env j reqs s !! i =
        Some ([Sent client_socket
                 (json_dumps (status_msg k (Df.close row)) +:+ nl)],
              Ok tt s') /\
      order_id s' = k /\
      orders s' !! k =
        Some (mkOrderRecord (field "action" order) (field "quantity" order)
                (Df.close row)).
Proof.
  intros Henv Hlen Hfds.
  induction Hfds as [|[fd0 msg0] reqs Hfd0 Htail IH];
    intros j i s client_socket msg order sk Hdf Hid Hi Hord Hs Hw k;
    [discriminate|].
  simpl in Hfd0. destruct i as [|i].
  - injection Hi as -> ->. simpl orders_in_turn.
    destruct (handle_order_among_run (env j) fds client_socket msg s
                (Henv j) Hfd0) as (s' & Hid' & _ & _ & Hrun & Hrec).
    assert (Hk : k = order_id s + 1) by (unfold k; lia).
    set (n := clamp 0 (Z.of_nat (length df) - 1) k).
    assert (Hn : n = Z.min (order_id s + 1) (Z.of_nat (length df) - 1))
      by (unfold n, clamp; lia).
    destruct (df !! Z.to_nat n) as [row|] eqn:Hrow.
    2: { apply lookup_ge_None in Hrow. lia. }
    assert (Hp : iloc (map Df.close df)
                   (Z.min (order_id s + 1) (Z.of_nat (length df) - 1))
                 = Some (Df.close row)).
    { rewrite <- Hn, iloc_in_range by (rewrite length_map; lia).
      now rewrite list_lookup_fmap, Hrow. }
    exists row, s'. split; [reflexivity|].
    specialize (Hrec (JDict order) (field "action" order)
                  (field "quantity" order) df (Df.close row)
                  Hord (dict_get_field _ _) (dict_get_field _ _) Hdf Hp).
    cbv zeta in Hrun.
    rewrite Hord, !dict_get_field, Hdf, Hp in Hrun.
    unfold reply_log in Hrun. rewrite Hs, Hw in Hrun.
    rewrite Hk. split; [now rewrite Hrun|]. split; [exact Hid'|].
    rewrite Hrec. apply lookup_insert_eq.
  - simpl orders_in_turn. simpl in Hi.
    destruct (handle_order_among_state (env j) fds fd0 msg0 s (Henv j) Hfd0)
      as (Hid' & Hdf' & Hsk').
    set (s1 := state_of (snd (handle_order_among (env j) fd0 msg0 s))) in *.
    pose proof (Forall_lookup_1 _ _ _ _ Htail Hi) as Hin. simpl in Hin.
    destruct (IH (S j) i s1 client_socket msg order sk)
      as (row & s' & Hrow & Hrun & Hid2 & Hrec); try assumption.
    + now rewrite Hdf'.
    + lia.
    + now rewrite (Hsk' _ Hin).
    + exists row, s'.
      replace k with (order_id s1 + Z.of_nat i + 1) by (unfold k; lia).
      now repeat split.
Qed.

(** C4 (as amended). On an emulator whose counter is at its initial 0,
    the order requests that are handled one at a time take the
    identifiers 1, 2, 3, ... in the order in which they are handled,
    whatever the requests before them were and whatever the other
    threads do meanwhile outside [handle_order]: the request at place
    [i] (from 0), when it has an order and its socket takes the write,
    is answered by one [orderStatus] frame that carries the identifier
    [i + 1], the counter is [i + 1] when its call returns, and its
    order is stored under [i + 1]. The call of a handler among threads
    that do nothing is [handle_order] as it is written. *)
Theorem order_ids_count_from_one
    (env : nat -> nat -> TWSEmulator -> TWSEmulator)
    (reqs : list (nat * json)) (s : TWSEmulator)
    (df : list (Df.Series Timestamp)) (i : nat) (client_socket : nat)
    (msg : json) (order : list (string * json)) (sk : Socket) :
  order_id s = 0 -> data_df s = Some df -> (0 < length df)%nat ->
  one_at_a_time env (map fst reqs) ->
  reqs !! i = Some (client_socket, msg) ->
  dict_get msg "order" = inr (JDict order) ->
  sockets s !! client_socket = Some sk -> write_fails sk = false ->
  let k := Z.of_nat i + 1 in
  exists row s',
    df !! Z.to_nat (clamp 0 (Z.of_nat (length df) - 1) k) = Some row /\
    orders_in_turn env 0 reqs s !! i =
      Some ([Sent client_socket
               (json_dumps
                  (JDict [("type", JStr "orderStatus");
                          ("orderId", JInt k);
                          ("status", JStr "Filled");
                          ("avgFillPrice", JFloat (Df.close row))]) +:+ nl)],
            Ok tt s') /\
    order_id s' = k /\
    orders s' !! k =
      Some (mkOrderRecord (field "action" order) (field "quantity" order)
              (Df.close row)) /\
    forall s0,
      handle_order_among (fun _ s1 => s1) client_socket msg s0
      = handle_order client_socket msg s0.
Proof.
  intros Hid Hdf Hlen Henv Hi Hord Hs Hw k.
  assert (Hfds : Forall (fun r : nat * json => fst r ∈ map fst reqs) reqs).
  { apply Forall_forall. intros r Hr. now apply list_elem_of_fmap_2. }
  destruct (orders_in_turn_at env (map fst reqs) df reqs Henv Hlen Hfds
              0%nat i s client_socket msg order sk Hdf ltac:(lia) Hi Hord Hs Hw)
    as (row & s' & Hrow & Hrun & Hid' & Hrec).
  rewrite Hid in *. exists row, s'.
  repeat split; try assumption. apply handle_order_among_alone.
Qed.

End OrderClaims.

Section OrderScenarios.
Import Text Wire Eff Emulator SpecE Demo.
#[local] Existing Instance Ref.lib.

Lemma order_filled_at_clamped_index_witness :
  0 <= clamp 0 (Z.of_nat (length bars) - 1) (order_id emulator + 1)
    <= Z.of_nat (length bars) - 1 /\
  exists row s',
    bars !! Z.to_nat (clamp 0 (Z.of_nat (length bars) - 1)
                        (order_id emulator + 1)) = Some row /\
    handle_order 7 (Client.place_order_msg buy) emulator =
      ([Sent 7
          (json_dumps
             (JDict [("type", JStr "orderStatus");
                     ("orderId", JInt (order_id emulator + 1));
                     ("status", JStr "Filled");
                     ("avgFillPrice", JFloat (Df.close row))]) +:+ nl)],
       Ok tt s') /\
    order_id s' = order_id emulator + 1.
Proof.
  refine (order_filled_at_clamped_index emulator 7 (mkSocket 7 false false)
            (Client.place_order_msg buy)
            [("action", JStr "BUY"); ("quantity", JInt 10)] bars
            eq_refl _ _ eq_refl eq_refl eq_refl).
  - simpl. lia.
  - simpl. lia.
Defined.

Lemma order_ids_count_from_one_witness :
  exists row s',
    bars !! 2%nat = Some row /\
    orders_in_turn accepting 0
      [(7%nat, buy_request);
       (7%nat, JDict [("type", JStr "placeOrder")]);
       (8%nat, sell_request)] two_connections !! 2%nat =
      Some ([Sent 8
               (json_dumps
                  (JDict [("type", JStr "orderStatus");
                          ("orderId", JInt 3);
                          ("status", JStr "Filled");
                          ("avgFillPrice", JFloat (Df.close row))]) +:+ nl)],
            Ok tt s') /\
    order_id s' = 3 /\
    orders s' !! 3 =
      Some (mkOrderRecord (JStr "SELL") (JInt 25) (Df.close row)) /\
    forall s0,
      handle_order_among (fun _ s1 => s1) 8 (sell_request) s0
      = handle_order 8 (sell_request) s0.
Proof.
  refine (order_ids_count_from_one accepting
            [(7%nat, buy_request);
             (7%nat, JDict [("type", JStr "placeOrder")]);
             (8%nat, sell_request)] two_connections bars
            2 8 (sell_request)
            [("action", JStr "SELL"); ("quantity", JInt 25)]
            (mkSocket 8 false false)
            eq_refl eq_refl _ _ eq_refl eq_refl eq_refl eq_refl).
  - simpl. lia.
  - intros i k s. unfold accepting.
    destruct (Nat.eqb i 1 && Nat.eqb k 2); destruct s; repeat split.
Defined.

(** C4, as it is stated, fails when two handlers overlap. The handler
    of connection 7 has run [self.order_id += 1] for the first order of
    the emulator when the handler of connection 8 runs [handle_order]
    for the second; then the first handler goes on. It reads the counter
    again for its reply: both replies carry the identifier 2, no order
    gets the identifier 1, and the order of connection 7 takes the place
    of the other under 2. *)
Lemma overlapping_orders_share_an_identifier :
  let other := handle_order 8 (sell_request) in
  let meanwhile (k : nat) (s : TWSEmulator) :=
    if Nat.eqb k 0 then state_of (snd (other s)) else s in
  let first :=
    handle_order_among meanwhile 7 (buy_request)
      two_connections in
  order_id two_connections = 0 /\
  fst (other (set_order_id 1 two_connections)) =
    [Sent 8
       (json_dumps
          (JDict [("type", JStr "orderStatus"); ("orderId", JInt 2);
                  ("status", JStr "Filled");
                  ("avgFillPrice", JFloat (Float "102.0"))]) +:+ nl)] /\
  fst first =
    [Sent 7
       (json_dumps
          (JDict [("type", JStr "orderStatus"); ("orderId", JInt 2);
                  ("status", JStr "Filled");
                  ("avgFillPrice", JFloat (Float "102.0"))]) +:+ nl)] /\
  order_id (state_of (snd first)) = 2 /\
  orders (state_of (snd first)) !! 1 = None /\
  orders (state_of (snd first)) !! 2 =
    Some (mkOrderRecord (JStr "BUY") (JInt 10) (Float "102.0")).
Proof. repeat split. Qed.

(** One after the other, the same two orders get 1 and 2. *)
Example orders_in_turn_get_one_and_two :
  map fst (orders_in_turn (fun _ _ s => s) 0
             [(7%nat, buy_request);
              (8%nat, sell_request)] two_connections) =
    [[Sent 7 (json_dumps (status_msg 1 (Float "101.0")) +:+ nl)];
     [Sent 8 (json_dumps (status_msg 2 (Float "102.0")) +:+ nl)]].
Proof. reflexivity. Qed.

(** The requests of one connection are handled one after another by
    the thread of its handler. *)
Example orders_of_one_connection :
  fst (handle_client 7 [Data order_frame; Data order_frame] emulator) =
    [Sent 7 (json_dumps (status_msg 1 (Float "101.0")) +:+ nl);
     Sent 7 (json_dumps (status_msg 2 (Float "102.0")) +:+ nl)].
Proof. reflexivity. Qed.

(** The scenario of the specification: one order before any bar has
    been streamed is filled with identifier 1 at the close of the bar at
    index 1; with many orders the index stays at the last bar. *)
Example first_order_filled_at_index_one :
  fst (handle_order 7 (Client.place_order_msg buy) emulator) =
  [Sent 7 (json_dumps (status_msg 1 (Float "101.0")) +:+ nl)].
Proof. reflexivity. Qed.

Example fifth_order_filled_at_last_bar :
  fst (handle_order 7 (Client.place_order_msg buy) (set_order_id 4 emulator)) =
  [Sent 7 (json_dumps (status_msg 5 (Float "102.0")) +:+ nl)].
Proof. reflexivity. Qed.

(** Without data there is no bar to fill at: the call raises and
    nothing is written. *)
Example order_on_empty_data_raises :
  handle_order 7 (Client.place_order_msg buy) (set_data_df (Some []) emulator)
  = ([], Exc IndexError (set_order_id 1 (set_data_df (Some []) emulator))).
Proof. reflexivity. Qed.

End OrderScenarios.

(* ================================================================== *)
(** * The emulator: the streaming task and the flag *)

Section StreamClaims.
Import Text Wire Eff Emulator SpecE.
Context `{PyLib}.

(** Once the flag is cleared the loop writes no further bar. *)
Lemma stream_loop_flag_cleared (env : nat -> TWSEmulator -> TWSEmulator)
    (client_socket : nat) (i : nat) (rows : list (Df.Series Timestamp))
    (s : TWSEmulator) :
  running s = false ->
  stream_loop env client_socket i rows s = ([], Ok tt s).
Proof.
  intros Hr. destruct rows as [|row rows]; [reflexivity|].
  simpl. now rewrite bind_get, Hr.
Qed.

(** What follows the loop does not look at the flag: the task that
    finds the flag cleared goes on to write [endOfData], and the frame
    goes out when the socket still takes it. *)
Lemma stream_bars_flag_cleared (env : nat -> TWSEmulator -> TWSEmulator)
    (client_socket : nat) (sk : Socket) (s : TWSEmulator)
    (la : list event) (df : list (Df.Series Timestamp)) :
  running s = false -> aggregate_to_seconds s = (la, Ok df s) ->
  sockets s !! client_socket = Some sk -> write_fails sk = false ->
  stream_bars env client_socket s =
    (la ++ [Sent client_socket (json_dumps end_of_data_msg +:+ nl);
            Print "Finished streaming bars"],
     Ok tt s).
Proof.
  intros Hr Hagg Hs Hw. unfold stream_bars.
  rewrite (bind_ok _ _ _ _ _ _ Hagg).
  rewrite (bind_ok _ _ _ _ _ _ (stream_loop_flag_cleared env _ 0 df s Hr)).
  rewrite (bind_ok _ _ _ _ _ _ (send_message_run _ _ s)).
  unfold reply_log. rewrite Hs, Hw. reflexivity.
Qed.

End StreamClaims.

Section StreamScenarios.
Import Text Wire Eff Emulator SpecE Demo.
#[local] Existing Instance Ref.lib.

(** C6. The flag is cleared while the task sleeps after the first of
    three bars, and the client socket is still open: the task writes no
    further bar, and then it writes [endOfData]. When [stop] has run to
    its end during that sleep, the task still goes on to the write of
    [endOfData], which fails on the closed socket. *)
Theorem end_of_data_after_flag_cleared :
  fst (stream_bars flag_cleared 7 emulator) =
    [Print "Streaming bar";
     Sent 7 (json_dumps
               (bar_msg (Df.mkSeries "2024-01-02T09:30:00-05:00"
                           (Float "100.0") (Float "100.5") (Float "99.5")
                           (Float "100.0"))) +:+ nl);
     Sent 7 (json_dumps end_of_data_msg +:+ nl);
     Print "Finished streaming bars"] /\
  fst (stream_bars stopped 7 emulator) =
    [Print "Streaming bar";
     Sent 7 (json_dumps
               (bar_msg (Df.mkSeries "2024-01-02T09:30:00-05:00"
                           (Float "100.0") (Float "100.5") (Float "99.5")
                           (Float "100.0"))) +:+ nl);
     Print "Error sending message";
     Print "Finished streaming bars"].
Proof. split; reflexivity. Qed.

(** On the client the frames of the first run end the stream: the one
    bar goes to the callback and [endOfData] is received. *)
Example client_sees_end_of_data_after_flag_cleared :
  fst (Client.listen
         [Data (wire 7 (fst (stream_bars flag_cleared 7 emulator)))]
         Demo.client) =
    [BarCallback 1
       (mkBar "2024-01-02T09:30:00-05:00" (JFloat (Float "100.0"))
          (JFloat (Float "100.5")) (JFloat (Float "99.5"))
          (JFloat (Float "100.0"))) true;
     Print "Received endOfData signal";
     Sent 5 (json_dumps Client.disconnect_msg +:+ nl);
     Closed 5;
     Print "Disconnected from emulator";
     Print "Listen thread exiting"].
Proof. reflexivity. Qed.

End StreamScenarios.

(* ================================================================== *)
(** * Messages that are not understood *)

Section UnknownClaims.
Import Text Wire Eff Spec SpecE.
Context `{PyLib}.

(** The client has nothing to do for the type. *)
Lemma dispatch_unknown (c : Client.TWSClient) (msg ty : json) :
  subscript msg "type" = inr ty ->
  is_str ty "barUpdate" = false -> is_str ty "orderStatus" = false ->
  is_str ty "endOfData" = false ->
  Client.dispatch msg c = ([], Ok false c).
Proof.
  intros Hty H1 H2 H3. unfold Client.dispatch.
  rewrite bind_get, Hty. unfold lift_res. now rewrite bind_ret, H1, H2, H3.
Qed.

Lemma known_type_false (ty : json) :
  known_type ty = false ->
  (is_str ty "barUpdate" = false /\ is_str ty "orderStatus" = false /\
   is_str ty "endOfData" = false) /\
  (is_str ty "reqRealTimeBars" = false /\ is_str ty "placeOrder" = false /\
   is_str ty "disconnect" = false).
Proof.
  unfold known_type. intros Hk.
  repeat (apply orb_false_iff in Hk as [Hk ?]). now repeat split.
Qed.

(** C5 (as amended). A well-formed message whose [type] is there and is
    none of the types of the protocol is ignored by both sides. The
    client's inner loop, with the frame at the head of its buffer, does
    what it does on the rest of the buffer: no effect for the frame, the
    client unchanged, the frames after it processed. The emulator's
    handler, on a read that is the frame, does what it does on the reads
    that follow: no reply, nothing changed. The handler does the same on
    a message without [type]. *)
Theorem unknown_type_ignored (c : Client.TWSClient) (n : nat)
    (line rest : string) (kvs : list (string * json)) (ty : json)
    (s : Emulator.TWSEmulator) (client_socket : nat) (sk : Socket)
    (reads : list recv_result) (untyped : string)
    (kvs0 : list (string * json)) :
  json_loads line = Some (JDict kvs) ->
  json_loads (line +:+ nl) = Some (JDict kvs) ->
  has_nl line = false -> strip_nonempty line = true ->
  Dict.lookup "type" kvs = Some ty -> known_type ty = false ->
  Emulator.running s = true ->
  Emulator.sockets s !! client_socket = Some sk -> closed sk = false ->
  json_loads untyped = Some (JDict kvs0) -> nonempty untyped = true ->
  Dict.lookup "type" kvs0 = None ->
  Client.drain (S n) (Client.mkListen c (line +:+ nl +:+ rest))
    = Client.drain n (Client.mkListen c rest) /\
  Emulator.handle_client client_socket (Data (line +:+ nl) :: reads) s
    = Emulator.handle_client client_socket reads s /\
  Emulator.handle_client client_socket (Data untyped :: reads) s
    = Emulator.handle_client client_socket reads s.
Proof.
  intros Hline Hframe Hnl Hstrip Hty Hk Hr Hs Hcl Hun Hne Hnone.
  destruct (known_type_false ty Hk) as [(C1 & C2 & C3) (S1 & S2 & S3)].
  repeat split.
  - rewrite drain_step. cbn [Client.buffer Client.self].
    rewrite (split_nl_frame line rest Hnl). cbv zeta.
    rewrite Hstrip, Hline. unfold bind. rewrite on_self_run.
    rewrite (dispatch_unknown c (JDict kvs) ty); try assumption.
    + simpl. now destruct (Client.drain n _).
    + unfold subscript. now rewrite Hty.
  - rewrite (handle_client_data client_socket sk); try assumption.
    + rewrite (process_message_ignored _ _ (JDict kvs) ty); try assumption.
      * now destruct (Emulator.handle_client client_socket reads s).
      * unfold dict_get. now rewrite Hty.
    + destruct line; reflexivity.
  - rewrite (handle_client_data client_socket sk); try assumption.
    rewrite (process_message_ignored _ _ (JDict kvs0) JNull);
      try assumption; try reflexivity.
    + now destruct (Emulator.handle_client client_socket reads s).
    + unfold dict_get. now rewrite Hnone.
Qed.

End UnknownClaims.

Section UnknownScenarios.
Import Text Wire Eff Spec SpecE Demo.
#[local] Existing Instance Ref.lib.

Lemma unknown_type_ignored_witness :
  Client.drain 101 (Client.mkListen Demo.client
                      (json_dumps (JDict ping) +:+ nl +:+ order_frame))
    = Client.drain 100 (Client.mkListen Demo.client order_frame) /\
  Emulator.handle_client 7
      [Data (json_dumps (JDict ping) +:+ nl); Data order_frame] emulator
    = Emulator.handle_client 7 [Data order_frame] emulator /\
  Emulator.handle_client 7 [Data no_type_frame; Data order_frame] emulator
    = Emulator.handle_client 7 [Data order_frame] emulator.
Proof.
  exact (unknown_type_ignored Demo.client 100 (json_dumps (JDict ping))
           order_frame ping (JStr "ping") emulator 7 (mkSocket 7 false false)
           [Data order_frame] no_type_frame [("foo", JInt 1)]
           eq_refl eq_refl eq_refl eq_refl eq_refl eq_refl eq_refl eq_refl
           eq_refl eq_refl eq_refl eq_refl).
Defined.

(** C5, as it is stated, fails on the client: a well-formed message
    without [type] makes [msg['type']] raise, the handler for other
    exceptions disconnects, and the connection is closed. *)
Lemma client_disconnects_on_message_without_type :
  json_loads no_type_frame = Some (JDict [("foo", JInt 1)]) /\
  Client.listen [Data no_type_frame; Data order_frame] Demo.client =
    ([Print "Client listen error";
      Sent 5 (json_dumps Client.disconnect_msg +:+ nl);
      Closed 5;
      Print "Disconnected from emulator";
      Print "Listen thread exiting"],
     Ok tt (disconnected (mkSocket 5 false false) Demo.client)).
Proof. split; reflexivity. Qed.

(** It fails on the emulator too: an order request without [order]
    takes an identifier, raises in [handle_order], and ends the handler,
    which reads no further frame. *)
Example handler_ends_on_order_without_order :
  json_loads no_order_frame = Some (JDict [("type", JStr "placeOrder")]) /\
  Emulator.handle_client 7 [Data no_order_frame; Data order_frame] emulator =
    ([Print "Error handling client"],
     Ok tt (Emulator.set_order_id 1 emulator)).
Proof. split; reflexivity. Qed.

End UnknownScenarios.

(* ================================================================== *)
(** * Framing *)

Section FramingClaims.
Import Text Wire Eff Client Spec.
Context `{PyLib}.

Local Arguments drain : simpl never.
Local Arguments listen_loop : simpl never.

Lemma messages_split (s : string) :
  messages s =
  match split_nl s with
  | None => []
  | Some (line, rest) =>
      if strip_nonempty line then
        match json_loads line with
        | Some msg => msg :: messages rest
        | None => messages rest
        end
      else messages rest
  end.
Proof.
  unfold messages. rewrite (lines_split s).
  destruct (split_nl s) as [[line rest]|]; [|reflexivity].
  simpl. destruct (strip_nonempty line); [|reflexivity].
  now destruct (json_loads line).
Qed.

Lemma dispatch_all_cons (msg : json) (msgs : list json) :
  dispatch_all (msg :: msgs) =
  (brk <- dispatch msg;; if brk then ret true else dispatch_all msgs)%eff.
Proof. reflexivity. Qed.

(** Dispatching to a client in service: the client stays as it is
    until a message ends the task, and an exception is never a
    [JSONDecodeError]. *)
Lemma dispatch_all_live (msgs : list json) (c : TWSClient) :
  live c = true ->
  match dispatch_all msgs c with
  | (_, Ok false c') => c' = c
  | (_, Ok true c') => running c' = false
  | (_, Exc e c') => c' = c /\ e <> JSONDecodeError
  | (_, Blocked _ _) => False
  end.
Proof.
  intros Hlive. destruct (live_inv _ Hlive) as (Hc & Hr & Hl & sk & Hs & Hk).
  induction msgs as [|msg msgs IH]; [reflexivity|].
  rewrite dispatch_all_cons. destruct (is_end msg) eqn:He.
  - rewrite (bind_ok _ _ _ _ _ _ (dispatch_end_live msg c sk He Hc Hl Hs)).
    simpl. destruct c; reflexivity.
  - destruct (dispatch_not_end msg c He) as [[l Hd]|(e & Hne & Hd)].
    + rewrite (bind_ok _ _ _ _ _ _ Hd). simpl.
      destruct (dispatch_all msgs c) as [l' [[|] c'|e c'|w c']]; exact IH.
    + rewrite (bind_exc _ _ _ _ _ _ Hd). now split.
Qed.

(** The inner loop dispatches the messages of the complete frames of
    its buffer, in order. *)
Lemma drain_messages (n : nat) (st : ListenState) :
  live (self st) = true -> (String.length (buffer st) < n)%nat ->
  frames_decodable (buffer st) = true ->
  forget (drain n st) = void (dispatch_all (messages (buffer st)) (self st)).
Proof.
  revert st. induction n as [|n IH]; intros st Hlive Hn Hdec; [lia|].
  destruct (live_inv _ Hlive) as (Hc & Hr & Hl & sk & Hs & Hk).
  rewrite drain_step, messages_split.
  destruct (split_nl (buffer st)) as [[line rest]|] eqn:Hsp; [|reflexivity].
  pose proof (split_nl_length _ _ _ Hsp) as Hlen.
  rewrite (frames_decodable_split _ _ _ Hsp) in Hdec.
  apply andb_true_iff in Hdec as [Hline Hrest].
  specialize (IH (mkListen (self st) rest) Hlive ltac:(simpl; lia) Hrest).
  simpl in IH. cbv zeta. unfold decodes in Hline.
  destruct (strip_nonempty line); [|exact IH].
  destruct (json_loads line) as [msg|]; [|discriminate].
  rewrite dispatch_all_cons. unfold bind. rewrite on_self_run. unfold retag.
  destruct (is_end msg) eqn:He.
  - rewrite (dispatch_end_live msg _ sk He Hc Hl Hs). reflexivity.
  - destruct (dispatch_not_end msg (self st) He) as [[l ->]|(e & _ & ->)];
      [|reflexivity].
    simpl.
    destruct (drain n (mkListen (self st) rest)) as [l1 o1].
    destruct (dispatch_all (messages rest) (self st)) as [l2 o2].
    unfold forget, void in *. simpl in *. injection IH as -> Ho.
    now rewrite Ho.
Qed.

(** One read that brings the text of the stream. *)
Lemma listen_one_read (c : TWSClient) (text : string) :
  live c = true -> nonempty text = true -> frames_decodable text = true ->
  listen [Data text] c = deliver (messages text) c.
Proof.
  intros Hlive Hne Hdec.
  destruct (live_inv _ Hlive) as (Hc & Hr & Hl & sk & Hs & Hk).
  rewrite listen_forget, listen_loop_data by assumption.
  rewrite str_app_empty_l.
  pose proof (drain_messages (S (String.length text)) (mkListen c text)
                Hlive ltac:(simpl; lia) Hdec) as Hd.
  pose proof (dispatch_all_live (messages text) c Hlive) as Hres.
  simpl in Hd. unfold deliver, bind, try_except.
  destruct (dispatch_all (messages text) c) as [l [b c'|e c'|w c']];
    [| |contradiction];
    destruct (drain _ (mkListen c text)) as [l2 [a st1|e2 st1|w2 st1]];
    unfold forget, void in Hd; simpl in Hd; try discriminate;
    destruct st1 as [c1 b1]; simpl in Hd.
  - injection Hd as Hl2 Hc1. subst l2 c1. unfold after_drain. destruct b.
    + rewrite listen_loop_stopped by exact Hres. simpl.
      now rewrite !List.app_nil_r.
    + subst c'. rewrite listen_loop_waits by exact Hr. simpl.
      now rewrite !List.app_nil_r.
  - injection Hd as Hl2 He2 Hc1. subst l2 e2 c1. destruct Hres as [-> Hne'].
    unfold after_drain.
    destruct e; try congruence; unfold bind; rewrite on_self_run;
      unfold emit; cbv beta iota;
      rewrite (disconnect_connected c sk Hc Hl Hs);
      unfold retag, forget, prepend, ret; simpl;
      rewrite ?List.app_nil_r, <- ?List.app_assoc; reflexivity.
Qed.

(** The reads that bring a text in parts. *)
Lemma listen_delivers (c : TWSClient) (chunks : list string) :
  live c = true -> forallb nonempty chunks = true ->
  frames_decodable (join chunks) = true ->
  listen (map Data chunks) c = deliver (messages (join chunks)) c.
Proof.
  intros Hlive Hne Hdec.
  destruct (live_inv _ Hlive) as (Hc & Hr & Hl & sk & Hs & Hk).
  destruct chunks as [|d ds].
  - rewrite listen_forget, listen_loop_waits by exact Hr. reflexivity.
  - simpl in Hne. apply andb_true_iff in Hne as [Hd Hds].
    rewrite <- listen_one_read; try assumption.
    + rewrite !listen_forget.
      pose proof (listen_chunks c EmptyString d ds [] Hlive Hd Hds) as Hch.
      rewrite List.app_nil_r in Hch. now rewrite Hch.
    + now apply nonempty_app_l.
Qed.

(** C1 (as amended). The client's receive task buffers what it reads
    and decodes complete frames only. A client in service reads a byte
    stream in reads that are not empty and that each end where a
    character ends, and every complete frame of the text of the stream
    decodes. Then, when the task has made these reads, it has
    dispatched the messages of the complete frames of the stream, all
    of them and in their order, up to one that ends the task, and
    nothing of the frame that is not yet complete; and with any other
    such split of the same bytes, splits inside a frame included, and
    whatever the reads that follow, it does the same: the same
    callbacks in the same order, the same other effects, the same
    client at the end. *)
Theorem listen_delivers_complete_frames (c : TWSClient)
    (reads1 reads2 : list (list Byte.byte)) (text : string)
    (rest : list recv_result) :
  live c = true ->
  forallb whole_characters reads1 = true ->
  forallb whole_characters reads2 = true ->
  concat reads1 = concat reads2 ->
  Utf8.decode (concat reads1) = Some text ->
  frames_decodable text = true ->
  listen (map received reads1) c = deliver (messages text) c /\
  listen (map received reads1 ++ rest) c
    = listen (map received reads2 ++ rest) c.
Proof.
  intros Hlive H1 H2 Hcat Htext Hdec.
  destruct (reads_text reads1 H1) as (chunks1 & Hm1 & Hne1 & Ht1).
  destruct (reads_text reads2 H2) as (chunks2 & Hm2 & Hne2 & Ht2).
  rewrite Htext in Ht1. injection Ht1 as ->.
  rewrite <- Hcat, Htext in Ht2. injection Ht2 as Hjoin.
  rewrite Hm1, Hm2. split; [now apply listen_delivers|].
  rewrite !listen_forget.
  enough (Hf : forget (listen_loop (map Data chunks1 ++ rest)
                         (mkListen c EmptyString))
               = forget (listen_loop (map Data chunks2 ++ rest)
                           (mkListen c EmptyString))) by now rewrite Hf.
  destruct chunks1 as [|d1 ds1].
  - symmetry in Hjoin. now rewrite (join_empty chunks2 Hne2 Hjoin).
  - destruct chunks2 as [|d2 ds2].
    + now apply join_empty in Hjoin.
    + simpl in Hne1, Hne2.
      apply andb_true_iff in Hne1 as [Hd1 Hds1].
      apply andb_true_iff in Hne2 as [Hd2 Hds2].
      rewrite !listen_chunks; try assumption.
      * now rewrite Hjoin.
      * rewrite str_app_empty_l, <- Hjoin. exact Hdec.
Qed.

(** A read that ends inside a frame has no effect: the text waits in
    the buffer for the rest of the frame. *)
Lemma listen_partial_frame (c : TWSClient) (d : string) :
  live c = true -> nonempty d = true -> has_nl d = false ->
  listen [Data d] c = ([], Blocked OnRecv c) /\
  listen_loop [Data d] (mkListen c EmptyString)
    = ([], Blocked OnRecv (mkListen c d)).
Proof.
  intros Hlive Hd Hnl.
  destruct (live_inv _ Hlive) as (Hc & Hr & Hl & sk & Hs & Hk).
  assert (Hloop : listen_loop [Data d] (mkListen c EmptyString)
                  = ([], Blocked OnRecv (mkListen c d))).
  { rewrite listen_loop_data by assumption.
    rewrite str_app_empty_l, drain_step. simpl buffer.
    unfold has_nl in Hnl. destruct (split_nl d); [discriminate|].
    unfold after_drain. now rewrite listen_loop_waits. }
  split; [|exact Hloop]. now rewrite listen_forget, Hloop.
Qed.

End FramingClaims.

Section FramingScenarios.
Import Text Wire Eff Spec SpecE Demo.
#[local] Existing Instance Ref.lib.

Lemma listen_delivers_complete_frames_witness :
  Client.listen (map received delivery_reads) Demo.client =
    ([OrderStatusCallback 2
        (mkTrade (JInt 7) (JStr accent) (JFloat (Float "101.0")));
      BarCallback 1
        (mkBar "2024-01-02T09:30:00-05:00" (JFloat (Float "100.0"))
           (JFloat (Float "100.5")) (JFloat (Float "99.5"))
           (JFloat (Float "100.0"))) true],
     Blocked OnRecv Demo.client) /\
  Client.listen (map received delivery_reads ++ [Data EmptyString]) Demo.client
  = Client.listen (map received [delivery_bytes] ++ [Data EmptyString])
      Demo.client.
Proof.
  exact (listen_delivers_complete_frames Demo.client delivery_reads
           [delivery_bytes] delivery [Data EmptyString]
           eq_refl eq_refl eq_refl eq_refl eq_refl eq_refl).
Defined.

(** C1, as it is stated, fails on the emulator. Its handler has no
    buffer: every read goes to [json.loads] as it is. The frame of an
    order in one read is decoded and answered; the same frame in two
    reads is two texts that do not decode, and two frames in one read
    are one text that does not decode. *)
Lemma handle_client_depends_on_split :
  join [order_head; order_tail] = order_frame /\
  fst (Emulator.handle_client 7 [Data order_frame] emulator)
    = [Sent 7 (json_dumps (Emulator.status_msg 1 (Float "101.0")) +:+ nl)] /\
  fst (Emulator.handle_client 7 [Data order_head; Data order_tail] emulator)
    = [Print "Invalid message"; Print "Invalid message"] /\
  fst (Emulator.handle_client 7 [Data (order_frame +:+ order_frame)] emulator)
    = [Print "Invalid message"].
Proof. repeat split. Qed.

(** On the client a frame that does not decode ends the inner loop of
    its read: the complete frames behind it wait for the next read, so
    that with such a frame the split matters. *)
Example listen_defers_frames_after_a_bad_one :
  let bad := "{" +:+ nl in
  let good := json_dumps (Emulator.status_msg 1 (Float "101.0")) +:+ nl in
  fst (Client.listen [Data (bad +:+ good); Data EmptyString] Demo.client)
    = [Print "Client JSON error"; Print "Socket closed by emulator";
       Sent 5 (json_dumps Client.disconnect_msg +:+ nl); Closed 5;
       Print "Disconnected from emulator"; Print "Listen thread exiting"] /\
  fst (Client.listen [Data bad; Data good; Data EmptyString] Demo.client)
    = [Print "Client JSON error";
       OrderStatusCallback 2
         (mkTrade (JInt 1) (JStr "Filled") (JFloat (Float "101.0")));
       Print "Socket closed by emulator";
       Sent 5 (json_dumps Client.disconnect_msg +:+ nl); Closed 5;
       Print "Disconnected from emulator"; Print "Listen thread exiting"].
Proof. split; reflexivity. Qed.

(** The bytes of a frame in two reads of which the first ends inside
    a character. Every read is decoded on its own: [decode] raises on
    the first read, and the task disconnects. The same bytes in one
    read bring the status to the callback. *)
Example listen_read_ends_inside_a_character :
  let bytes := Utf8.encode accent_frame in
  take 52 bytes ++ drop 52 bytes = bytes /\
  Utf8.decode (take 52 bytes) = None /\
  Client.listen [received bytes] Demo.client =
    ([OrderStatusCallback 2
        (mkTrade (JInt 7) (JStr accent) (JFloat (Float "101.0")))],
     Blocked OnRecv Demo.client) /\
  Client.listen [received (take 52 bytes); received (drop 52 bytes)]
    Demo.client =
    ([Print "Client listen error";
      Sent 5 (json_dumps Client.disconnect_msg +:+ nl);
      Closed 5;
      Print "Disconnected from emulator";
      Print "Listen thread exiting"],
     Ok tt (disconnected (mkSocket 5 false false) Demo.client)).
Proof. repeat split. Qed.

End FramingScenarios.

(* ================================================================== *)
(** * From the emulator to the callbacks *)

Section DeliveryClaims.
Import Text Wire Eff Client Spec SpecE.
Context `{PyLib}.

Local Arguments drain : simpl never.
Local Arguments listen_loop : simpl never.

Lemma drain_empty (n : nat) (c : TWSClient) :
  drain n (mkListen c EmptyString) = ([], Ok tt (mkListen c EmptyString)).
Proof. destruct n; [reflexivity|]. now rewrite drain_step. Qed.

Lemma write_ok_open (sk : Socket) : write_fails sk = false -> closed sk = false.
Proof. unfold write_fails. now intros [? ?]%orb_false_iff. Qed.

Lemma live_intro (c : TWSClient) (sk : Socket) :
  connected c = true -> running c = true -> lock c = false ->
  socket c = Some sk -> closed sk = false -> live c = true.
Proof. unfold live. now intros -> -> -> -> ->. Qed.

Lemma frames_decodable_frame (msg : json) (rest : string) :
  travels msg ->
  frames_decodable (json_dumps msg +:+ nl +:+ rest) = frames_decodable rest.
Proof.
  intros (Hl & Hnl & Hst).
  rewrite (frames_decodable_split _ _ _ (split_nl_frame _ rest Hnl)).
  unfold decodes. now rewrite Hst, Hl.
Qed.

(** The inner loop on the frame of a message at the head of the
    buffer: the message is dispatched with the rest in the buffer. *)
Lemma drain_frame (n : nat) (c : TWSClient) (msg : json) (rest : string) :
  travels msg ->
  drain (S n) (mkListen c (json_dumps msg +:+ nl +:+ rest)) =
  bind (on_self (dispatch msg))
    (fun brk : bool => if brk then ret tt else drain n) (mkListen c rest).
Proof.
  intros (Hl & Hnl & Hst). rewrite drain_step. cbn [buffer self].
  rewrite (split_nl_frame _ rest Hnl). cbv zeta. now rewrite Hst, Hl.
Qed.

Lemma dispatch_status (c : TWSClient) (cb : nat) (k : Z) (p : pyfloat) :
  order_status_callback c = Some cb ->
  dispatch (Emulator.status_msg k p) c =
    ([OrderStatusCallback cb (mkTrade (JInt k) (JStr "Filled") (JFloat p))],
     Ok false c).
Proof.
  intros Hcb. unfold dispatch. rewrite bind_get. simpl.
  destruct (bar_callback c); now rewrite Hcb.
Qed.

Lemma dispatch_bar (c : TWSClient) (cb : nat) (row : Df.Series Timestamp) :
  bar_callback c = Some cb ->
  to_datetime (JStr (isoformat (Df.date row))) = Some (Df.date row) ->
  dispatch (Emulator.bar_msg row) c =
    ([BarCallback cb (bar_of row) true], Ok false c).
Proof.
  intros Hcb Ht. unfold dispatch. rewrite bind_get. simpl.
  rewrite Hcb, bind_ret. simpl. rewrite bind_ret, Ht. simpl.
  rewrite !bind_ret, bind_emit. reflexivity.
Qed.

(** C9. [place_order] on a connected client whose write succeeds writes
    one frame, the order request with the action and the quantity of
    the order, and returns [id(order)] with the client as it was; it
    reads nothing from the socket (the status callback, when there is
    one, is called with a trade made on the spot). The reply of the
    emulator reaches the callback through the receive task, when its
    frame is read. *)
Theorem place_order_returns_at_once (c : TWSClient) (sk : Socket)
    (order : Order) (cb : nat) (k : Z) (p : pyfloat) :
  connected c = true -> running c = true -> lock c = false ->
  socket c = Some sk -> write_fails sk = false ->
  order_status_callback c = Some cb ->
  travels (JDict [("type", JStr "orderStatus"); ("orderId", JInt k);
                  ("status", JStr "Filled"); ("avgFillPrice", JFloat p)]) ->
  place_order order c =
    ([Sent (fd sk)
        (json_dumps
           (JDict [("type", JStr "placeOrder");
                   ("order", JDict [("action", action order);
                                    ("quantity", totalQuantity order)])])
         +:+ nl);
      OrderStatusCallback cb
        (mkTrade (JInt (id order)) (JStr "Filled") (JFloat (Float "0.0")))],
     Ok (id order) c) /\
  listen
    [Data (json_dumps
             (JDict [("type", JStr "orderStatus"); ("orderId", JInt k);
                     ("status", JStr "Filled"); ("avgFillPrice", JFloat p)])
           +:+ nl)] c =
    ([OrderStatusCallback cb (mkTrade (JInt k) (JStr "Filled") (JFloat p))],
     Blocked OnRecv c).
Proof.
  intros Hc Hr Hl Hs Hw Hcb Htr. split.
  - rewrite (place_order_connected c sk order Hc Hl Hs Hw). now rewrite Hcb.
  - change (JDict [("type", JStr "orderStatus"); ("orderId", JInt k);
                   ("status", JStr "Filled"); ("avgFillPrice", JFloat p)])
      with (Emulator.status_msg k p) in *.
    pose proof (live_intro c sk Hc Hr Hl Hs (write_ok_open sk Hw)) as Hlive.
    rewrite listen_forget, listen_loop_data; [|assumption|].
    2: { destruct (json_dumps (Emulator.status_msg k p)); reflexivity. }
    rewrite str_app_empty_l.
    rewrite <- (str_app_empty_r (json_dumps _ +:+ nl)), str_app_assoc.
    rewrite drain_frame by assumption.
    unfold bind. rewrite on_self_run, (dispatch_status c cb k p Hcb).
    simpl. rewrite drain_empty. unfold after_drain, prepend.
    rewrite listen_loop_waits by assumption. reflexivity.
Qed.

(** The bars of the emulator reach the callback one by one. *)
Lemma drain_bar_frames (c : TWSClient) (cb : nat)
    (rows : list (Df.Series Timestamp)) (tail : string) (n : nat) :
  bar_callback c = Some cb ->
  Forall (fun row => travels (Emulator.bar_msg row) /\
                     to_datetime (JStr (isoformat (Df.date row)))
                     = Some (Df.date row)) rows ->
  (String.length (bar_frames rows +:+ tail) < n)%nat ->
  drain n (mkListen c (bar_frames rows +:+ tail)) =
  prepend (map (fun row => BarCallback cb (bar_of row) true) rows)
    (drain (S (String.length tail)) (mkListen c tail)).
Proof.
  intros Hcb Hrows. revert n.
  induction Hrows as [|row rows [Htr Ht] _ IH]; intros n Hn.
  - unfold bar_frames in *. simpl in *. rewrite str_app_empty_l in *.
    rewrite prepend_nil. apply drain_fuel; simpl; lia.
  - unfold bar_frames in *. simpl join in *.
    rewrite !str_app_assoc in *.
    destruct n as [|n]; [lia|].
    rewrite drain_frame by assumption.
    unfold bind. rewrite on_self_run, (dispatch_bar c cb row Hcb Ht). simpl.
    rewrite IH.
    + unfold prepend. reflexivity.
    + rewrite !str_length_app in *.
      change (String.length nl) with 1%nat in Hn. lia.
Qed.

Lemma frames_decodable_bars (rows : list (Df.Series Timestamp)) (tail : string) :
  Forall (fun row => travels (Emulator.bar_msg row) /\
                     to_datetime (JStr (isoformat (Df.date row)))
                     = Some (Df.date row)) rows ->
  frames_decodable (bar_frames rows +:+ tail) = frames_decodable tail.
Proof.
  induction 1 as [|row rows [Htr _] _ IH]; [reflexivity|].
  unfold bar_frames in *. simpl join. rewrite !str_app_assoc.
  now rewrite frames_decodable_frame.
Qed.

Lemma aggregate_to_seconds_wire (client_socket : nat) (s : Emulator.TWSEmulator) :
  wire client_socket (fst (Emulator.aggregate_to_seconds s)) = EmptyString.
Proof.
  unfold Emulator.aggregate_to_seconds. rewrite bind_get.
  destruct (Emulator.data_df s) as [df|]; unfold lift_opt;
    [rewrite bind_ret | now rewrite bind_raise].
  destruct (Emulator.Qltb _ 2); [reflexivity|].
  destruct (Emulator.Qltb _ 10); [|reflexivity].
  now rewrite bind_emit.
Qed.

(** What the streaming task writes when nothing stops it: the frames of
    the bars in the order of the rows, then the frame of [endOfData]. *)
Lemma stream_bars_wire (env : nat -> Emulator.TWSEmulator -> Emulator.TWSEmulator)
    (client_socket : nat) (sk : Socket) (s : Emulator.TWSEmulator)
    (rows : list (Df.Series Timestamp)) :
  keeps env client_socket -> Emulator.running s = true ->
  Emulator.sockets s !! client_socket = Some sk -> write_fails sk = false ->
  snd (Emulator.aggregate_to_seconds s) = Ok rows s ->
  wire client_socket (fst (Emulator.stream_bars env client_socket s))
  = bar_frames rows +:+ json_dumps Emulator.end_of_data_msg +:+ nl.
Proof.
  intros Henv Hr Hs Hw Hagg. unfold Emulator.stream_bars.
  pose proof (aggregate_to_seconds_wire client_socket s) as Hla.
  destruct (Emulator.aggregate_to_seconds s) as [la o] eqn:Ha.
  simpl in Hagg, Hla. subst o.
  rewrite (bind_ok _ _ _ _ _ _ Ha).
  destruct (stream_loop_run env client_socket sk rows 0 s Henv Hr Hs Hw)
    as (s' & Hloop & Hr' & Hs').
  rewrite (bind_ok _ _ _ _ _ _ Hloop).
  rewrite (bind_ok _ _ _ _ _ _ (send_message_run _ _ s')).
  unfold reply_log. rewrite Hs', Hw. simpl.
  rewrite !wire_app, Hla, wire_bar_log, str_app_empty_l. simpl.
  rewrite Nat.eqb_refl. now rewrite str_app_empty_r.
Qed.

(** C2. The emulator streams the [rows] that [aggregate_to_seconds]
    returns, with its flag set and the socket of the stream open
    throughout; the frames go through the wire; the client is in service
    with a bar callback. Then, however the stream is split into reads,
    the receive task calls the bar callback once for every row, in the
    order of the rows, then receives [endOfData] once, disconnects and
    ends. *)
Theorem every_bar_then_end_of_data
    (env : nat -> Emulator.TWSEmulator -> Emulator.TWSEmulator)
    (client_socket : nat) (ssk : Socket) (s : Emulator.TWSEmulator)
    (rows : list (Df.Series Timestamp))
    (c : TWSClient) (sk : Socket) (cb : nat)
    (chunks : list string) (reads : list recv_result) :
  keeps env client_socket -> Emulator.running s = true ->
  Emulator.sockets s !! client_socket = Some ssk -> write_fails ssk = false ->
  snd (Emulator.aggregate_to_seconds s) = Ok rows s ->
  Forall (fun row => travels (Emulator.bar_msg row) /\
                     to_datetime (JStr (isoformat (Df.date row)))
                     = Some (Df.date row)) rows ->
  travels Emulator.end_of_data_msg ->
  live c = true -> socket c = Some sk -> bar_callback c = Some cb ->
  forallb nonempty chunks = true ->
  join chunks
    = wire client_socket (fst (Emulator.stream_bars env client_socket s)) ->
  listen (map Data chunks ++ reads) c =
    (map (fun row => BarCallback cb (bar_of row) true) rows
     ++ Print "Received endOfData signal" :: disconnect_log sk
     ++ [Print "Listen thread exiting"],
     Ok tt (disconnected sk c)).
Proof.
  intros Henv Hr Hs Hw Hagg Hrows Hend Hlive Hsk Hcb Hne Hjoin.
  rewrite (stream_bars_wire env client_socket ssk s rows) in Hjoin
    by assumption.
  destruct (live_inv _ Hlive) as (Hc & Hrun & Hl & sk' & Hs' & Hk).
  rewrite Hsk in Hs'. injection Hs' as <-.
  set (W := bar_frames rows +:+ json_dumps Emulator.end_of_data_msg +:+ nl)
    in *.
  assert (HW : nonempty W = true).
  { unfold W. destruct (bar_frames rows); [|reflexivity].
    rewrite str_app_empty_l.
    destruct (json_dumps Emulator.end_of_data_msg); reflexivity. }
  assert (Hdec : frames_decodable W = true).
  { unfold W. rewrite frames_decodable_bars by assumption.
    rewrite <- (str_app_empty_r (json_dumps _ +:+ nl)), str_app_assoc.
    now rewrite frames_decodable_frame. }
  rewrite listen_forget.
  destruct chunks as [|d ds].
  { simpl in Hjoin. rewrite <- Hjoin in HW. discriminate. }
  simpl in Hne. apply andb_true_iff in Hne as [Hd Hds].
  rewrite listen_chunks; try assumption.
  2: { rewrite str_app_empty_l, Hjoin. exact Hdec. }
  rewrite Hjoin, listen_loop_data, str_app_empty_l by assumption.
  unfold W at 2.
  rewrite (drain_bar_frames c cb rows _ _ Hcb Hrows) by (fold W; lia).
  rewrite <- (str_app_empty_r (json_dumps _ +:+ nl)), str_app_assoc.
  rewrite drain_frame by assumption.
  unfold bind at 1. rewrite on_self_run.
  rewrite (dispatch_end_live Emulator.end_of_data_msg c sk eq_refl Hc Hl Hsk).
  simpl.
  unfold after_drain, prepend. simpl.
  rewrite listen_loop_stopped by (destruct c; reflexivity).
  simpl. rewrite !List.app_nil_r, <- List.app_assoc. reflexivity.
Qed.

End DeliveryClaims.

Section DeliveryScenarios.
Import Text Wire Eff Spec SpecE Demo.
#[local] Existing Instance Ref.lib.

Lemma place_order_returns_at_once_witness :
  Client.place_order sell Demo.client =
    ([Sent 5
        (json_dumps
           (JDict [("type", JStr "placeOrder");
                   ("order", JDict [("action", JStr "SELL");
                                    ("quantity", JInt 25)])])
         +:+ nl);
      OrderStatusCallback 2
        (mkTrade (JInt 140610) (JStr "Filled") (JFloat (Float "0.0")))],
     Ok 140610 Demo.client) /\
  Client.listen
    [Data (json_dumps
             (JDict [("type", JStr "orderStatus"); ("orderId", JInt 1);
                     ("status", JStr "Filled");
                     ("avgFillPrice", JFloat (Float "101.0"))])
           +:+ nl)]
    Demo.client =
    ([OrderStatusCallback 2
        (mkTrade (JInt 1) (JStr "Filled") (JFloat (Float "101.0")))],
     Blocked OnRecv Demo.client).
Proof.
  exact (place_order_returns_at_once Demo.client (mkSocket 5 false false) sell
           2%nat 1 (Float "101.0") eq_refl eq_refl eq_refl eq_refl eq_refl
           eq_refl (conj eq_refl (conj eq_refl eq_refl))).
Defined.

Lemma every_bar_then_end_of_data_witness :
  Client.listen (map Data stream_reads ++ [RecvError]) Demo.client =
    (map (fun row => BarCallback 1 (bar_of row) true) bars
     ++ Print "Received endOfData signal"
          :: disconnect_log (mkSocket 5 false false)
     ++ [Print "Listen thread exiting"],
     Ok tt (disconnected (mkSocket 5 false false) Demo.client)).
Proof.
  refine (every_bar_then_end_of_data quiet 7 (mkSocket 7 false false) emulator
            bars Demo.client (mkSocket 5 false false) 1 stream_reads [RecvError]
            _ eq_refl eq_refl eq_refl eq_refl _ _ eq_refl eq_refl eq_refl
            eq_refl eq_refl).
  - intros i s. split; reflexivity.
  - repeat constructor.
  - repeat split.
Defined.

(** The scenario of the specification: three bars, then one
    [endOfData]. *)
Example three_bars_then_end_of_data :
  fst (Emulator.stream_bars quiet 7 emulator) =
    [Print "Streaming bar";
     Sent 7 (json_dumps (Emulator.bar_msg (Df.mkSeries
       "2024-01-02T09:30:00-05:00" (Float "100.0") (Float "100.5")
       (Float "99.5") (Float "100.0"))) +:+ nl);
     Print "Streaming bar";
     Sent 7 (json_dumps (Emulator.bar_msg (Df.mkSeries
       "2024-01-02T09:30:05-05:00" (Float "100.0") (Float "101.5")
       (Float "100.0") (Float "101.0"))) +:+ nl);
     Print "Streaming bar";
     Sent 7 (json_dumps (Emulator.bar_msg (Df.mkSeries
       "2024-01-02T09:30:10-05:00" (Float "101.0") (Float "102.5")
       (Float "101.0") (Float "102.0"))) +:+ nl);
     Sent 7 (json_dumps Emulator.end_of_data_msg +:+ nl);
     Print "Finished streaming bars"].
Proof. reflexivity. Qed.

End DeliveryScenarios.

(* ================================================================== *)
(** * What the computations respect *)

Section RespectFacts.
Import Text Wire Eff SpecX.
Context `{PyLib}.
Context {S : Type} (Pev : event -> Prop) (R RB : S -> S -> Prop).
Hypothesis R_refl : forall s, R s s.
Hypothesis R_trans : forall s1 s2 s3, R s1 s2 -> R s2 s3 -> R s1 s3.
Hypothesis RB_trans : forall s1 s2 s3, R s1 s2 -> RB s2 s3 -> RB s1 s3.

Lemma at_ret {A} (a : A) (s : S) : respects_at Pev R RB (ret a) s.
Proof. unfold respects_at. simpl. auto. Qed.

Lemma at_raise {A} (e : exn) (s : S) :
  respects_at Pev R RB (@raise event S A e) s.
Proof. unfold respects_at. simpl. auto. Qed.

Lemma at_emit (ev : event) (s : S) :
  Pev ev -> respects_at Pev R RB (@emit event S ev) s.
Proof. unfold respects_at. simpl. auto. Qed.

Lemma at_put (s' s : S) : R s s' -> respects_at Pev R RB (@put event S s') s.
Proof. unfold respects_at. simpl. auto. Qed.

Lemma at_bind {A B} (m : M event S A) (k : A -> M event S B) (s : S) :
  respects_at Pev R RB m s ->
  (forall a s1, snd (m s) = Ok a s1 -> respects_at Pev R RB (k a) s1) ->
  respects_at Pev R RB (bind m k) s.
Proof.
  unfold respects_at, bind. intros [Hl Hs] Hk.
  destruct (m s) as [l [a s1|e s1|w s1]]; simpl in *; auto.
  destruct (Hk a s1 eq_refl) as [Hl' Hs']. destruct (k a s1) as [l' o].
  simpl in *. split; [apply Forall_app; auto|]. destruct o; eauto.
Qed.

Lemma at_bind_get {B} (k : S -> M event S B) (s : S) :
  respects_at Pev R RB (k s) s -> respects_at Pev R RB (bind get k) s.
Proof. unfold respects_at. now rewrite bind_get. Qed.

Lemma at_try_except {A} (m : M event S A) (h : exn -> option (M event S A))
    (s : S) :
  respects_at Pev R RB m s ->
  (forall e s1 k, snd (m s) = Exc e s1 -> h e = Some k ->
                  respects_at Pev R RB k s1) ->
  respects_at Pev R RB (try_except m h) s.
Proof.
  unfold respects_at, try_except. intros [Hl Hs] Hh.
  destruct (m s) as [l [a s1|e s1|w s1]]; simpl in *; auto.
  destruct (h e) as [k|] eqn:He; simpl; auto.
  destruct (Hh e s1 k eq_refl He) as [Hl' Hs'].
  destruct (k s1) as [l' o]. simpl in *.
  split; [apply Forall_app; auto|]. destruct o; eauto.
Qed.

(** [with lock:] around a body: the lock may be toggled around what
    the body respects. *)
Lemma at_with_lock {A} (held : S -> bool) (set_held : bool -> S -> S)
    (m : M event S A) (s : S) :
  (held s = true -> RB s s) ->
  (held s = false -> respects_at Pev R RB m (set_held true s)) ->
  (forall s', held s = false -> R (set_held true s) s' ->
              R s (set_held false s')) ->
  (forall s', held s = false -> RB (set_held true s) s' -> RB s s') ->
  respects_at Pev R RB (with_lock held set_held m) s.
Proof.
  unfold respects_at, with_lock. intros Hheld Hm Hrel Hblk.
  destruct (held s) eqn:Hh; [simpl; auto|].
  destruct (Hm eq_refl) as [Hl Hs].
  destruct (m (set_held true s)) as [l [a s1|e s1|w s1]]; simpl in *; auto.
Qed.

End RespectFacts.

Section RespectZoom.
Import Text Wire Eff SpecX Client.
Context `{PyLib}.

(** A computation on [self] respects on the frame of the receive task
    what it respects on the client. *)
Lemma at_on_self {A} (Pev : event -> Prop) (R RB : TWSClient -> TWSClient -> Prop)
    (m : C A) (st : ListenState) :
  respects_at Pev R RB m (self st) ->
  respects_at Pev (on_frame R) (on_frame RB) (on_self m) st.
Proof.
  unfold respects_at, on_self, zoom, on_frame. intros [Hl Hs].
  destruct (m (self st)) as [l [a s1|e s1|w s1]]; simpl in *; auto.
Qed.

End RespectZoom.

(* ================================================================== *)
(** * The client keeps its flags together and releases its lock *)

Section ClientInvariants.
Import Text Wire Eff SpecX Client.
Context `{PyLib}.

Local Arguments drain : simpl never.
Local Arguments listen_loop : simpl never.

Lemma steady_refl (c : TWSClient) : steady c c.
Proof. split; [now intros ? | reflexivity]. Qed.

Lemma steady_trans (c1 c2 c3 : TWSClient) :
  steady c1 c2 -> steady c2 c3 -> steady c1 c3.
Proof.
  unfold steady, keeps_flags, same_lock. intros [F1 L1] [F2 L2].
  split; [auto | congruence].
Qed.

Lemma steady_keeps (c1 c2 c3 : TWSClient) :
  steady c1 c2 -> keeps_flags c2 c3 -> keeps_flags c1 c3.
Proof. unfold steady, keeps_flags. intros [F1 _] F2. auto. Qed.

Lemma frame_refl (st : ListenState) : on_frame steady st st.
Proof. apply steady_refl. Qed.

Lemma frame_trans (s1 s2 s3 : ListenState) :
  on_frame steady s1 s2 -> on_frame steady s2 s3 -> on_frame steady s1 s3.
Proof. apply steady_trans. Qed.

Lemma frame_keeps (s1 s2 s3 : ListenState) :
  on_frame steady s1 s2 -> on_frame keeps_flags s2 s3 ->
  on_frame keeps_flags s1 s3.
Proof. apply steady_keeps. Qed.

(** One step of a proof that a computation on the client, or on the
    frame of the receive task, is steady. *)
Ltac steady_step :=
  lazymatch goal with
  | |- respects_at _ _ _ (bind get _) _ => apply at_bind_get
  | |- respects_at _ (on_frame _) _ (bind _ _) _ =>
      apply (at_bind _ _ _ frame_trans frame_keeps); [|intros ? ? _]
  | |- respects_at _ _ _ (bind _ _) _ =>
      apply (at_bind _ _ _ steady_trans steady_keeps); [|intros ? ? _]
  | |- respects_at _ (on_frame _) _ (try_except _ _) _ =>
      apply (at_try_except _ _ _ frame_trans frame_keeps); [|intros ? ? ? _ ?]
  | |- respects_at _ _ _ (try_except _ _) _ =>
      apply (at_try_except _ _ _ steady_trans steady_keeps);
        [|intros ? ? ? _ [= <-]]
  | |- respects_at _ (on_frame _) _ (ret _) _ => apply (at_ret _ _ _ frame_refl)
  | |- respects_at _ _ _ (ret _) _ => apply (at_ret _ _ _ steady_refl)
  | |- respects_at _ (on_frame _) _ (raise _) _ =>
      apply (at_raise _ _ _ frame_refl)
  | |- respects_at _ _ _ (raise _) _ => apply (at_raise _ _ _ steady_refl)
  | |- respects_at _ (on_frame _) _ (block _) _ =>
      split; [constructor | now intros ?]
  | |- respects_at _ (on_frame _) _ (emit _) _ =>
      apply (at_emit _ _ _ frame_refl); exact I
  | |- respects_at _ _ _ (emit _) _ => apply (at_emit _ _ _ steady_refl); exact I
  | |- respects_at _ _ _ (put _) _ => apply at_put
  | |- respects_at _ _ _ (on_self _) _ => apply at_on_self
  | |- respects_at _ _ _ (lift_res ?r) _ => destruct r; unfold lift_res
  | |- respects_at _ _ _ (lift_opt _ ?r) _ => destruct r; unfold lift_opt
  | |- respects_at _ _ _ (match ?x with _ => _ end) _ => destruct x eqn:?
  end.

Lemma disconnect_steady (c : TWSClient) :
  respects_at any_event steady keeps_flags disconnect c.
Proof.
  unfold respects_at, disconnect, with_lock, steady, keeps_flags, same_lock,
    flags_agree, any_event.
  destruct c as [h p so co ru bc oc lo st lt]. simpl.
  destruct lo; simpl; [split; [constructor | auto]|].
  unfold bind, get, try_except, socket_send, socket_close, modify, bind, get,
    put, emit, raise. simpl.
  destruct co; simpl; [|split; [repeat constructor | auto]].
  destruct so as [sk|]; simpl; [|split; [repeat constructor | auto]].
  destruct (write_fails sk); simpl; split; auto; repeat constructor.
Qed.

Lemma connect_steady (r : connect_result) (c : TWSClient) :
  respects_at any_event steady keeps_flags (connect r) c.
Proof.
  unfold respects_at, connect, steady, keeps_flags, same_lock, flags_agree,
    any_event.
  destruct c as [h p so co ru bc oc lo st lt].
  destruct r; simpl; split; auto; repeat constructor.
Qed.

Lemma socket_send_steady (data : string) (c : TWSClient) :
  respects_at any_event steady keeps_flags (socket_send data) c.
Proof. unfold socket_send. repeat steady_step. Qed.

Lemma lock_toggle (c c' : TWSClient) :
  lock c = false -> steady (set_lock true c) c' -> steady c (set_lock false c').
Proof.
  unfold steady, keeps_flags, same_lock, flags_agree.
  destruct c, c'; simpl. intros -> [F L]. auto.
Qed.

Lemma lock_blocked (c c' : TWSClient) :
  keeps_flags (set_lock true c) c' -> keeps_flags c c'.
Proof. unfold keeps_flags, flags_agree. destruct c; simpl. auto. Qed.

Lemma send_steady (msg : json) (c : TWSClient) :
  respects_at any_event steady keeps_flags (send msg) c.
Proof.
  unfold send. apply at_with_lock.
  - intros _ ?. assumption.
  - intros _. repeat steady_step; try apply socket_send_steady.
    apply disconnect_steady.
  - intros c' Hl. now apply lock_toggle.
  - intros c' _. apply lock_blocked.
Qed.

Lemma modify_steady (f : TWSClient -> TWSClient) (c : TWSClient) :
  steady c (f c) -> respects_at any_event steady keeps_flags (modify f) c.
Proof. intros Hf. unfold modify. repeat steady_step. exact Hf. Qed.

Lemma place_order_steady (order : Order) (c : TWSClient) :
  respects_at any_event steady keeps_flags (place_order order) c.
Proof. unfold place_order. repeat steady_step; apply send_steady. Qed.

Lemma req_real_time_bars_steady (bar_size : json) (callback : option nat)
    (c : TWSClient) :
  respects_at any_event steady keeps_flags
    (req_real_time_bars bar_size callback) c.
Proof.
  unfold req_real_time_bars. repeat steady_step; try apply send_steady.
  apply modify_steady. destruct c. split; [now intros ? | reflexivity].
Qed.

Lemma set_order_status_callback_steady (callback : option nat) (c : TWSClient) :
  respects_at any_event steady keeps_flags
    (set_order_status_callback callback) c.
Proof.
  unfold set_order_status_callback. repeat steady_step.
  apply modify_steady. destruct c. split; [now intros ? | reflexivity].
Qed.

Lemma dispatch_steady (msg : json) (c : TWSClient) :
  respects_at any_event steady keeps_flags (dispatch msg) c.
Proof. unfold dispatch. repeat steady_step; apply disconnect_steady. Qed.

Lemma drain_steady (fuel : nat) (st : ListenState) :
  respects_at any_event (on_frame steady) (on_frame keeps_flags) (drain fuel) st.
Proof.
  revert st. induction fuel as [|fuel IH]; intros st.
  - apply (at_ret _ _ _ frame_refl).
  - change (drain (S fuel)) with
      (st <- get;;
       match split_nl (buffer st) with
       | None => ret tt
       | Some (line, rest) =>
           set_buffer rest;;
           if strip_nonempty line then
             msg <- lift_opt JSONDecodeError (json_loads line);;
             brk <- on_self (dispatch msg);;
             if brk then ret tt else drain fuel
           else drain fuel
       end)%eff.
    unfold set_buffer.
    repeat steady_step; try apply IH; try apply dispatch_steady;
      try apply frame_refl; try apply steady_refl.
Qed.


Lemma listen_body_steady (r : recv_result) (st : ListenState) :
  respects_at any_event (on_frame steady) (on_frame keeps_flags)
    (listen_body r) st.
Proof.
  unfold listen_body, set_buffer, socket_recv.
  repeat steady_step; try apply drain_steady; try apply disconnect_steady;
    try apply frame_refl; try apply steady_refl.
Qed.

Lemma listen_except_steady (e : exn) (k : L bool) (st : ListenState) :
  listen_except e = Some k ->
  respects_at any_event (on_frame steady) (on_frame keeps_flags) k st.
Proof.
  destruct e; intros [= <-]; repeat steady_step; apply disconnect_steady.
Qed.

Lemma listen_loop_steady (reads : list recv_result) (st : ListenState) :
  respects_at any_event (on_frame steady) (on_frame keeps_flags)
    (listen_loop reads) st.
Proof.
  revert st. induction reads as [|r reads IH]; intros st.
  - unfold listen_loop. repeat steady_step.
  - change (listen_loop (r :: reads)) with
      (st <- get;;
       if running (self st) then
         brk <- try_except (listen_body r) listen_except;;
         if brk then ret tt else listen_loop reads
       else ret tt)%eff.
    repeat steady_step; try apply IH; try apply listen_body_steady.
    eapply listen_except_steady; eassumption.
Qed.

Lemma listen_steady (reads : list recv_result) (c : TWSClient) :
  respects_at any_event steady keeps_flags (listen reads) c.
Proof.
  assert (Hl : respects_at any_event (on_frame steady) (on_frame keeps_flags)
                 (listen_loop reads;; emit (Print "Listen thread exiting"))%eff
                 (mkListen c EmptyString)).
  { repeat steady_step. apply listen_loop_steady. }
  unfold respects_at, listen, zoom, on_frame in *.
  destruct Hl as [Hlog Hst].
  destruct ((listen_loop reads;; emit (Print "Listen thread exiting"))%eff
              (mkListen c EmptyString)) as [l [a s1|e s1|w s1]];
    simpl in *; auto.
Qed.

(** X1. Whatever the method and however it ends, a client whose two flags
    agree is left with flags that agree. *)
Theorem flags_stay_together (c : TWSClient) (r : connect_result)
    (msg bar_size : json) (callback : option nat) (order : Order)
    (reads : list recv_result) :
  connected c = running c ->
  flags_agree (final (connect r c)) /\
  flags_agree (final (disconnect c)) /\
  flags_agree (final (send msg c)) /\
  flags_agree (final (place_order order c)) /\
  flags_agree (final (req_real_time_bars bar_size callback c)) /\
  flags_agree (final (set_order_status_callback callback c)) /\
  flags_agree (final (listen reads c)).
Proof.
  intros Hc.
  assert (Hall : forall A (m : C A),
             respects_at any_event steady keeps_flags m c ->
             flags_agree (final (m c))).
  { intros A m [_ Hm]. unfold final. unfold steady, keeps_flags in Hm.
    destruct (snd (m c)); simpl; [apply Hm | apply Hm | apply Hm]; exact Hc. }
  repeat split; apply Hall;
    auto using connect_steady, disconnect_steady, send_steady,
      place_order_steady, req_real_time_bars_steady,
      set_order_status_callback_steady, listen_steady.
Qed.

(** X2. A method that returns or raises gives the lock back: only a call
    that never returns can be left holding it. *)
Theorem lock_released_on_return (c : TWSClient) (r : connect_result)
    (msg bar_size : json) (callback : option nat) (order : Order)
    (reads : list recv_result) :
  lock_kept c (connect r c) /\
  lock_kept c (disconnect c) /\
  lock_kept c (send msg c) /\
  lock_kept c (place_order order c) /\
  lock_kept c (req_real_time_bars bar_size callback c) /\
  lock_kept c (set_order_status_callback callback c) /\
  lock_kept c (listen reads c).
Proof.
  assert (Hall : forall A (m : C A),
             respects_at any_event steady keeps_flags m c -> lock_kept c (m c)).
  { intros A m [_ Hm]. unfold lock_kept. unfold steady, same_lock in Hm.
    destruct (snd (m c)); simpl; try apply Hm. exact I. }
  repeat split; apply Hall;
    auto using connect_steady, disconnect_steady, send_steady,
      place_order_steady, req_real_time_bars_steady,
      set_order_status_callback_steady, listen_steady.
Qed.

End ClientInvariants.

(* ================================================================== *)
(** * The receive task at the end of a connection *)

Section ListenEnds.
Import Text Wire Eff Spec SpecX Client.
Context `{PyLib}.

Local Arguments drain : simpl never.
Local Arguments listen_loop : simpl never.

Lemma listen_loop_cons (r : recv_result) (reads : list recv_result) :
  listen_loop (r :: reads) =
  (st <- get;;
   if running (self st) then
     brk <- try_except (listen_body r) listen_except;;
     if brk then ret tt else listen_loop reads
   else ret tt)%eff.
Proof. reflexivity. Qed.

Lemma on_self_disconnect_live (c : TWSClient) (sk : Socket) (b : string) :
  connected c = true -> lock c = false -> socket c = Some sk ->
  on_self disconnect (mkListen c b)
  = (disconnect_log sk, Ok tt (mkListen (disconnected sk c) b)).
Proof.
  intros Hc Hl Hs. now rewrite on_self_run, (disconnect_connected c sk Hc Hl Hs).
Qed.

(** X3. When the peer has shut down, or when [recv] raises, the receive
    task disconnects and ends: what is left in the buffer is never
    decoded and the reads that follow are never made. *)
Theorem listen_ends_with_the_connection (c : TWSClient) (sk : Socket)
    (b : string) (reads : list recv_result) :
  live c = true -> socket c = Some sk ->
  listen_loop (Data EmptyString :: reads) (mkListen c b) =
    (Print "Socket closed by emulator" :: disconnect_log sk,
     Ok tt (mkListen (disconnected sk c) b)) /\
  listen_loop (RecvError :: reads) (mkListen c b) =
    (Print "Client listen error" :: disconnect_log sk,
     Ok tt (mkListen (disconnected sk c) b)).
Proof.
  intros Hlive Hsk.
  destruct (live_inv _ Hlive) as (Hc & Hr & Hl & sk' & Hs' & Hk).
  rewrite Hsk in Hs'. injection Hs' as <-.
  pose proof (on_self_disconnect_live c sk b Hc Hl Hsk) as Hd.
  split; rewrite listen_loop_cons, bind_get; cbn [self]; rewrite Hr.
  - assert (Hbody : listen_body (Data EmptyString) (mkListen c b) =
              (Print "Socket closed by emulator" :: disconnect_log sk,
               Ok true (mkListen (disconnected sk c) b))).
    { assert (Hrecv : on_self (socket_recv (Data EmptyString)) (mkListen c b)
                      = ([], Ok EmptyString (mkListen c b))).
      { now rewrite on_self_run, (socket_recv_open c sk _ Hsk Hk). }
      unfold listen_body. rewrite (bind_ok _ _ _ _ _ _ Hrecv).
      cbn [nonempty]. rewrite bind_emit.
      rewrite (bind_ok _ _ _ _ _ _ Hd). simpl. now rewrite List.app_nil_r. }
    rewrite (bind_ok _ _ _ _ _ _ (try_except_ok _ _ _ _ _ _ Hbody)).
    simpl. now rewrite List.app_nil_r.
  - assert (Hbody : listen_body RecvError (mkListen c b) =
              ([], Exc OSError (mkListen c b))).
    { unfold listen_body. apply bind_exc. rewrite on_self_run.
      unfold socket_recv. now rewrite bind_get, Hsk, Hk. }
    assert (Hh : (emit (Print "Client listen error");;
                  on_self disconnect;; ret true)%eff (mkListen c b) =
                 (Print "Client listen error" :: disconnect_log sk,
                  Ok true (mkListen (disconnected sk c) b))).
    { rewrite bind_emit, (bind_ok _ _ _ _ _ _ Hd). simpl.
      now rewrite List.app_nil_r. }
    pose proof (try_except_exc _ listen_except _ _ _ _ _ Hbody eq_refl)
      as Htry.
    rewrite Hh in Htry. simpl in Htry.
    rewrite (bind_ok _ _ _ _ _ _ Htry). simpl. now rewrite List.app_nil_r.
Qed.

(** X4. After an [endOfData] frame nothing is dispatched any more: the
    frames behind it in the same read stay in the buffer, and the reads
    that follow are never made. *)
Theorem nothing_after_end_of_data (c : TWSClient) (sk : Socket)
    (line rest : string) (msg : json) (reads : list recv_result) :
  live c = true -> socket c = Some sk ->
  has_nl line = false -> strip_nonempty line = true ->
  json_loads line = Some msg -> is_end msg = true ->
  listen_loop (Data (line +:+ nl +:+ rest) :: reads) (mkListen c EmptyString) =
    (Print "Received endOfData signal" :: disconnect_log sk,
     Ok tt (mkListen (disconnected sk c) rest)).
Proof.
  intros Hlive Hsk Hnl Hst Hl He.
  destruct (live_inv _ Hlive) as (Hc & Hr & Hlk & sk' & Hs' & Hk).
  rewrite listen_loop_data; [|assumption|].
  2: { destruct line; reflexivity. }
  rewrite str_app_empty_l, drain_step. cbn [buffer self].
  rewrite (split_nl_frame line rest Hnl). cbv zeta. rewrite Hst, Hl.
  unfold bind. rewrite on_self_run.
  rewrite (dispatch_end_live msg c sk He Hc Hlk Hsk). simpl.
  unfold after_drain, prepend.
  rewrite listen_loop_stopped by (destruct c; reflexivity).
  simpl. now rewrite !List.app_nil_r.
Qed.


End ListenEnds.

(* ================================================================== *)
(** * The client: requests and the blocking wait *)

Section ClientRequests.
Import Text Wire Eff Spec SpecE SpecX Client.
Context `{PyLib}.

Local Arguments drain : simpl never.
Local Arguments listen_loop : simpl never.

(** X6. [connect] never raises. After an established connection a client
    whose lock is free is in service; after a failed one it is out of
    service with both flags cleared, whatever it was before. *)
Theorem connect_puts_in_service (r : connect_result) (c : TWSClient) :
  lock c = false ->
  exists l c',
    connect r c = (l, Ok tt c') /\
    match r with
    | Established n =>
        live c' = true /\ stop_event c' = false /\
        l = [ThreadStart "listen" n; Print "Connected"]
    | _ =>
        live c' = false /\ connected c' = false /\ running c' = false /\
        l = [Print "Connection failed"]
    end.
Proof.
  intros Hl. destruct c as [h p so co ru bc oc lo st lt]. simpl in Hl. subst.
  destruct r; eexists; eexists; (split; [reflexivity|]); repeat split.
Qed.

(** X7. [place_order] on a client that is not connected sends nothing and
    still reports a fill: the status callback is called with a trade
    that is [Filled] at 0.0, and the identifier is returned. *)
Theorem place_order_reports_a_fill_unsent (c : TWSClient) (order : Order)
    (cb : nat) :
  connected c = false -> lock c = false -> order_status_callback c = Some cb ->
  place_order order c =
    ([OrderStatusCallback cb
        (mkTrade (JInt (id order)) (JStr "Filled") (JFloat (Float "0.0")))],
     Ok (id order) c).
Proof.
  intros Hc Hl Hcb. unfold place_order.
  rewrite (bind_ok _ _ _ _ _ _ (send_not_connected c _ Hc Hl)).
  now rewrite bind_get, Hcb.
Qed.

(** X8. [req_real_time_bars] on a client in service writes one request
    frame and registers the callback, and it is that callback that the
    receive task then calls with the bar of a [barUpdate] frame. *)
Theorem requested_bars_reach_the_callback (c : TWSClient) (sk : Socket)
    (bar_size : json) (cb : nat) (row : Df.Series Timestamp) :
  live c = true -> socket c = Some sk -> write_fails sk = false ->
  travels
    (JDict [("type", JStr "barUpdate");
             ("time", JStr (isoformat (Df.date row)));
             ("open", JFloat (Df.open row));
             ("high", JFloat (Df.high row));
             ("low", JFloat (Df.low row));
             ("close", JFloat (Df.close row))]) ->
  to_datetime (JStr (isoformat (Df.date row))) = Some (Df.date row) ->
  let c' := set_bar_callback (Some cb) c in
  req_real_time_bars bar_size (Some cb) c =
    ([Sent (fd sk)
        (json_dumps (JDict [("type", JStr "reqRealTimeBars");
                            ("barSize", bar_size)]) +:+ nl);
      Print "Requested real-time bars"],
     Ok tt c') /\
  listen
    [Data (json_dumps
       (JDict [("type", JStr "barUpdate");
             ("time", JStr (isoformat (Df.date row)));
             ("open", JFloat (Df.open row));
             ("high", JFloat (Df.high row));
             ("low", JFloat (Df.low row));
             ("close", JFloat (Df.close row))]) +:+ nl)] c' =
    ([BarCallback cb
        (mkBar (Df.date row) (JFloat (Df.open row)) (JFloat (Df.high row))
           (JFloat (Df.low row)) (JFloat (Df.close row))) true],
     Blocked OnRecv c').
Proof.
  change (JDict [("type", JStr "barUpdate");
             ("time", JStr (isoformat (Df.date row)));
             ("open", JFloat (Df.open row));
             ("high", JFloat (Df.high row));
             ("low", JFloat (Df.low row));
             ("close", JFloat (Df.close row))])
    with (Emulator.bar_msg row).
  change (mkBar (Df.date row) (JFloat (Df.open row)) (JFloat (Df.high row))
            (JFloat (Df.low row)) (JFloat (Df.close row)))
    with (bar_of row).
  intros Hlive Hsk Hw Htr Ht c'.
  destruct (live_inv _ Hlive) as (Hc & Hr & Hl & sk' & Hs' & Hk).
  assert (Hlive' : live c' = true) by (destruct c; exact Hlive).
  split.
  - unfold req_real_time_bars, modify.
    rewrite bind_assoc, bind_get, bind_put.
    rewrite (bind_ok _ _ _ _ _ _
               (send_connected c' sk _ ltac:(destruct c; exact Hc)
                  ltac:(destruct c; exact Hl) ltac:(destruct c; exact Hsk) Hw)).
    reflexivity.
  - rewrite listen_forget, listen_loop_data; [|assumption|].
    2: { destruct (json_dumps (Emulator.bar_msg row)); reflexivity. }
    rewrite str_app_empty_l.
    rewrite <- (str_app_empty_r (json_dumps _ +:+ nl)), str_app_assoc.
    rewrite drain_frame by assumption.
    unfold bind.
    rewrite on_self_run, (dispatch_bar c' cb row ltac:(destruct c; reflexivity) Ht).
    simpl. rewrite drain_empty. unfold after_drain, prepend.
    rewrite listen_loop_waits by (destruct c; exact Hr). reflexivity.
Qed.

End ClientRequests.

Section ClientRun.
Import Text Wire Eff Spec SpecX Client ClientRest.
Context `{PyLib}.

Lemma wait_loop_stopped (waits : list (TWSClient -> TWSClient))
    (c : TWSClient) :
  running c = false -> wait_loop waits c = Done (Ok tt c).
Proof. intros Hr. destruct waits; simpl; now rewrite Hr. Qed.

Lemma wait_loop_done (waits : list (TWSClient -> TWSClient)) (c : TWSClient)
    (o : outcome TWSClient unit) :
  wait_loop waits c = Done o -> exists c1, o = Ok tt c1 /\ running c1 = false.
Proof.
  revert c. induction waits as [|w waits IH]; intros c; simpl.
  - destruct (running c) eqn:Hr; [discriminate|]. intros [= <-]. eauto.
  - destruct (running c) eqn:Hr; [|intros [= <-]; eauto].
    destruct (running (w c)) eqn:Hr'; simpl; [apply IH|].
    intros [= <-]. eauto.
Qed.

Lemma wait_loop_waiting (waits : list (TWSClient -> TWSClient))
    (c c1 : TWSClient) :
  wait_loop waits c = Waiting c1 -> running c1 = true.
Proof.
  revert c. induction waits as [|w waits IH]; intros c; simpl.
  - destruct (running c) eqn:Hr; [|discriminate]. now intros [= <-].
  - destruct (running c) eqn:Hr; [|discriminate].
    destruct (running (w c)) eqn:Hr'; simpl; [apply IH|discriminate].
Qed.

(** While the flags agree and the lock is free at every wait, the loop
    ends only in a client that is disconnected, with its lock free. *)
Lemma wait_loop_agree (waits : list (TWSClient -> TWSClient))
    (c c1 : TWSClient) :
  Forall (fun w => forall c0, flags_agree c0 -> lock c0 = false ->
                              flags_agree (w c0) /\ lock (w c0) = false) waits ->
  flags_agree c -> lock c = false ->
  wait_loop waits c = Done (Ok tt c1) ->
  connected c1 = false /\ lock c1 = false.
Proof.
  intros Hw. revert c. induction Hw as [|w waits Hw0 _ IH]; intros c Hf Hl.
  - simpl. destruct (running c) eqn:Hr; [discriminate|].
    intros [= <-]. unfold flags_agree in Hf. split; congruence.
  - simpl. destruct (running c) eqn:Hr.
    + destruct (Hw0 c Hf Hl) as [Hf' Hl'].
      destruct (running (w c)) eqn:Hr'; simpl.
      * now apply IH.
      * intros [= <-]. unfold flags_agree in Hf'. split; congruence.
    + intros [= <-]. unfold flags_agree in Hf. split; congruence.
Qed.

Lemma run_last_disconnected (c0 : TWSClient) :
  connected c0 = false -> lock c0 = false ->
  (emit (Print "Client stopped");;
   with_lock lock set_lock
     (c <- get;; if connected c then disconnect else ret tt))%eff c0
  = ([Print "Client stopped"], Ok tt c0).
Proof.
  intros Hc0 Hl0. rewrite bind_emit. unfold with_lock. rewrite Hl0.
  rewrite bind_get. destruct c0; simpl in *; subst. reflexivity.
Qed.

Lemma run_last_connected (c0 : TWSClient) :
  connected c0 = true -> lock c0 = false ->
  (emit (Print "Client stopped");;
   with_lock lock set_lock
     (c <- get;; if connected c then disconnect else ret tt))%eff c0
  = ([Print "Client stopped"], Blocked OnLock (set_lock true c0)).
Proof.
  intros Hc0 Hl0. rewrite bind_emit. unfold with_lock. rewrite Hl0.
  rewrite bind_get. destruct c0; simpl in *; subst. reflexivity.
Qed.

Lemma run_join (alive alive_after : bool)
    (during_join : TWSClient -> TWSClient) (c : TWSClient) :
  (forall c0, connected (during_join c0) = connected c0 /\
              lock (during_join c0) = lock c0) ->
  exists l1 c1,
    (match listen_thread c with
     | Some _ =>
         if alive then
           modify during_join;;
           if alive_after then
             emit (Print "Warning: Listen thread did not exit cleanly")
           else ret tt
         else ret tt
     | None => ret tt
     end)%eff c = (l1, Ok tt c1) /\
    connected c1 = connected c /\ lock c1 = lock c /\ Forall quiet_event l1.
Proof.
  intros Hdj. destruct (Hdj c) as [Hc' Hl'].
  destruct (listen_thread c) as [t|], alive; try destruct alive_after;
    unfold modify;
    rewrite ?bind_assoc, ?bind_get, ?bind_put;
    eexists; eexists; (split; [reflexivity|]); repeat split; auto;
    repeat constructor.
Qed.

Lemma run_end_disconnected (alive alive_after : bool)
    (during_join : TWSClient -> TWSClient) (c : TWSClient) :
  (forall c0, connected (during_join c0) = connected c0 /\
              lock (during_join c0) = lock c0) ->
  connected c = false -> lock c = false ->
  exists l c',
    run_end alive alive_after during_join c = (l, Ok tt c') /\
    connected c' = false /\ Forall quiet_event l.
Proof.
  intros Hdj Hc Hl. unfold run_end. rewrite bind_get.
  destruct (run_join alive alive_after during_join c Hdj)
    as (l1 & c1 & Hj & Hc1 & Hl1 & Hq).
  rewrite (bind_ok _ _ _ _ _ _ Hj).
  rewrite run_last_disconnected by congruence. simpl.
  eexists; eexists; split; [reflexivity|]. split; [congruence|].
  apply Forall_app. split; [exact Hq | repeat constructor].
Qed.

Lemma run_end_connected (alive alive_after : bool)
    (during_join : TWSClient -> TWSClient) (c : TWSClient) :
  (forall c0, connected (during_join c0) = connected c0 /\
              lock (during_join c0) = lock c0) ->
  connected c = true -> lock c = false ->
  exists l c',
    run_end alive alive_after during_join c = (l, Blocked OnLock c') /\
    connected c' = true /\ lock c' = true /\ Forall quiet_event l.
Proof.
  intros Hdj Hc Hl. unfold run_end. rewrite bind_get.
  destruct (run_join alive alive_after during_join c Hdj)
    as (l1 & c1 & Hj & Hc1 & Hl1 & Hq).
  rewrite (bind_ok _ _ _ _ _ _ Hj).
  rewrite run_last_connected by congruence. simpl.
  eexists; eexists; split; [reflexivity|].
  split; [destruct c1; simpl in *; congruence|].
  split; [destruct c1; reflexivity|].
  apply Forall_app. split; [exact Hq | repeat constructor].
Qed.

(** X9. [run] does not close the connection itself. For a client whose
    flags agree and go on agreeing while the owner waits, it returns
    only once somebody else has disconnected, and it then writes and
    closes nothing: the [disconnect] at its end is not reached. *)
Theorem run_returns_after_disconnect (waits : list (TWSClient -> TWSClient))
    (alive alive_after : bool) (during_join : TWSClient -> TWSClient)
    (c : TWSClient) :
  Forall (fun w => forall c0, flags_agree c0 -> lock c0 = false ->
                              flags_agree (w c0) /\ lock (w c0) = false) waits ->
  (forall c0, connected (during_join c0) = connected c0 /\
              lock (during_join c0) = lock c0) ->
  connected c = true -> running c = true -> lock c = false ->
  match run waits alive alive_after during_join c with
  | (l, Waiting c') => l = [Print "Client running..."] /\ running c' = true
  | (l, Done o) =>
      exists c', o = Ok tt c' /\ connected c' = false /\ Forall quiet_event l
  end.
Proof.
  intros Hw Hdj Hc Hr Hl. unfold run. rewrite Hc. cbn [negb].
  destruct (wait_loop waits c) as [o|c1] eqn:Hloop.
  - destruct (wait_loop_done _ _ _ Hloop) as (c1 & -> & _).
    destruct (wait_loop_agree waits c c1 Hw
                ltac:(unfold flags_agree; congruence) Hl Hloop) as [Hc1 Hl1].
    destruct (run_end_disconnected alive alive_after during_join c1 Hdj
                Hc1 Hl1) as (l & c' & Hrun & Hc' & Hq).
    cbn [state_of]. rewrite Hrun.
    exists c'. repeat split; auto. constructor; [exact I | exact Hq].
  - split; [reflexivity|]. exact (wait_loop_waiting _ _ _ Hloop).
Qed.

(** X10. When only the [running] flag of a connected client has been
    cleared, [run] never returns: after its loop it takes the lock and
    calls [disconnect], which waits for that lock. Nothing is written
    or closed and the client stays connected. *)
Theorem run_blocks_when_only_the_flag_is_cleared
    (waits : list (TWSClient -> TWSClient)) (alive alive_after : bool)
    (during_join : TWSClient -> TWSClient) (c : TWSClient) :
  (forall c0, connected (during_join c0) = connected c0 /\
              lock (during_join c0) = lock c0) ->
  connected c = true -> running c = false -> lock c = false ->
  exists l c',
    run waits alive alive_after during_join c = (l, Done (Blocked OnLock c')) /\
    connected c' = true /\ lock c' = true /\ Forall quiet_event l.
Proof.
  intros Hdj Hc Hr Hl. unfold run. rewrite Hc. cbn [negb].
  rewrite (wait_loop_stopped waits c Hr). cbn [state_of].
  destruct (run_end_connected alive alive_after during_join c Hdj Hc Hl)
    as (l & c' & -> & Hc' & Hl' & Hq).
  eexists; eexists; split; [reflexivity|]. repeat split; auto.
  constructor; [exact I | exact Hq].
Qed.

End ClientRun.

(* ================================================================== *)
(** * What a handler of the emulator leaves alone *)

Section HandlerInvariants.
Import Text Wire Eff SpecE SpecX Emulator.
Context `{PyLib}.

Lemma handler_frame_refl (n : nat) (s : TWSEmulator) : handler_frame n s s.
Proof. unfold handler_frame. repeat split; auto. lia. Qed.

Lemma handler_frame_trans (n : nat) (s1 s2 s3 : TWSEmulator) :
  handler_frame n s1 s2 -> handler_frame n s2 s3 -> handler_frame n s1 s3.
Proof.
  unfold handler_frame.
  intros (R1 & D1 & V1 & O1 & K1 & C1) (R2 & D2 & V2 & O2 & K2 & C2).
  repeat split; try congruence; try lia.
  intros m Hm. now rewrite K2, K1.
Qed.

Lemma ledger_grows_refl (s : TWSEmulator) : ledger_grows s s.
Proof. unfold ledger_grows. split; [lia|]. split; auto. Qed.

Lemma ledger_grows_trans (s1 s2 s3 : TWSEmulator) :
  ledger_grows s1 s2 -> ledger_grows s2 s3 -> ledger_grows s1 s3.
Proof.
  unfold ledger_grows. intros (O1 & K1 & N1) (O2 & K2 & N2).
  split; [lia|]. split.
  - intros k Hk. rewrite K2 by lia. now apply K1.
  - intros k Hk Hsome. destruct (Z_le_gt_dec k (order_id s2)) as [Hle|Hgt].
    + rewrite K2 in Hsome by exact Hle.
      destruct (N1 k Hk Hsome); [now left | right; lia].
    + destruct (N2 k ltac:(lia) Hsome) as [Hs2|]; [|now right].
      destruct (N1 k Hk Hs2); [now left | right; lia].
Qed.

Lemma handler_step_refl (n : nat) (s : TWSEmulator) : handler_step n s s.
Proof. split; [apply handler_frame_refl | apply ledger_grows_refl]. Qed.

Lemma handler_step_trans (n : nat) (s1 s2 s3 : TWSEmulator) :
  handler_step n s1 s2 -> handler_step n s2 s3 -> handler_step n s1 s3.
Proof.
  intros [F1 L1] [F2 L2].
  split; [eapply handler_frame_trans | eapply ledger_grows_trans]; eassumption.
Qed.

(** One step of a proof that a computation of the handler of [n] keeps
    to its socket. *)
Ltac handler_step_tac :=
  lazymatch goal with
  | |- respects_at _ _ _ (bind get _) _ => apply at_bind_get
  | |- respects_at _ (handler_step ?n) _ (bind _ _) _ =>
      apply (at_bind _ _ _ (handler_step_trans n) (handler_step_trans n));
        [|intros ? ? _]
  | |- respects_at _ (handler_step ?n) _ (try_except _ _) _ =>
      apply (at_try_except _ _ _ (handler_step_trans n) (handler_step_trans n));
        [|intros ? ? ? _ ?]
  | |- respects_at _ (handler_step ?n) _ (ret _) _ =>
      apply (at_ret _ _ _ (handler_step_refl n))
  | |- respects_at _ (handler_step ?n) _ (raise _) _ =>
      apply (at_raise _ _ _ (handler_step_refl n))
  | |- respects_at _ (handler_step ?n) _ (block _) _ =>
      split; [constructor | apply (handler_step_refl n)]
  | |- respects_at _ (handler_step ?n) _ (emit _) _ =>
      apply (at_emit _ _ _ (handler_step_refl n)); try exact I;
        try reflexivity
  | |- respects_at _ _ _ (lift_res ?r) _ => destruct r; unfold lift_res
  | |- respects_at _ _ _ (lift_opt _ ?r) _ => destruct r; unfold lift_opt
  | |- respects_at _ _ _ (match ?x with _ => _ end) _ => destruct x eqn:?
  end.

Lemma list_remove_filter (n : nat) (l l' : list nat) :
  list_remove n l = Some l' ->
  filter (fun m => m <> n) l' = filter (fun m => m <> n) l.
Proof.
  revert l'. induction l as [|y l IH]; intros l'; simpl; [discriminate|].
  destruct (Nat.eqb n y) eqn:Hy.
  - intros [= <-]. apply Nat.eqb_eq in Hy. subst y.
    now rewrite filter_cons_False by auto.
  - destruct (list_remove n l) as [r|]; [|discriminate].
    intros [= <-]. rewrite !filter_cons. now rewrite (IH r eq_refl).
Qed.

Lemma socket_send_keeps (n : nat) (data : string) (s : TWSEmulator) :
  respects_at (on_socket n) (handler_step n) (handler_step n)
    (socket_send n data) s.
Proof. unfold socket_send. repeat handler_step_tac. Qed.

Lemma send_message_keeps (n : nat) (msg : json) (s : TWSEmulator) :
  respects_at (on_socket n) (handler_step n) (handler_step n)
    (send_message n msg) s.
Proof.
  unfold send_message. repeat handler_step_tac; try apply socket_send_keeps.
  match goal with Hk : Some _ = Some _ |- _ => injection Hk as <- end.
  repeat handler_step_tac.
Qed.

Lemma socket_close_keeps (n : nat) (s : TWSEmulator) :
  respects_at (on_socket n) (handler_step n) (handler_step n)
    (socket_close n) s.
Proof.
  unfold socket_close. repeat handler_step_tac.
  apply at_put. split.
  - unfold handler_frame. destruct s; simpl. repeat split; auto; try lia.
    intros m Hm. now rewrite lookup_insert_ne by auto.
  - unfold ledger_grows. destruct s; simpl. split; [lia|]. split; auto.
Qed.

Lemma clients_remove_keeps (n : nat) (s : TWSEmulator) :
  respects_at (on_socket n) (handler_step n) (handler_step n)
    (clients_remove n) s.
Proof.
  unfold clients_remove. repeat handler_step_tac.
  apply at_put. split.
  - unfold handler_frame. destruct s; simpl in *.
    repeat split; auto; try lia. now apply list_remove_filter.
  - unfold ledger_grows. destruct s; simpl. split; [lia|]. split; auto.
Qed.

Lemma reply_log_on_socket (s : TWSEmulator) (n : nat) (msg : json) :
  Forall (on_socket n) (reply_log s n msg).
Proof.
  unfold reply_log. destruct (sockets s !! n) as [sk|];
    [destruct (write_fails sk)|]; repeat constructor.
Qed.

Lemma handle_order_keeps (n : nat) (msg : json) (s : TWSEmulator) :
  respects_at (on_socket n) (handler_step n) (handler_step n)
    (handle_order n msg) s.
Proof.
  assert (Hid : handler_step n s (set_order_id (order_id s + 1) s)).
  { split.
    - unfold handler_frame. destruct s; simpl. repeat split; auto. lia.
    - unfold ledger_grows. destruct s; simpl. split; [lia|]. split; auto. }
  unfold respects_at. rewrite handle_order_run. cbv zeta.
  destruct (dict_get msg "order") as [e|order]; [split; [constructor|exact Hid]|].
  destruct (dict_get order "action") as [e|a]; [split; [constructor|exact Hid]|].
  destruct (dict_get order "quantity") as [e|q];
    [split; [constructor|exact Hid]|].
  destruct (data_df s) as [df|]; [|split; [constructor|exact Hid]].
  destruct (iloc _ _) as [p|]; [|split; [constructor|exact Hid]].
  split; [apply reply_log_on_socket|]. simpl. split.
  - unfold handler_frame. destruct s; simpl. repeat split; auto. lia.
  - unfold ledger_grows. clear Hid.
    destruct s as [h0 p0 f0 d0 c0 o0 i0 r0 v0 k0]; simpl. split; [lia|]. split.
    + intros k Hk. apply lookup_insert_ne. lia.
    + intros k Hk Hsome.
      destruct (decide (k = i0 + 1)) as [->|Hne]; [right; lia|].
      rewrite lookup_insert_ne in Hsome by auto. now left.
Qed.

Lemma process_message_keeps (n : nat) (message : string) (s : TWSEmulator) :
  respects_at (on_socket n) (handler_step n) (handler_step n)
    (process_message n message) s.
Proof.
  unfold process_message.
  repeat handler_step_tac; try apply handle_order_keeps;
    try apply clients_remove_keeps; try apply socket_close_keeps;
    try discriminate.
  all: match goal with
       | Hk : match ?e with _ => _ end = Some _ |- _ =>
           destruct e; try discriminate; injection Hk as <-
       end.
  all: repeat handler_step_tac.
Qed.

Lemma handle_client_body_keeps (n : nat) (r : recv_result) (s : TWSEmulator) :
  respects_at (on_socket n) (handler_step n) (handler_step n)
    (handle_client_body n r) s.
Proof.
  unfold handle_client_body, socket_recv.
  repeat handler_step_tac; try apply process_message_keeps;
    try apply clients_remove_keeps; try apply socket_close_keeps.
Qed.

Lemma handle_client_keeps (n : nat) (reads : list recv_result)
    (s : TWSEmulator) :
  respects_at (on_socket n) (handler_step n) (handler_step n)
    (handle_client n reads) s.
Proof.
  revert s. induction reads as [|r reads IH]; intros s.
  - simpl. repeat handler_step_tac.
  - change (handle_client n (r :: reads)) with
      (s0 <- get;;
       if running s0 then
         brk <- try_except (handle_client_body n r)
                  (fun _ => Some (emit (Print "Error handling client");;
                                  ret true));;
         if brk then ret tt else handle_client n reads
       else ret tt)%eff.
    repeat handler_step_tac; try apply IH; try apply handle_client_body_keeps.
    match goal with Hk : Some _ = Some _ |- _ => injection Hk as <- end.
    repeat handler_step_tac.
Qed.

(** X11. The handler of one connection keeps to that connection, however it
    ends: it writes to no other socket, closes no other socket and
    starts a thread for no other socket; it leaves the flag, the data,
    the listening socket, the other sockets and the other entries of
    [clients] as they are. *)
Theorem handler_keeps_to_its_socket (client_socket : nat)
    (reads : list recv_result) (s : TWSEmulator) :
  Forall (on_socket client_socket) (fst (handle_client client_socket reads s)) /\
  handler_frame client_socket s (final (handle_client client_socket reads s)).
Proof.
  destruct (handle_client_keeps client_socket reads s) as [Hl Hs].
  split; [exact Hl|]. unfold final.
  destruct (snd (handle_client client_socket reads s)); apply Hs.
Qed.


End HandlerInvariants.

(* ================================================================== *)
(** * The handler of the emulator, request by request *)

Section HandlerPaths.
Import Text Wire Eff Spec SpecE SpecX Emulator.
Context `{PyLib}.

Lemma handle_client_cons (n : nat) (r : recv_result) (reads : list recv_result) :
  handle_client n (r :: reads) =
  (s0 <- get;;
   if running s0 then
     brk <- try_except (handle_client_body n r)
              (fun _ => Some (emit (Print "Error handling client");; ret true));;
     if brk then ret tt else handle_client n reads
   else ret tt)%eff.
Proof. reflexivity. Qed.

Lemma handle_client_nil_log (n : nat) (s : TWSEmulator) :
  fst (handle_client n [] s) = [].
Proof. simpl. rewrite bind_get. now destruct (running s). Qed.

(** One turn of the handler on a read that brings text which
    [process_message] takes without an exception. *)
Lemma handle_client_processed (n : nat) (sk : Socket) (d : string)
    (reads : list recv_result) (s s' : TWSEmulator) (l : list event) :
  running s = true -> sockets s !! n = Some sk -> closed sk = false ->
  nonempty d = true -> process_message n d s = (l, Ok tt s') ->
  handle_client n (Data d :: reads) s = prepend l (handle_client n reads s').
Proof.
  intros Hr Hs Hk Hd Hp.
  rewrite (handle_client_data n sk d reads s Hr Hs Hk Hd), Hp. reflexivity.
Qed.

Lemma process_message_typed (n : nat) (message : string) (msg ty : json)
    (s : TWSEmulator) :
  json_loads message = Some msg -> dict_get msg "type" = inr ty ->
  process_message n message s =
  try_except
    (if is_str ty "reqRealTimeBars" then emit (ThreadStart "stream_bars" n)
     else if is_str ty "placeOrder" then handle_order n msg
     else if is_str ty "disconnect" then
       (clients_remove n;; socket_close n)%eff
     else ret tt)
    (fun e => match e with
              | JSONDecodeError => Some (emit (Print "Invalid message"))
              | _ => None
              end) s.
Proof.
  intros Hm Hty. unfold process_message, try_except.
  rewrite Hm. unfold lift_opt. rewrite bind_ret, Hty. unfold lift_res.
  now rewrite bind_ret.
Qed.

Lemma unregister_and_close (n : nat) (sk : Socket) (l : list nat)
    (s : TWSEmulator) :
  sockets s !! n = Some sk -> list_remove n (clients s) = Some l ->
  (clients_remove n;; socket_close n)%eff s =
    ([Closed n],
     Ok tt (set_sockets (<[n := sock_close sk]> (sockets s)) (set_clients l s))).
Proof.
  intros Hs Hl. unfold clients_remove, socket_close.
  rewrite bind_assoc, bind_get, Hl, bind_put, bind_get.
  cbn [sockets set_clients]. rewrite Hs. now rewrite bind_put.
Qed.

Lemma handle_client_recv_closed (n : nat) (sk : Socket) (r : recv_result)
    (reads : list recv_result) (s : TWSEmulator) :
  running s = true -> sockets s !! n = Some sk -> closed sk = true ->
  handle_client n (r :: reads) s = ([Print "Error handling client"], Ok tt s).
Proof.
  intros Hr Hs Hk. rewrite handle_client_cons, bind_get, Hr.
  assert (Hbody : handle_client_body n r s = ([], Exc OSError s)).
  { unfold handle_client_body. apply bind_exc. unfold socket_recv.
    now rewrite bind_get, Hs, Hk. }
  pose proof (try_except_exc _
    (fun _ => Some (emit (Print "Error handling client");; ret true)%eff)
    _ _ _ _ _ Hbody eq_refl) as Htry.
  rewrite bind_emit in Htry. simpl in Htry.
  now rewrite (bind_ok _ _ _ _ _ _ Htry).
Qed.

(** X13. An order request that [handle_order] cannot serve takes an
    identifier all the same: the counter has advanced by one, nothing
    is stored under the identifier and nothing is written. *)
Theorem failed_order_takes_an_identifier (client_socket : nat) (msg : json)
    (s s' : TWSEmulator) (l : list event) (e : exn) :
  handle_order client_socket msg s = (l, Exc e s') ->
  l = [] /\ order_id s' = order_id s + 1 /\ orders s' = orders s /\
  orders s' !! (order_id s') = orders s !! (order_id s + 1).
Proof.
  rewrite handle_order_run. cbv zeta.
  repeat match goal with
         | |- context [match ?x with _ => _ end] =>
             lazymatch x with
             | dict_get _ _ => destruct x
             | data_df _ => destruct x
             | iloc _ _ => destruct x
             end
         end; intros [= <- <- <-]; destruct s; repeat split.
Qed.


(** X15. Every [reqRealTimeBars] request starts a streaming thread of its
    own for the socket; the handler leaves the emulator as it is and
    goes on to its next read. *)
Theorem bar_request_starts_a_stream (client_socket : nat) (sk : Socket)
    (d : string) (msg : json) (reads : list recv_result) (s : TWSEmulator) :
  running s = true -> sockets s !! client_socket = Some sk ->
  closed sk = false -> nonempty d = true -> json_loads d = Some msg ->
  dict_get msg "type" = inr (JStr "reqRealTimeBars") ->
  handle_client client_socket (Data d :: reads) s =
    prepend [ThreadStart "stream_bars" client_socket]
      (handle_client client_socket reads s).
Proof.
  intros Hr Hs Hk Hd Hj Hty.
  apply (handle_client_processed client_socket sk); try assumption.
  now rewrite (process_message_typed _ _ _ _ _ Hj Hty).
Qed.

(** X16. A [disconnect] request takes the socket out of [clients] and
    closes it, and the handler goes on to its next read: that read
    fails on the closed socket, and the handler ends with "Error
    handling client". *)
Theorem disconnect_request_ends_in_an_error (client_socket : nat)
    (sk : Socket) (d : string) (msg : json) (l : list nat) (r : recv_result)
    (reads : list recv_result) (s : TWSEmulator) :
  running s = true -> sockets s !! client_socket = Some sk ->
  closed sk = false -> nonempty d = true -> json_loads d = Some msg ->
  dict_get msg "type" = inr (JStr "disconnect") ->
  list_remove client_socket (clients s) = Some l ->
  handle_client client_socket (Data d :: r :: reads) s =
    ([Closed client_socket; Print "Error handling client"],
     Ok tt (set_sockets (<[client_socket := sock_close sk]> (sockets s))
              (set_clients l s))).
Proof.
  intros Hr Hs Hk Hd Hj Hty Hl.
  assert (Hp : process_message client_socket d s =
            ([Closed client_socket],
             Ok tt (set_sockets
                      (<[client_socket := sock_close sk]> (sockets s))
                      (set_clients l s)))).
  { rewrite (process_message_typed _ _ _ _ _ Hj Hty). unfold try_except.
    change (is_str (JStr "disconnect") "reqRealTimeBars") with false.
    change (is_str (JStr "disconnect") "placeOrder") with false.
    change (is_str (JStr "disconnect") "disconnect") with true.
    cbv iota. now rewrite (unregister_and_close _ _ _ _ Hs Hl). }
  rewrite (handle_client_processed client_socket sk d (r :: reads) s _ _
             Hr Hs Hk Hd Hp).
  rewrite (handle_client_recv_closed client_socket (sock_close sk)).
  - reflexivity.
  - destruct s; exact Hr.
  - destruct s; simpl. apply lookup_insert_eq.
  - reflexivity.
Qed.

(** X17. When the peer has shut down, the handler takes the socket out of
    [clients], closes it and ends; the reads that follow are never
    made. *)
Theorem peer_shutdown_unregisters (client_socket : nat) (sk : Socket)
    (l : list nat) (reads : list recv_result) (s : TWSEmulator) :
  running s = true -> sockets s !! client_socket = Some sk ->
  closed sk = false -> list_remove client_socket (clients s) = Some l ->
  handle_client client_socket (Data EmptyString :: reads) s =
    ([Closed client_socket],
     Ok tt (set_sockets (<[client_socket := sock_close sk]> (sockets s))
              (set_clients l s))).
Proof.
  intros Hr Hs Hk Hl. rewrite handle_client_cons, bind_get, Hr.
  assert (Hbody : handle_client_body client_socket (Data EmptyString) s =
            ([Closed client_socket],
             Ok true (set_sockets
                        (<[client_socket := sock_close sk]> (sockets s))
                        (set_clients l s)))).
  { unfold handle_client_body.
    rewrite (bind_ok _ _ _ _ _ _ (emu_socket_recv_open _ _ EmptyString s Hs Hk)).
    cbn [nonempty fst snd app].
    change (clients_remove client_socket;; socket_close client_socket;;
            ret true)%eff
      with (clients_remove client_socket;;
            (socket_close client_socket;; ret true))%eff.
    unfold clients_remove. rewrite bind_assoc, bind_get, Hl, bind_put.
    unfold socket_close. rewrite bind_assoc, bind_get.
    cbn [sockets set_clients]. rewrite Hs.
    now rewrite bind_assoc, bind_put, bind_emit. }
  rewrite (bind_ok _ _ _ _ _ _ (try_except_ok _ _ _ _ _ _ Hbody)).
  reflexivity.
Qed.

(** X18. A [recv] that raises ends the handler with "Error handling
    client" and nothing else: the socket is not closed and stays in
    [clients]. *)
Theorem recv_error_leaves_the_socket_registered (client_socket : nat)
    (reads : list recv_result) (s : TWSEmulator) :
  running s = true ->
  handle_client client_socket (RecvError :: reads) s =
    ([Print "Error handling client"], Ok tt s).
Proof.
  intros Hr. rewrite handle_client_cons, bind_get, Hr.
  assert (Hbody : handle_client_body client_socket RecvError s =
            ([], Exc OSError s)).
  { unfold handle_client_body. apply bind_exc. unfold socket_recv.
    rewrite bind_get. destruct (sockets s !! client_socket) as [sk|];
      [destruct (closed sk)|]; reflexivity. }
  pose proof (try_except_exc _
    (fun _ => Some (emit (Print "Error handling client");; ret true)%eff)
    _ _ _ _ _ Hbody eq_refl) as Htry.
  rewrite bind_emit in Htry. simpl in Htry.
  now rewrite (bind_ok _ _ _ _ _ _ Htry).
Qed.

End HandlerPaths.

(* ================================================================== *)
(** * The emulator: stopping, and streams that are cut short *)

Section StopAndStream.
Import Text Wire Eff Spec SpecE SpecX Emulator.
Context `{PyLib}.

Lemma sock_close_twice (sk : Socket) : sock_close (sock_close sk) = sock_close sk.
Proof. reflexivity. Qed.






Lemma take_bar_log (client_socket : nat) (row : Df.Series Timestamp)
    (rows : list (Df.Series Timestamp)) (n : nat) :
  bar_log client_socket (take (S n) (row :: rows)) =
  [Print "Streaming bar";
   Sent client_socket (json_dumps (bar_msg row) +:+ nl)]
  ++ bar_log client_socket (take n rows).
Proof. reflexivity. Qed.

(** The loop of [stream_bars] when the flag is cleared during the sleep
    that follows bar [j]. *)
Lemma stream_loop_clears (env : nat -> TWSEmulator -> TWSEmulator)
    (client_socket : nat) (sk : Socket) (j : nat)
    (rows : list (Df.Series Timestamp)) (i : nat) (s : TWSEmulator) :
  clears_at env client_socket j -> (i <= j)%nat -> running s = true ->
  sockets s !! client_socket = Some sk -> write_fails sk = false ->
  exists s',
    stream_loop env client_socket i rows s
      = (bar_log client_socket (take (S j - i) rows), Ok tt s') /\
    sockets s' !! client_socket = Some sk.
Proof.
  intros Henv. revert i s.
  induction rows as [|row rows IH]; intros i s Hij Hr Hs Hw.
  - exists s. rewrite take_nil. now split.
  - destruct (Henv i s) as [Hs' Hr']. rewrite Hs in Hs'.
    replace (S j - i)%nat with (S (j - i)) by lia. rewrite take_bar_log.
    simpl stream_loop. rewrite bind_get, Hr. cbn [negb]. rewrite bind_emit.
    rewrite (bind_ok _ _ _ _ _ _ (send_message_run _ _ s)).
    rewrite modify_run. unfold reply_log. rewrite Hs, Hw.
    destruct (Nat.eqb i j) eqn:Heq.
    + apply Nat.eqb_eq in Heq. subst i.
      rewrite (stream_loop_flag_cleared env _ _ rows _ Hr').
      exists (env j s). rewrite Nat.sub_diag, take_0. now split.
    + apply Nat.eqb_neq in Heq. rewrite Hr in Hr'.
      destruct (IH (S i) (env i s) ltac:(lia) Hr' Hs' Hw) as (s' & Hrun & Hs2).
      exists s'. rewrite Hrun. split; [|exact Hs2].
      replace (S j - S i)%nat with (j - i)%nat by lia. reflexivity.
Qed.

(** X21. When the flag is cleared during the sleep that follows bar [j] and
    the socket stays open, the streaming task writes the bars up to bar
    [j] and no further bar, and then it writes [endOfData] all the
    same. *)
Theorem stream_stops_within_one_bar
    (env : nat -> TWSEmulator -> TWSEmulator) (client_socket : nat)
    (sk : Socket) (j : nat) (rows : list (Df.Series Timestamp))
    (s : TWSEmulator) :
  clears_at env client_socket j -> running s = true ->
  sockets s !! client_socket = Some sk -> write_fails sk = false ->
  snd (aggregate_to_seconds s) = Ok rows s ->
  wire client_socket (fst (stream_bars env client_socket s))
  = bar_frames (take (S j) rows) +:+ json_dumps end_of_data_msg +:+ nl.
Proof.
  intros Henv Hr Hs Hw Hagg. unfold stream_bars.
  pose proof (aggregate_to_seconds_wire client_socket s) as Hla.
  destruct (aggregate_to_seconds s) as [la o] eqn:Ha.
  simpl in Hagg, Hla. subst o.
  rewrite (bind_ok _ _ _ _ _ _ Ha).
  destruct (stream_loop_clears env client_socket sk j rows 0 s Henv
              ltac:(lia) Hr Hs Hw) as (s' & Hloop & Hs').
  rewrite Nat.sub_0_r in Hloop.
  rewrite (bind_ok _ _ _ _ _ _ Hloop).
  rewrite (bind_ok _ _ _ _ _ _ (send_message_run _ _ s')).
  unfold reply_log. rewrite Hs', Hw. simpl.
  rewrite !wire_app, Hla, wire_bar_log, str_app_empty_l. simpl.
  rewrite Nat.eqb_refl. now rewrite str_app_empty_r.
Qed.

(** X22. On data whose usual step is neither about five seconds nor about a
    minute the streaming task raises [ValueError] before it has written
    anything: the client gets no bar and no [endOfData]. *)
Theorem unsupported_frequency_streams_nothing
    (env : nat -> TWSEmulator -> TWSEmulator) (client_socket : nat)
    (df : list (Df.Series Timestamp)) (q : Q) (s : TWSEmulator) :
  data_df s = Some df -> freq_mode df = Some q ->
  Qltb (Qabs_diff q 5) 2 = false -> Qltb (Qabs_diff q 60) 10 = false ->
  stream_bars env client_socket s = ([], Exc ValueError s).
Proof.
  intros Hd Hq H5 H60. unfold stream_bars. apply bind_exc.
  unfold aggregate_to_seconds. rewrite bind_get, Hd. unfold lift_opt.
  now rewrite bind_ret, Hq, H5, H60.
Qed.

(** A streaming task that is started before [load_data] has run raises
    [TypeError] before it has written anything. *)
Lemma stream_without_data_raises
    (env : nat -> TWSEmulator -> TWSEmulator) (client_socket : nat)
    (s : TWSEmulator) :
  data_df s = None ->
  stream_bars env client_socket s = ([], Exc TypeError s).
Proof.
  intros Hd. unfold stream_bars. apply bind_exc.
  unfold aggregate_to_seconds. rewrite bind_get, Hd. unfold lift_opt.
  now rewrite bind_raise.
Qed.


End StopAndStream.

(* ================================================================== *)
(** * The emulator: starting and accepting *)

Section AcceptLoop.
Import Text Wire Eff Spec SpecE SpecX Emulator EmulatorRest.
Context `{PyLib}.


(** One turn of the loop on an emulator that the other threads leave
    running and listening. *)
Lemma accept_turn (env : nat -> TWSEmulator -> TWSEmulator) (i : nat)
    (a : accept_result) (sk : Socket) (s : TWSEmulator) :
  leaves_listener env -> running s = true -> server_socket s = Some sk ->
  closed sk = false ->
  exists s',
    try_except (modify (env i);; accept_body a)%eff accept_except s
      = (accept_log a, Ok tt s') /\
    running s' = true /\ server_socket s' = Some sk /\
    clients s' = clients s ++ accepted [a].
Proof.
  intros Henv Hr Hv Hk. destruct (Henv i s) as (Hr1 & Hv1 & Hc1).
  rewrite Hr in Hr1. rewrite Hv in Hv1.
  unfold try_except. rewrite modify_run.
  unfold accept_body, server_accept. rewrite bind_assoc, bind_get, Hv1, Hk.
  destruct a as [n|].
  - rewrite bind_assoc, bind_put, bind_ret, bind_emit, bind_get, bind_put.
    simpl. eexists. split; [reflexivity|].
    cbn [running server_socket clients set_clients set_sockets accepted].
    rewrite Hc1. now repeat split.
  - rewrite bind_raise. simpl. rewrite bind_get, Hr1. simpl.
    exists (env i s). rewrite List.app_nil_r. now repeat split.
Qed.

(** The loop on an emulator that the other threads leave running and
    listening: every accepted connection is registered and gets a
    handler, in the order of the connections, a failed [accept] is
    printed, and the thread goes on waiting. *)
Lemma accept_clients_run (env : nat -> TWSEmulator -> TWSEmulator)
    (sk : Socket) (accepts : list accept_result) (i : nat) (s : TWSEmulator) :
  leaves_listener env -> running s = true -> server_socket s = Some sk ->
  closed sk = false ->
  exists s',
    accept_clients env i accepts s
      = (concat (map accept_log accepts), Waiting s') /\
    running s' = true /\
    clients s' = clients s ++ accepted accepts.
Proof.
  intros Henv. revert i s.
  induction accepts as [|a accepts IH]; intros i s Hr Hv Hk.
  - exists s. simpl. rewrite Hr, List.app_nil_r. now repeat split.
  - destruct (accept_turn env i a sk s Henv Hr Hv Hk)
      as (s1 & Hturn & Hr1 & Hv1 & Hc1).
    destruct (IH (S i) s1 Hr1 Hv1 Hk) as (s2 & Hrest & Hr2 & Hc2).
    exists s2. simpl accept_clients. rewrite Hr, Hturn, Hrest.
    split; [reflexivity|]. split; [exact Hr2|].
    rewrite Hc2, Hc1, <- List.app_assoc. f_equal.
    destruct a; reflexivity.
Qed.

(** X24. After [start_server] has got its listening socket, the emulator
    runs and the accepting thread, as long as the other threads leave
    the flag, the listening socket and [clients] alone, registers every
    accepted connection at the end of [clients] and starts one handler
    for it, in the order of the connections; a failed [accept] is
    printed and the thread goes on. *)
Theorem server_accepts_after_start
    (env : nat -> TWSEmulator -> TWSEmulator) (n : nat)
    (accepts : list accept_result) (s : TWSEmulator) :
  leaves_listener env ->
  exists s1 s2,
    start_server (Listening n) s =
      ([Print "TWS Emulator listening"; ThreadStart "accept_clients" n],
       Ok tt s1) /\
    running s1 = true /\
    accept_clients env 0 accepts s1
      = (concat (map accept_log accepts), Waiting s2) /\
    running s2 = true /\
    clients s2 = clients s ++ accepted accepts.
Proof.
  intros Henv.
  set (s1 := set_running true
               (set_server_socket (Some (mkSocket n false false)) s)).
  assert (Hstart : start_server (Listening n) s =
            ([Print "TWS Emulator listening"; ThreadStart "accept_clients" n],
             Ok tt s1)).
  { unfold start_server. now rewrite modify_run, bind_emit, modify_run. }
  destruct (accept_clients_run env (mkSocket n false false) accepts 0 s1 Henv)
    as (s2 & Hrun & Hr2 & Hc2); try (destruct s; reflexivity).
  exists s1, s2. rewrite Hc2.
  repeat split; try assumption; destruct s; reflexivity.
Qed.


End AcceptLoop.

(* ================================================================== *)
(** * An order, from the client to the emulator and back *)

Section OrderRoundTrip.
Import Text Wire Eff Spec SpecE SpecX Client.
Context `{PyLib}.

Local Arguments drain : simpl never.
Local Arguments listen_loop : simpl never.

(** X26. The frame that [place_order] writes, read by the handler of the
    connection in one piece, makes the emulator write one [orderStatus]
    frame, and that frame, read by the receive task of the client,
    brings the status callback a trade with the identifier that the
    emulator has counted, filled at the close that the emulator has
    picked: not the identifier that [place_order] has returned. *)
Theorem order_round_trip (c : TWSClient) (sk : Socket) (order : Order)
    (cb : nat) (s : Emulator.TWSEmulator) (client_socket : nat)
    (ssk : Socket) (df : list (Df.Series Timestamp)) (p : pyfloat) :
  live c = true -> socket c = Some sk -> write_fails sk = false ->
  order_status_callback c = Some cb ->
  Emulator.running s = true ->
  Emulator.sockets s !! client_socket = Some ssk -> write_fails ssk = false ->
  Emulator.data_df s = Some df ->
  Emulator.iloc (map Df.close df)
    (Z.min (Emulator.order_id s + 1) (Z.of_nat (length df) - 1)) = Some p ->
  json_loads
    (json_dumps
       (JDict [("type", JStr "placeOrder");
                ("order", JDict [("action", action order);
                                 ("quantity", totalQuantity order)])]) +:+ nl)
    = Some
        (JDict [("type", JStr "placeOrder");
                ("order", JDict [("action", action order);
                                 ("quantity", totalQuantity order)])]) ->
  travels
    (JDict [("type", JStr "orderStatus");
                ("orderId", JInt (Emulator.order_id s + 1));
                ("status", JStr "Filled"); ("avgFillPrice", JFloat p)]) ->
  let request := wire (fd sk) (fst (place_order order c)) in
  let reply :=
    wire client_socket
      (fst (Emulator.handle_client client_socket [Data request] s)) in
  snd (place_order order c) = Ok (id order) c /\
  request
    = json_dumps
        (JDict [("type", JStr "placeOrder");
                ("order", JDict [("action", action order);
                                 ("quantity", totalQuantity order)])]) +:+ nl /\
  reply
    = json_dumps
        (JDict [("type", JStr "orderStatus");
                ("orderId", JInt (Emulator.order_id s + 1));
                ("status", JStr "Filled"); ("avgFillPrice", JFloat p)]) +:+ nl /\
  listen [Data reply] c =
    ([OrderStatusCallback cb
        (mkTrade (JInt (Emulator.order_id s + 1)) (JStr "Filled") (JFloat p))],
     Blocked OnRecv c).
Proof.
  change (JDict [("type", JStr "placeOrder");
                ("order", JDict [("action", action order);
                                 ("quantity", totalQuantity order)])])
    with (place_order_msg order).
  change (JDict [("type", JStr "orderStatus");
                ("orderId", JInt (Emulator.order_id s + 1));
                ("status", JStr "Filled"); ("avgFillPrice", JFloat p)])
    with (Emulator.status_msg (Emulator.order_id s + 1) p).
  intros Hlive Hsk Hw Hcb Hr Hs Hsw Hdf Hp Hload Htr request reply.
  destruct (live_inv _ Hlive) as (Hc & Hrun & Hl & sk' & Hs' & Hk).
  assert (Hreq : request = json_dumps (place_order_msg order) +:+ nl).
  { unfold request.
    rewrite (place_order_connected c sk order Hc Hl Hsk Hw), Hcb. simpl.
    now rewrite Nat.eqb_refl, str_app_empty_r. }
  assert (Hrep : reply =
            json_dumps (Emulator.status_msg (Emulator.order_id s + 1) p)
            +:+ nl).
  { unfold reply. rewrite Hreq.
    rewrite (handle_client_data client_socket ssk _ [] s Hr Hs
               (write_ok_open ssk Hsw))
      by (destruct (json_dumps (place_order_msg order)); reflexivity).
    rewrite (process_message_typed _ _ _ (JStr "placeOrder") s Hload eq_refl).
    unfold try_except.
    change (is_str (JStr "placeOrder") "reqRealTimeBars") with false.
    change (is_str (JStr "placeOrder") "placeOrder") with true.
    cbv iota. rewrite handle_order_run. cbv zeta.
    change (dict_get (place_order_msg order) "order")
      with (@inr exn json (JDict [("action", action order);
                                  ("quantity", totalQuantity order)])).
    cbv iota.
    change (dict_get (JDict [("action", action order);
                             ("quantity", totalQuantity order)]) "action")
      with (@inr exn json (action order)).
    change (dict_get (JDict [("action", action order);
                             ("quantity", totalQuantity order)]) "quantity")
      with (@inr exn json (totalQuantity order)).
    cbv iota. rewrite Hdf, Hp. unfold reply_log. rewrite Hs, Hsw.
    cbn [fst snd]. rewrite wire_app, handle_client_nil_log. simpl.
    now rewrite Nat.eqb_refl, !str_app_empty_r. }
  split; [now rewrite (place_order_connected c sk order Hc Hl Hsk Hw)|].
  split; [exact Hreq|]. split; [exact Hrep|].
  rewrite Hrep, listen_forget, listen_loop_data; [|assumption|].
  2: { destruct (json_dumps (Emulator.status_msg _ p)); reflexivity. }
  rewrite str_app_empty_l.
  rewrite <- (str_app_empty_r (json_dumps _ +:+ nl)), str_app_assoc.
  rewrite drain_frame by assumption.
  unfold bind. rewrite on_self_run, (dispatch_status c cb _ p Hcb).
  simpl. rewrite drain_empty. unfold after_drain, prepend.
  rewrite listen_loop_waits by assumption. reflexivity.
Qed.

End OrderRoundTrip.

(* ================================================================== *)
(** * The further statements on the connections of the scenarios *)

Section ClientRestScenarios.
Import Text Wire Eff Spec SpecE SpecX Demo DemoX.
#[local] Existing Instance Ref.lib.

Lemma flags_stay_together_witness :
  flags_agree (final (Client.connect (Client.Established 5) Demo.client)) /\
  flags_agree (final (Client.disconnect Demo.client)) /\
  flags_agree (final (Client.send bars_request Demo.client)) /\
  flags_agree (final (Client.place_order buy Demo.client)) /\
  flags_agree
    (final (Client.req_real_time_bars (JStr "5 secs") (Some 1%nat)
              Demo.client)) /\
  flags_agree
    (final (Client.set_order_status_callback (Some 1%nat) Demo.client)) /\
  flags_agree (final (Client.listen [Data order_frame] Demo.client)).
Proof.
  exact (flags_stay_together Demo.client (Client.Established 5) bars_request
           (JStr "5 secs") (Some 1%nat) buy [Data order_frame] eq_refl).
Defined.

Lemma listen_ends_with_the_connection_witness :
  Client.listen_loop [Data EmptyString; Data order_frame]
    (Client.mkListen Demo.client order_head) =
    (Print "Socket closed by emulator"
       :: disconnect_log (mkSocket 5 false false),
     Ok tt (Client.mkListen (disconnected (mkSocket 5 false false) Demo.client)
              order_head)) /\
  Client.listen_loop [RecvError; Data order_frame]
    (Client.mkListen Demo.client order_head) =
    (Print "Client listen error" :: disconnect_log (mkSocket 5 false false),
     Ok tt (Client.mkListen (disconnected (mkSocket 5 false false) Demo.client)
              order_head)).
Proof.
  exact (listen_ends_with_the_connection Demo.client (mkSocket 5 false false)
           order_head [Data order_frame] eq_refl eq_refl).
Defined.

Lemma nothing_after_end_of_data_witness :
  Client.listen_loop
    [Data (json_dumps Emulator.end_of_data_msg +:+ nl +:+ order_frame);
     Data order_frame]
    (Client.mkListen Demo.client EmptyString) =
    (Print "Received endOfData signal"
       :: disconnect_log (mkSocket 5 false false),
     Ok tt (Client.mkListen (disconnected (mkSocket 5 false false) Demo.client)
              order_frame)).
Proof.
  exact (nothing_after_end_of_data Demo.client (mkSocket 5 false false)
           (json_dumps Emulator.end_of_data_msg) order_frame
           Emulator.end_of_data_msg [Data order_frame]
           eq_refl eq_refl eq_refl eq_refl eq_refl eq_refl).
Defined.


Lemma connect_puts_in_service_witness :
  exists l c',
    Client.connect (Client.Established 5) (Client.__init__ "127.0.0.1" 7498)
      = (l, Ok tt c') /\
    live c' = true /\ Client.stop_event c' = false /\
    l = [ThreadStart "listen" 5; Print "Connected"].
Proof.
  exact (connect_puts_in_service (Client.Established 5)
           (Client.__init__ "127.0.0.1" 7498) eq_refl).
Defined.

Lemma place_order_reports_a_fill_unsent_witness :
  Client.place_order buy
    (Client.set_order_status_callback_field (Some 2%nat)
       (Client.__init__ "127.0.0.1" 7498)) =
    ([OrderStatusCallback 2
        (mkTrade (JInt 140234) (JStr "Filled") (JFloat (Float "0.0")))],
     Ok 140234
       (Client.set_order_status_callback_field (Some 2%nat)
          (Client.__init__ "127.0.0.1" 7498))).
Proof.
  exact (place_order_reports_a_fill_unsent
           (Client.set_order_status_callback_field (Some 2%nat)
              (Client.__init__ "127.0.0.1" 7498))
           buy 2%nat eq_refl eq_refl eq_refl).
Defined.

Lemma requested_bars_reach_the_callback_witness :
  Client.req_real_time_bars (JStr "5 secs") (Some 4%nat) Demo.client =
    ([Sent 5
        (json_dumps (JDict [("type", JStr "reqRealTimeBars");
                            ("barSize", JStr "5 secs")]) +:+ nl);
      Print "Requested real-time bars"],
     Ok tt (Client.set_bar_callback (Some 4%nat) Demo.client)) /\
  Client.listen
    [Data (json_dumps
             (JDict [("type", JStr "barUpdate");
                     ("time", JStr "2024-01-02T09:30:00-05:00");
                     ("open", JFloat (Float "100.0"));
                     ("high", JFloat (Float "100.5"));
                     ("low", JFloat (Float "99.5"));
                     ("close", JFloat (Float "100.0"))]) +:+ nl)]
    (Client.set_bar_callback (Some 4%nat) Demo.client) =
    ([BarCallback 4
        (mkBar "2024-01-02T09:30:00-05:00" (JFloat (Float "100.0"))
           (JFloat (Float "100.5")) (JFloat (Float "99.5"))
           (JFloat (Float "100.0"))) true],
     Blocked OnRecv (Client.set_bar_callback (Some 4%nat) Demo.client)).
Proof.
  exact (requested_bars_reach_the_callback Demo.client (mkSocket 5 false false)
           (JStr "5 secs") 4%nat
           (Df.mkSeries "2024-01-02T09:30:00-05:00" (Float "100.0")
              (Float "100.5") (Float "99.5") (Float "100.0"))
           eq_refl eq_refl eq_refl (conj eq_refl (conj eq_refl eq_refl))
           eq_refl).
Defined.

Lemma run_returns_after_disconnect_witness :
  exists c',
    Ok tt
      (Client.set_stop_event true
         (Client.set_running false (Client.set_connected false Demo.client)))
    = Ok tt c' /\
    Client.connected c' = false /\
    Forall quiet_event [Print "Client running..."; Print "Client stopped"].
Proof.
  refine (run_returns_after_disconnect hangs_up true false idle Demo.client
            _ _ eq_refl eq_refl eq_refl).
  - repeat constructor; try assumption.
  - intros c0. split; reflexivity.
Defined.

Lemma run_blocks_when_only_the_flag_is_cleared_witness :
  exists l c',
    ClientRest.run hangs_up true false idle client_halted
      = (l, Done (Blocked OnLock c')) /\
    Client.connected c' = true /\ Client.lock c' = true /\
    Forall quiet_event l.
Proof.
  refine (run_blocks_when_only_the_flag_is_cleared hangs_up true false idle
            client_halted _ eq_refl eq_refl eq_refl).
  intros c0. split; reflexivity.
Defined.

Lemma order_round_trip_witness :
  snd (Client.place_order sell Demo.client) = Ok 140610 Demo.client /\
  wire 5 (fst (Client.place_order sell Demo.client)) =
    json_dumps
      (JDict [("type", JStr "placeOrder");
              ("order", JDict [("action", JStr "SELL");
                               ("quantity", JInt 25)])]) +:+ nl /\
  wire 7
    (fst (Emulator.handle_client 7
            [Data (wire 5 (fst (Client.place_order sell Demo.client)))]
            emulator)) =
    json_dumps
      (JDict [("type", JStr "orderStatus"); ("orderId", JInt 1);
              ("status", JStr "Filled");
              ("avgFillPrice", JFloat (Float "101.0"))]) +:+ nl /\
  Client.listen
    [Data (wire 7
             (fst (Emulator.handle_client 7
                     [Data (wire 5 (fst (Client.place_order sell Demo.client)))]
                     emulator)))]
    Demo.client =
    ([OrderStatusCallback 2
        (mkTrade (JInt 1) (JStr "Filled") (JFloat (Float "101.0")))],
     Blocked OnRecv Demo.client).
Proof.
  exact (order_round_trip Demo.client (mkSocket 5 false false) sell 2%nat
           emulator 7 (mkSocket 7 false false) bars (Float "101.0")
           eq_refl eq_refl eq_refl eq_refl eq_refl eq_refl eq_refl eq_refl
           eq_refl eq_refl (conj eq_refl (conj eq_refl eq_refl))).
Defined.

End ClientRestScenarios.

Section EmulatorRestScenarios.
Import Text Wire Eff Spec SpecE SpecX Emulator EmulatorRest Demo DemoX.
#[local] Existing Instance Ref.lib.


Lemma failed_order_takes_an_identifier_witness :
  @nil event = [] /\
  order_id (set_order_id 1 emulator) = order_id emulator + 1 /\
  orders (set_order_id 1 emulator) = orders emulator /\
  orders (set_order_id 1 emulator) !! order_id (set_order_id 1 emulator)
  = orders emulator !! (order_id emulator + 1).
Proof.
  exact (failed_order_takes_an_identifier 7 order_without_order emulator
           (set_order_id 1 emulator) [] AttributeError eq_refl).
Defined.


Lemma bar_request_starts_a_stream_witness :
  handle_client 7 [Data (json_dumps bars_request +:+ nl); Data order_frame]
    emulator =
    prepend [ThreadStart "stream_bars" 7]
      (handle_client 7 [Data order_frame] emulator).
Proof.
  exact (bar_request_starts_a_stream 7 (mkSocket 7 false false)
           (json_dumps bars_request +:+ nl) bars_request [Data order_frame]
           emulator eq_refl eq_refl eq_refl eq_refl eq_refl eq_refl).
Defined.

Lemma disconnect_request_ends_in_an_error_witness :
  handle_client 7
    [Data (json_dumps Client.disconnect_msg +:+ nl); Data order_frame] emulator =
    ([Closed 7; Print "Error handling client"],
     Ok tt (set_sockets
              (<[7%nat := sock_close (mkSocket 7 false false)]>
                 (sockets emulator))
              (set_clients [] emulator))).
Proof.
  exact (disconnect_request_ends_in_an_error 7 (mkSocket 7 false false)
           (json_dumps Client.disconnect_msg +:+ nl) Client.disconnect_msg []
           (Data order_frame) [] emulator
           eq_refl eq_refl eq_refl eq_refl eq_refl eq_refl eq_refl).
Defined.

Lemma peer_shutdown_unregisters_witness :
  handle_client 7 [Data EmptyString; Data order_frame] emulator =
    ([Closed 7],
     Ok tt (set_sockets
              (<[7%nat := sock_close (mkSocket 7 false false)]>
                 (sockets emulator))
              (set_clients [] emulator))).
Proof.
  exact (peer_shutdown_unregisters 7 (mkSocket 7 false false) []
           [Data order_frame] emulator eq_refl eq_refl eq_refl eq_refl).
Defined.

Lemma recv_error_leaves_the_socket_registered_witness :
  handle_client 7 [RecvError; Data order_frame] emulator =
    ([Print "Error handling client"], Ok tt emulator).
Proof.
  exact (recv_error_leaves_the_socket_registered 7 [Data order_frame] emulator
           eq_refl).
Defined.


Lemma stream_stops_within_one_bar_witness :
  wire 7 (fst (stream_bars flag_cleared 7 emulator))
  = bar_frames (take 1 bars) +:+ json_dumps end_of_data_msg +:+ nl.
Proof.
  refine (stream_stops_within_one_bar flag_cleared 7 (mkSocket 7 false false)
            0 bars emulator _ eq_refl eq_refl eq_refl eq_refl).
  intros i s. unfold flag_cleared.
  destruct (Nat.eqb i 0); destruct s; split; reflexivity.
Defined.

Lemma unsupported_frequency_streams_nothing_witness :
  @stream_bars (lib_at 3600) (quiet_at 3600) 7 (emulator_at 3600)
  = ([], Exc ValueError (emulator_at 3600)).
Proof.
  exact (@unsupported_frequency_streams_nothing (lib_at 3600) (quiet_at 3600)
           7%nat bars 3600%Q (emulator_at 3600)
           eq_refl eq_refl eq_refl eq_refl).
Defined.

Example stream_before_load_data :
  stream_bars quiet 7 (set_data_df None emulator)
  = ([], Exc TypeError (set_data_df None emulator)).
Proof. reflexivity. Qed.


Lemma server_accepts_after_start_witness :
  exists s1 s2,
    start_server (Listening 3) (__init__ "127.0.0.1" 7498 (Some "bars.pkl")) =
      ([Print "TWS Emulator listening"; ThreadStart "accept_clients" 3],
       Ok tt s1) /\
    running s1 = true /\
    accept_clients quiet 0 three_accepts s1
      = (concat (map accept_log three_accepts), Waiting s2) /\
    running s2 = true /\
    clients s2
    = clients (__init__ "127.0.0.1" 7498 (Some "bars.pkl"))
      ++ accepted three_accepts.
Proof.
  refine (server_accepts_after_start quiet 3 three_accepts
            (__init__ "127.0.0.1" 7498 (Some "bars.pkl")) _).
  intros i s. repeat split.
Defined.


End EmulatorRestScenarios.
